(** * FLOWBIT learned-memory agent: a shallow embedding of the services layer

    The development follows the TypeScript sources: the confidence
    arithmetic ([services/confidence.ts]), the SQLite-backed repository
    ([repository/memory-repository.ts], [repository/database.ts]) and the four
    stages Recall, Apply, Decide and Learn with their orchestrator.

    Conventions of the embedding.
    - A JavaScript [number] is an exact rational ([Q]); rounding of binary64
      arithmetic is studied separately, on the kernel's IEEE-754 doubles: for
      the confidence functions in module [Binary64], and for the scores of
      purchase orders, where rounding decides which order is matched, in
      module [POMatchingService64].
    - A JavaScript [string] is a [string] of 7-bit characters; [toLowerCase],
      [toUpperCase], [trim] and the regular expressions are modelled on that
      alphabet, where they change or test the letters A to Z alone.
    - A [Date] is its number of milliseconds since the epoch ([Z]); the
      ISO-8601 text the repository stores is kept as that number.
    - A table of the database is the list of its rows in insertion order.
    - Code that can throw (a violated table constraint) returns a [Result]. *)

From Stdlib Require Import ZArith QArith Qminmax Qround Qabs Qpower Lqa Lia.
From Stdlib Require Import String Ascii List Floats Permutation Sorted.
From stdpp Require Import base list strings gmap pretty.

Set Warnings "-inexact-float".
Set Default Proof Using "Type".

(** ** JavaScript strings *)

Module Js.

Definition code (c : ascii) : nat := nat_of_ascii c.

Definition isUpper (c : ascii) : bool := (65 <=? code c)%nat && (code c <=? 90)%nat.
Definition isLower (c : ascii) : bool := (97 <=? code c)%nat && (code c <=? 122)%nat.
Definition isDigit (c : ascii) : bool := (48 <=? code c)%nat && (code c <=? 57)%nat.

(** [\w] of a regular expression without the unicode flag. *)
Definition isWord (c : ascii) : bool :=
  isUpper c || isLower c || isDigit c || (code c =? 95)%nat.

(** [\s], and what [trim] strips, on 7-bit characters: TAB, LF, VT, FF, CR, SP. *)
Definition isSpace (c : ascii) : bool :=
  ((9 <=? code c)%nat && (code c <=? 13)%nat) || (code c =? 32)%nat.

Definition lowerChar (c : ascii) : ascii :=
  if isUpper c then ascii_of_nat (code c + 32) else c.
Definition upperChar (c : ascii) : ascii :=
  if isLower c then ascii_of_nat (code c - 32) else c.

Fixpoint mapChars (f : ascii -> ascii) (s : string) : string :=
  match s with
  | EmptyString => EmptyString
  | String c r => String (f c) (mapChars f r)
  end.

Definition toLowerCase : string -> string := mapChars lowerChar.
Definition toUpperCase : string -> string := mapChars upperChar.

Fixpoint trimStart (s : string) : string :=
  match s with
  | String c r => if isSpace c then trimStart r else s
  | EmptyString => EmptyString
  end.

(** [true] when every character is white space. *)
Fixpoint allSpace (s : string) : bool :=
  match s with
  | EmptyString => true
  | String c r => isSpace c && allSpace r
  end.

Fixpoint trimEnd (s : string) : string :=
  match s with
  | EmptyString => EmptyString
  | String c r => if allSpace s then EmptyString else String c (trimEnd r)
  end.

Definition trim (s : string) : string := trimEnd (trimStart s).

(** [s.replace(/\s+/g, ' ')]: every maximal run of white space becomes one
    space; [inRun] tells that the previous character was white space. *)
Fixpoint collapseFrom (inRun : bool) (s : string) : string :=
  match s with
  | EmptyString => EmptyString
  | String c r =>
      if isSpace c
      then (if inRun then collapseFrom true r else String " "%char (collapseFrom true r))
      else String c (collapseFrom false r)
  end.

Definition collapseSpaces : string -> string := collapseFrom false.

(** [s.startsWith(p)]. *)
Fixpoint startsWith (p s : string) : bool :=
  match p, s with
  | EmptyString, _ => true
  | String a p', String b s' => Ascii.eqb a b && startsWith p' s'
  | String _ _, EmptyString => false
  end.

(** [s.includes(p)]. *)
Fixpoint includes (p s : string) : bool :=
  startsWith p s ||
  match s with
  | EmptyString => false
  | String _ r => includes p r
  end.

(** [parts.join(sep)]. *)
Fixpoint join (sep : string) (parts : list string) : string :=
  match parts with
  | [] => EmptyString
  | [p] => p
  | p :: rest => p +:+ sep +:+ join sep rest
  end.

(** The double-quote character, as a string. *)
Definition dquote : string := String (ascii_of_nat 34) EmptyString.

End Js.

(** ** JavaScript numbers and values *)

Module JsNum.

Definition ltb (x y : Q) : bool := negb (Qle_bool y x).
Definition geb (x y : Q) : bool := Qle_bool y x.
Definition gtb (x y : Q) : bool := negb (Qle_bool x y).
Definition eqb (x y : Q) : bool := Qeq_bool x y.

(** [Math.round]: the nearest integer, a tie going up. *)
Definition round (x : Q) : Z := Qfloor (x + (1 # 2)).

(** The decimal digits of [n], padded with zeros on the left to [width]. *)
Fixpoint padZeros (width : nat) (digits : string) : string :=
  match width with
  | O => digits
  | S w => if (String.length digits <? width)%nat then padZeros w ("0" +:+ digits) else digits
  end.

(** [x.toFixed(f)] below 1e21: the integer [n] nearest to [|x| * 10^f] (a tie
    going up), written with [f] digits after the point. *)
Definition toFixed (f : nat) (x : Q) : string :=
  let scale := (10 ^ Z.of_nat f)%Z in
  let n := Qfloor (Qabs x * inject_Z scale + (1 # 2)) in
  let whole := pretty (n / scale)%Z in
  let frac := padZeros f (pretty (n mod scale)%Z) in
  (if ltb x 0 then "-" else "") +:+ whole +:+
  (if (f =? 0)%nat then "" else "." +:+ frac).

(** The digits of [r / d] after the point, for [0 <= r < d], until the
    division stops or [fuel] digits are written. *)
Fixpoint fractionDigits (fuel : nat) (r d : Z) : string :=
  match fuel with
  | O => EmptyString
  | S k =>
      if (r =? 0)%Z then EmptyString
      else pretty (10 * r / d)%Z +:+ fractionDigits k ((10 * r) mod d)%Z d
  end.

(** [String(x)] for a number: an integer by its digits, another value by its
    decimal expansion (cut after 17 digits when it does not end: binary64
    prints the shortest digits that read back, which [Q] does not have). *)
Definition toString (x : Q) : string :=
  let a := Qabs x in
  let whole := Qfloor a in
  let r := (Qnum a - whole * Z.pos (Qden a))%Z in
  (if ltb x 0 then "-" else "") +:+ pretty whole +:+
  (if (r =? 0)%Z then "" else "." +:+ fractionDigits 17 r (Z.pos (Qden a))).

End JsNum.

(** A line item of an invoice, as [findMatchingPO] reads it:
    [{ sku: string | null; qty: number }]. *)
Record LineItem := { li_sku : option string; li_qty : Q }.

(** The values of type [unknown] that the fixtures and the services produce. *)
Inductive Value :=
| VUndefined
| VNull
| VBool (b : bool)
| VNumber (n : Q)
| VString (s : string)
| VLineItems (items : list LineItem).

Module JsVal.

(** [Boolean(v)]. *)
Definition truthy (v : Value) : bool :=
  match v with
  | VUndefined | VNull => false
  | VBool b => b
  | VNumber n => negb (JsNum.eqb n 0)
  | VString s => negb (String.eqb s "")
  | VLineItems _ => true
  end.

(** [v == null]. *)
Definition isNullish (v : Value) : bool :=
  match v with
  | VUndefined | VNull => true
  | _ => false
  end.

(** [String(v)]; an array of objects prints one [[object Object]] per item. *)
Definition toString (v : Value) : string :=
  match v with
  | VUndefined => "undefined"
  | VNull => "null"
  | VBool b => if b then "true" else "false"
  | VNumber n => JsNum.toString n
  | VString s => s
  | VLineItems items => Js.join "," (map (fun _ => "[object Object]"%string) items)
  end.

(** Truthiness of a [string | undefined] or [string | null]. *)
Definition truthyStr (o : option string) : bool :=
  match o with
  | Some s => negb (String.eqb s "")
  | None => false
  end.

End JsVal.

(** ** The data contracts ([models/index.ts]) *)

Record VendorMemory := {
  vm_id : string;
  vm_vendorId : string;
  vm_vendorName : string;
  vm_originalFieldName : string;
  vm_normalizedFieldName : string;
  vm_confidence : Q;
  vm_applicationCount : Z;
  vm_consecutiveRejections : Z;
  vm_createdAt : Z;
  vm_lastUsedAt : Z;
  vm_isActive : bool
}.

Record CorrectionMemory := {
  cm_id : string;
  cm_vendorId : option string;
  cm_fieldName : string;
  cm_originalValuePattern : string;
  cm_correctedValue : string;
  cm_confidence : Q;
  cm_applicationCount : Z;
  cm_consecutiveRejections : Z;
  cm_createdAt : Z;
  cm_lastUsedAt : Z;
  cm_isActive : bool
}.

(** The free-form [context] of a resolution memory is kept as its JSON text. *)
Record ResolutionMemory := {
  rm_id : string;
  rm_discrepancyType : string;
  rm_context : string;
  rm_approvalCount : Z;
  rm_rejectionCount : Z;
  rm_createdAt : Z;
  rm_lastUsedAt : Z;
  rm_isActive : bool
}.

Record InvoiceField := {
  f_name : string;
  f_value : Value;
  f_extractionConfidence : Q;
  f_originalLabel : option string
}.

(** [fields] is the object's entries in key order; its keys are distinct. *)
Record Invoice := {
  inv_id : string;
  inv_vendorId : string;
  inv_vendorName : string;
  inv_invoiceNumber : string;
  inv_invoiceDate : Z;
  inv_fields : list (string * InvoiceField);
  inv_rawText : option string
}.

Inductive Step := StepRecall | StepApply | StepDecide | StepLearn.

Record AuditEntry := {
  ae_step : Step;
  ae_timestamp : Z;
  ae_details : string
}.

Record ProcessingResult := {
  pr_normalizedInvoice : gmap string Value;
  pr_proposedCorrections : list string;
  pr_requiresHumanReview : bool;
  pr_reasoning : string;
  pr_confidenceScore : Q;
  pr_memoryUpdates : list string;
  pr_auditTrail : list AuditEntry
}.

Record FieldCorrection := {
  fc_fieldName : string;
  fc_originalValue : Value;
  fc_correctedValue : Value
}.

Inductive FeedbackAction := Approve | Reject | Correct.

Record HumanFeedback := {
  fb_invoiceId : string;
  fb_action : FeedbackAction;
  fb_corrections : option (list FieldCorrection);
  fb_timestamp : Z
}.

Record ConfidenceConfig := {
  initialHumanCorrectionConfidence : Q;
  autoApplyThreshold : Q;
  suggestionThreshold : Q;
  minimumThreshold : Q;
  maxConfidence : Q;
  reinforcementFactor : Q;
  rejectionPenaltyFactor : Q;
  decayHalfLifeDays : Q;
  maxConsecutiveRejectionsBeforeDeactivation : Z
}.

Definition CONFIDENCE_CONFIG : ConfidenceConfig := {|
  initialHumanCorrectionConfidence := 0.6;
  autoApplyThreshold := 0.85;
  suggestionThreshold := 0.70;
  minimumThreshold := 0.50;
  maxConfidence := 0.95;
  reinforcementFactor := 0.05;
  rejectionPenaltyFactor := 0.7;
  decayHalfLifeDays := 30;
  maxConsecutiveRejectionsBeforeDeactivation := 3
|}.

(** ** Confidence arithmetic ([services/confidence.ts]) *)

Inductive ThresholdAction := auto_applied | suggested | flagged.

Definition applyReinforcement (confidence : Q) : Q :=
  Qmin (confidence + reinforcementFactor CONFIDENCE_CONFIG * (1 - confidence))
       (maxConfidence CONFIDENCE_CONFIG).

Definition applyPenalty (confidence : Q) : Q :=
  Qmax (confidence * rejectionPenaltyFactor CONFIDENCE_CONFIG) 0.

Definition mapConfidenceToAction (confidence : Q) : ThresholdAction :=
  if JsNum.geb confidence (autoApplyThreshold CONFIDENCE_CONFIG) then auto_applied
  else if JsNum.geb confidence (suggestionThreshold CONFIDENCE_CONFIG) then suggested
  else flagged.

Definition normalizeVendorName (vendorName : string) : string :=
  Js.collapseSpaces (Js.trim (Js.toLowerCase vendorName)).

Definition actionName (a : ThresholdAction) : string :=
  match a with
  | auto_applied => "auto_applied"
  | suggested => "suggested"
  | flagged => "flagged"
  end.

(** The same two functions on IEEE-754 doubles, with the constants of
    [CONFIDENCE_CONFIG] rounded to binary64 as the JavaScript literals are. *)
Module Binary64.

(** [Math.min] and [Math.max]: a NaN argument gives NaN, and -0 is below +0. *)
Definition Math_min (x y : float) : float :=
  if PrimFloat.is_nan x then x else if PrimFloat.is_nan y then y
  else if PrimFloat.ltb x y then x else if PrimFloat.ltb y x then y
  else if PrimFloat.get_sign x then x else y.

Definition Math_max (x y : float) : float :=
  if PrimFloat.is_nan x then x else if PrimFloat.is_nan y then y
  else if PrimFloat.ltb x y then y else if PrimFloat.ltb y x then x
  else if PrimFloat.get_sign x then y else x.

Definition applyReinforcement (confidence : float) : float :=
  Math_min (confidence + 0.05 * (1 - confidence))%float 0.95%float.

Definition applyPenalty (confidence : float) : float :=
  Math_max (confidence * 0.7)%float 0%float.

(** The confidences reached from 0.6 by repeated approval, and what is asked
    of them: to lie between the auto-apply threshold and the cap, and to fall
    below the minimum threshold after two rejections. *)
Module Reached.

Definition reinforced (n : nat) : float := Nat.iter n applyReinforcement 0.6%float.

Definition holdsAt (c : float) : bool :=
  PrimFloat.leb 0.85 c && PrimFloat.leb c 0.95
  && PrimFloat.ltb (applyPenalty (applyPenalty c)) 0.5.

End Reached.

End Binary64.

(** ** Sorting, as [Array.prototype.sort] does with a comparator

    The sort is stable (ECMAScript 2019): elements that compare equal keep
    their order. A stable insertion sort gives the same array as any other
    stable sort under the same comparator. [cmp a b <= 0] keeps [a] first. *)
Module JsArr.

Fixpoint insertSorted {A : Type} (cmp : A -> A -> Q) (x : A) (l : list A) : list A :=
  match l with
  | [] => [x]
  | y :: r => if Qle_bool (cmp x y) 0 then x :: y :: r else y :: insertSorted cmp x r
  end.

Definition sort {A : Type} (cmp : A -> A -> Q) (l : list A) : list A :=
  foldr (insertSorted cmp) [] l.

(** The comparator [(a, b) => key(b) - key(a)], and the order it sorts into:
    largest key first. *)
Definition byKeyDesc {A : Type} (key : A -> Q) (a b : A) : Q := (key b - key a)%Q.

Definition descending {A : Type} (key : A -> Q) (a b : A) : Prop := (key b <= key a)%Q.

(** [l.includes(x)] on strings. *)
Definition includes (x : string) (l : list string) : bool :=
  existsb (String.eqb x) l.

(** The elements of [new Set(l)], in insertion order. *)
Fixpoint setOf (l : list string) (seen : list string) : list string :=
  match l with
  | [] => []
  | x :: r => if includes x seen then setOf r seen else x :: setOf r (x :: seen)
  end.

End JsArr.

(** ** Results of code that may throw *)

Inductive Result (A : Type) :=
| Ok (a : A)
| Err (msg : string).
Arguments Ok {A} a.
Arguments Err {A} msg.

#[global] Instance Result_ret : MRet Result := fun A a => Ok a.
#[global] Instance Result_bind : MBind Result := fun A B k r =>
  match r with
  | Ok a => k a
  | Err msg => Err msg
  end.

(** ** The repository ([repository/memory-repository.ts] over [database.ts]) *)

Record ProcessedInvoice := {
  pi_id : string;
  pi_vendorId : string;
  pi_invoiceNumber : string;
  pi_invoiceDate : Z;
  pi_processedAt : Z
}.

Record StoredAuditEntry := {
  sae_invoiceId : string;
  sae_entry : AuditEntry
}.

(** The five tables. The primary key of the audit trail, a random identifier
    drawn by [saveAuditEntry], is not kept. *)
Record Repository := {
  vendor_memories : list VendorMemory;
  correction_memories : list CorrectionMemory;
  resolution_memories : list ResolutionMemory;
  audit_trail : list StoredAuditEntry;
  processed_invoices : list ProcessedInvoice
}.

(** A sparse update ([Partial<...>]): [None] is a member left [undefined]. *)
Record MemoryUpdate := {
  upd_confidence : option Q;
  upd_applicationCount : option Z;
  upd_consecutiveRejections : option Z;
  upd_lastUsedAt : option Z;
  upd_isActive : option bool;
  upd_correctedValue : option string
}.

Definition noUpdate : MemoryUpdate := {|
  upd_confidence := None; upd_applicationCount := None;
  upd_consecutiveRejections := None; upd_lastUsedAt := None;
  upd_isActive := None; upd_correctedValue := None
|}.

Module Repo.

Definition msPerDay : Z := 86400000.

(** [buildUpdate] with [VENDOR_FIELDS], on the row it selects. *)
Definition setVendorColumns (u : MemoryUpdate) (r : VendorMemory) : VendorMemory := {|
  vm_id := vm_id r;
  vm_vendorId := vm_vendorId r;
  vm_vendorName := vm_vendorName r;
  vm_originalFieldName := vm_originalFieldName r;
  vm_normalizedFieldName := vm_normalizedFieldName r;
  vm_confidence := default (vm_confidence r) (upd_confidence u);
  vm_applicationCount := default (vm_applicationCount r) (upd_applicationCount u);
  vm_consecutiveRejections := default (vm_consecutiveRejections r) (upd_consecutiveRejections u);
  vm_createdAt := vm_createdAt r;
  vm_lastUsedAt := default (vm_lastUsedAt r) (upd_lastUsedAt u);
  vm_isActive := default (vm_isActive r) (upd_isActive u)
|}.

(** [buildUpdate] with [CORRECTION_FIELDS]. *)
Definition setCorrectionColumns (u : MemoryUpdate) (r : CorrectionMemory) : CorrectionMemory := {|
  cm_id := cm_id r;
  cm_vendorId := cm_vendorId r;
  cm_fieldName := cm_fieldName r;
  cm_originalValuePattern := cm_originalValuePattern r;
  cm_correctedValue := default (cm_correctedValue r) (upd_correctedValue u);
  cm_confidence := default (cm_confidence r) (upd_confidence u);
  cm_applicationCount := default (cm_applicationCount r) (upd_applicationCount u);
  cm_consecutiveRejections := default (cm_consecutiveRejections r) (upd_consecutiveRejections u);
  cm_createdAt := cm_createdAt r;
  cm_lastUsedAt := default (cm_lastUsedAt r) (upd_lastUsedAt u);
  cm_isActive := default (cm_isActive r) (upd_isActive u)
|}.

Definition withVendorMemories (rows : list VendorMemory) (db : Repository) : Repository := {|
  vendor_memories := rows;
  correction_memories := correction_memories db;
  resolution_memories := resolution_memories db;
  audit_trail := audit_trail db;
  processed_invoices := processed_invoices db
|}.

Definition withCorrectionMemories (rows : list CorrectionMemory) (db : Repository) : Repository := {|
  vendor_memories := vendor_memories db;
  correction_memories := rows;
  resolution_memories := resolution_memories db;
  audit_trail := audit_trail db;
  processed_invoices := processed_invoices db
|}.

(** [SELECT * FROM vendor_memories WHERE vendor_id = ? AND is_active = 1
    ORDER BY confidence DESC]; rows of equal confidence stay in table order. *)
Definition findVendorMemories (vendorId : string) (db : Repository) : list VendorMemory :=
  JsArr.sort (fun a b => (vm_confidence b - vm_confidence a)%Q)
    (List.filter (fun r => String.eqb (vm_vendorId r) vendorId && vm_isActive r)
            (vendor_memories db)).

Definition findVendorMemoryById (id : string) (db : Repository) : option VendorMemory :=
  List.find (fun r => String.eqb (vm_id r) id) (vendor_memories db).

(** [INSERT INTO vendor_memories]: the primary key and
    [UNIQUE(vendor_id, original_field_name)] are enforced. *)
Definition saveVendorMemory (m : VendorMemory) (db : Repository) : Result Repository :=
  if existsb (fun r => String.eqb (vm_id r) (vm_id m)) (vendor_memories db)
  then Err "UNIQUE constraint failed: vendor_memories.id"
  else if existsb (fun r => String.eqb (vm_vendorId r) (vm_vendorId m)
                            && String.eqb (vm_originalFieldName r) (vm_originalFieldName m))
                  (vendor_memories db)
  then Err "UNIQUE constraint failed: vendor_memories.vendor_id, vendor_memories.original_field_name"
  else Ok (withVendorMemories (vendor_memories db ++ [m]) db).

(** [UPDATE vendor_memories SET ... WHERE id = ?]. *)
Definition updateVendorMemory (id : string) (u : MemoryUpdate) (db : Repository) : Repository :=
  withVendorMemories
    (map (fun r => if String.eqb (vm_id r) id then setVendorColumns u r else r)
         (vendor_memories db)) db.

Definition vendorIdMatches (vendorId : option string) (r : CorrectionMemory) : bool :=
  match vendorId, cm_vendorId r with
  | _, None => true
  | Some v, Some w => String.eqb w v
  | None, Some _ => false
  end.

(** [vendor_id IS NULL] for a null vendor, [(vendor_id = ? OR vendor_id IS
    NULL)] otherwise; [field_name = ? AND is_active = 1 ORDER BY confidence DESC]. *)
Definition findCorrectionMemories (vendorId : option string) (fieldName : string)
    (db : Repository) : list CorrectionMemory :=
  JsArr.sort (fun a b => (cm_confidence b - cm_confidence a)%Q)
    (List.filter (fun r => vendorIdMatches vendorId r
                      && String.eqb (cm_fieldName r) fieldName && cm_isActive r)
            (correction_memories db)).

Definition findCorrectionMemoryById (id : string) (db : Repository) : option CorrectionMemory :=
  List.find (fun r => String.eqb (cm_id r) id) (correction_memories db).

Definition saveCorrectionMemory (m : CorrectionMemory) (db : Repository) : Result Repository :=
  if existsb (fun r => String.eqb (cm_id r) (cm_id m)) (correction_memories db)
  then Err "UNIQUE constraint failed: correction_memories.id"
  else Ok (withCorrectionMemories (correction_memories db ++ [m]) db).

Definition updateCorrectionMemory (id : string) (u : MemoryUpdate) (db : Repository) : Repository :=
  withCorrectionMemories
    (map (fun r => if String.eqb (cm_id r) id then setCorrectionColumns u r else r)
         (correction_memories db)) db.

(** [ORDER BY (approval_count + rejection_count) DESC]. *)
Definition findResolutionMemories (discrepancyType : string) (db : Repository)
    : list ResolutionMemory :=
  JsArr.sort (fun a b => (inject_Z (rm_approvalCount b + rm_rejectionCount b)
                          - inject_Z (rm_approvalCount a + rm_rejectionCount a))%Q)
    (List.filter (fun r => String.eqb (rm_discrepancyType r) discrepancyType && rm_isActive r)
            (resolution_memories db)).

Definition saveAuditEntry (e : StoredAuditEntry) (db : Repository) : Repository := {|
  vendor_memories := vendor_memories db;
  correction_memories := correction_memories db;
  resolution_memories := resolution_memories db;
  audit_trail := audit_trail db ++ [e];
  processed_invoices := processed_invoices db
|}.

(** The calendar day (UTC) of an instant: what [toISOString().split('T')[0]]
    and SQLite's [date()] of the stored ISO text both denote. *)
Definition dayOf (ms : Z) : Z := (ms / msPerDay)%Z.

(** [vendor_id = ? AND invoice_number = ? AND date(invoice_date) BETWEEN
    date(start) AND date(end)], with [start] and [end] a week around [date]. *)
Definition findPotentialDuplicates (vendorId invoiceNumber : string) (date : Z)
    (db : Repository) : list string :=
  let week := (7 * msPerDay)%Z in
  let start := dayOf (date - week) in
  let end_ := dayOf (date + week) in
  map pi_id
    (List.filter (fun r => String.eqb (pi_vendorId r) vendorId
                      && String.eqb (pi_invoiceNumber r) invoiceNumber
                      && (start <=? dayOf (pi_invoiceDate r))%Z
                      && (dayOf (pi_invoiceDate r) <=? end_)%Z)
            (processed_invoices db)).

(** [INSERT OR REPLACE INTO processed_invoices]: a row of the same [id] is
    replaced. *)
Definition saveProcessedInvoice (id vendorId invoiceNumber : string) (invoiceDate now : Z)
    (db : Repository) : Repository := {|
  vendor_memories := vendor_memories db;
  correction_memories := correction_memories db;
  resolution_memories := resolution_memories db;
  audit_trail := audit_trail db;
  processed_invoices :=
    List.filter (fun r => negb (String.eqb (pi_id r) id)) (processed_invoices db)
    ++ [{| pi_id := id; pi_vendorId := vendorId; pi_invoiceNumber := invoiceNumber;
           pi_invoiceDate := invoiceDate; pi_processedAt := now |}]
|}.

End Repo.

(** ** Regular expressions

    The expressions of the services are kept as syntax and run by a
    backtracking matcher with the priorities of ECMAScript's: the left
    alternative first, as many iterations of a star as possible first. A
    match is searched from the leftmost start on. *)
Module Regex.

Inductive t :=
| Chr (p : ascii -> bool)
| Eps
| Seq (r1 r2 : t)
| Alt (r1 r2 : t)
| Star (r : t)
| Group (i : nat) (r : t)
| WordBoundary
| Start
| Stop.

(** Where a match stands: the character before, the text ahead, and the
    captures so far (the latest first). *)
Record state := {
  prev : option ascii;
  rest : string;
  caps : list (nat * string)
}.

Definition Cont := state -> option state.

Definition isWordOpt (c : option ascii) : bool :=
  match c with
  | Some a => Js.isWord a
  | None => false
  end.

Definition headOf (s : string) : option ascii :=
  match s with
  | String c _ => Some c
  | EmptyString => None
  end.

(** The text consumed between two states of one match. *)
Definition consumed (before after : state) : string :=
  String.substring 0 (String.length (rest before) - String.length (rest after)) (rest before).

(** A star: an iteration must consume a character; [n] bounds the number of
    iterations by the length of the text ahead. *)
Fixpoint starLoop (body : state -> Cont -> option state) (n : nat) (st : state) (k : Cont)
    : option state :=
  match n with
  | O => k st
  | S n' =>
      match body st (fun st' =>
              if (String.length (rest st') <? String.length (rest st))%nat
              then starLoop body n' st' k else None) with
      | Some r => Some r
      | None => k st
      end
  end.

Fixpoint run (r : t) (st : state) (k : Cont) : option state :=
  match r with
  | Chr p =>
      match rest st with
      | String c s' =>
          if p c then k {| prev := Some c; rest := s'; caps := caps st |} else None
      | EmptyString => None
      end
  | Eps => k st
  | Seq a b => run a st (fun st' => run b st' k)
  | Alt a b =>
      match run a st k with
      | Some x => Some x
      | None => run b st k
      end
  | Star a => starLoop (run a) (String.length (rest st)) st k
  | Group i a =>
      run a st (fun st' =>
        k {| prev := prev st'; rest := rest st'; caps := (i, consumed st st') :: caps st' |})
  | WordBoundary =>
      if xorb (isWordOpt (prev st)) (isWordOpt (headOf (rest st))) then k st else None
  | Start =>
      match prev st with
      | None => k st
      | Some _ => None
      end
  | Stop =>
      match rest st with
      | EmptyString => k st
      | String _ _ => None
      end
  end.

(** [r.exec(s)] from the start [s] (with [p] the character before it): the
    captures of the leftmost match; group 0 is the whole match. *)
Fixpoint searchFrom (r : t) (p : option ascii) (s : string) : option (list (nat * string)) :=
  let st := {| prev := p; rest := s; caps := [] |} in
  match run r st Some with
  | Some st' => Some ((0%nat, consumed st st') :: caps st')
  | None =>
      match s with
      | EmptyString => None
      | String c s' => searchFrom r (Some c) s'
      end
  end.

Definition exec (r : t) (s : string) : option (list (nat * string)) := searchFrom r None s.

(** [r.test(s)]. *)
Definition test (r : t) (s : string) : bool :=
  match exec r s with
  | Some _ => true
  | None => false
  end.

(** [m?.[i]]: group [i] of a match, [None] when there is no match or the
    group took no part in it. *)
Definition group (i : nat) (m : option (list (nat * string))) : option string :=
  match m with
  | Some cs => snd <$> List.find (fun c => (fst c =? i)%nat) cs
  | None => None
  end.

(** Building blocks. [ci] is the [i] flag. *)
Definition chr (ci : bool) (c : ascii) : t :=
  Chr (fun x => if ci then Ascii.eqb (Js.lowerChar x) (Js.lowerChar c) else Ascii.eqb x c).

Fixpoint lit (ci : bool) (s : string) : t :=
  match s with
  | EmptyString => Eps
  | String c EmptyString => chr ci c
  | String c r => Seq (chr ci c) (lit ci r)
  end.

Fixpoint seqs (rs : list t) : t :=
  match rs with
  | [] => Eps
  | [r] => r
  | r :: rest => Seq r (seqs rest)
  end.

Fixpoint alts (rs : list t) : t :=
  match rs with
  | [] => Chr (fun _ => false)
  | [r] => r
  | r :: rest => Alt r (alts rest)
  end.

Definition plus (r : t) : t := Seq r (Star r).
Definition opt (r : t) : t := Alt r Eps.
Fixpoint times (n : nat) (r : t) : t :=
  match n with
  | O => Eps
  | S O => r
  | S k => Seq r (times k r)
  end.

Definition digit : t := Chr Js.isDigit.
Definition space : t := Chr Js.isSpace.
(** [[...]] of the characters of [s], with [\s] added when [ws]. *)
Definition oneOf (s : string) (ws : bool) : t :=
  Chr (fun x => Js.includes (String x EmptyString) s || (ws && Js.isSpace x)).
(** [[A-Z]]; under the [i] flag a small letter matches too. *)
Definition upperAZ (ci : bool) : t :=
  Chr (fun x => Js.isUpper x || (ci && Js.isLower x)).
(** [[^\n]]. *)
Definition notNewline : t := Chr (fun x => negb (Js.code x =? 10)%nat).

End Regex.

(** ** Recall ([services/recall.ts]) *)

Record RecalledMemories := {
  vendorMemories : list VendorMemory;
  correctionMemories : list CorrectionMemory;
  resolutionMemories : list ResolutionMemory
}.

Record RecallResult := {
  rr_memories : RecalledMemories;
  rr_auditEntry : AuditEntry
}.

(** The arrow of the message templates (U+2192), in UTF-8. *)
Definition arrow : string :=
  String (ascii_of_nat 226) (String (ascii_of_nat 134) (String (ascii_of_nat 146) EmptyString)).

Module RecallService.

(** [memories.filter(m => m.confidence >= minimumThreshold)
             .sort((a, b) => b.confidence - a.confidence)]. *)
Definition filterByConfidence {T : Type} (confidence : T -> Q) (memories : list T) : list T :=
  JsArr.sort (fun a b => (confidence b - confidence a)%Q)
    (List.filter (fun m => JsNum.geb (confidence m) (minimumThreshold CONFIDENCE_CONFIG)) memories).

(** [if (!seen.has(m.id)) { seen.add(m.id); all.push(m); }]. *)
Definition pushUnseen {T : Type} (id : T -> string) (acc : list string * list T) (m : T)
    : list string * list T :=
  if JsArr.includes (id m) (fst acc) then acc else (id m :: fst acc, snd acc ++ [m]).

Definition recallCorrectionMemories (vendorId : string) (fieldNames : list string)
    (db : Repository) : list CorrectionMemory :=
  let all :=
    fold_left (fun acc field =>
        fold_left (pushUnseen cm_id)
          (Repo.findCorrectionMemories (Some vendorId) field db
           ++ Repo.findCorrectionMemories None field db) acc)
      fieldNames ([], []) in
  filterByConfidence cm_confidence (snd all).

(** The keyword table of [extractDiscrepancyTypes], in the order of its keys. *)
Definition discrepancyMap : list (string * string) :=
  [ ("quantity", "quantity_mismatch"); ("qty", "quantity_mismatch");
    ("price", "price_mismatch"); ("amount", "price_mismatch");
    ("total", "price_mismatch"); ("date", "date_mismatch");
    ("tax", "tax_mismatch"); ("vat", "tax_mismatch"); ("mwst", "tax_mismatch");
    ("currency", "currency_mismatch"); ("po", "po_mismatch"); ("purchase", "po_mismatch") ]%string.

Definition extractDiscrepancyTypes (invoice : Invoice) : list string :=
  fold_left (fun types field =>
      let lower := Js.toLowerCase field in
      fold_left (fun types kt =>
          if Js.includes (fst kt) lower && negb (JsArr.includes (snd kt) types)
          then types ++ [snd kt] else types)
        discrepancyMap types)
    (map fst (inv_fields invoice)) [].

Definition outcomes (m : ResolutionMemory) : Z := (rm_approvalCount m + rm_rejectionCount m)%Z.

Definition approvalRate (m : ResolutionMemory) : Q :=
  (inject_Z (rm_approvalCount m) / inject_Z (outcomes m))%Q.

Definition recallResolutionMemories (invoice : Invoice) (db : Repository)
    : list ResolutionMemory :=
  let types := extractDiscrepancyTypes invoice in
  let all :=
    fold_left (fun acc type =>
        fold_left (pushUnseen rm_id) (Repo.findResolutionMemories type db) acc)
      types ([], []) in
  JsArr.sort (fun a b =>
      let aRate := approvalRate a in
      let bRate := approvalRate b in
      if negb (JsNum.eqb bRate aRate) then (bRate - aRate)%Q
      else inject_Z (outcomes b - outcomes a))
    (List.filter (fun m => (0 <? outcomes m)%Z) (snd all)).

Definition buildAuditDetails (memories : RecalledMemories) (invoice : Invoice) : string :=
  let v := vendorMemories memories in
  let c := correctionMemories memories in
  let r := resolutionMemories memories in
  let total := (length v + length c + length r)%nat in
  if (total =? 0)%nat
  then "Recalled 0 memories for invoice " +:+ inv_id invoice +:+ " from vendor "
       +:+ inv_vendorName invoice +:+ ". No relevant memories found."
  else
    let parts :=
      ["Recalled " +:+ pretty total +:+ " memories for invoice " +:+ inv_id invoice
       +:+ " from vendor " +:+ inv_vendorName invoice +:+ ":"]
      ++ match v with
         | top :: _ =>
             [pretty (length v) +:+ " vendor memories (top: " +:+ vm_originalFieldName top
              +:+ " " +:+ arrow +:+ " " +:+ vm_normalizedFieldName top +:+ ", conf: "
              +:+ JsNum.toFixed 2 (vm_confidence top) +:+ ")"]
         | [] => []
         end
      ++ match c with
         | top :: _ =>
             [pretty (length c) +:+ " correction memories (top: " +:+ cm_fieldName top
              +:+ ", conf: " +:+ JsNum.toFixed 2 (cm_confidence top) +:+ ")"]
         | [] => []
         end
      ++ match r with
         | top :: _ =>
             [pretty (length r) +:+ " resolution memories (top: " +:+ rm_discrepancyType top
              +:+ ", approval rate: " +:+ JsNum.toFixed 0 (approvalRate top * 100)%Q +:+ "%)"]
         | [] => []
         end in
    Js.join " " parts.

Definition recallMemories (invoice : Invoice) (now : Z) (db : Repository) : RecallResult :=
  let vendorId := normalizeVendorName (inv_vendorId invoice) in
  let fieldNames := map fst (inv_fields invoice) in
  let memories := {|
    vendorMemories := filterByConfidence vm_confidence (Repo.findVendorMemories vendorId db);
    correctionMemories := recallCorrectionMemories vendorId fieldNames db;
    resolutionMemories := recallResolutionMemories invoice db
  |} in
  {| rr_memories := memories;
     rr_auditEntry := {| ae_step := StepRecall; ae_timestamp := now;
                         ae_details := buildAuditDetails memories invoice |} |}.

End RecallService.

(** ** Apply ([services/apply.ts]) *)

Inductive MemoryType := vendor | correction | resolution.

Definition memoryTypeName (t : MemoryType) : string :=
  match t with
  | vendor => "vendor"
  | correction => "correction"
  | resolution => "resolution"
  end.

(** [extractedValue] only ever holds a string; [None] is [undefined]. *)
Record AppliedMemory := {
  am_memoryId : string;
  am_memoryType : MemoryType;
  am_fieldName : string;
  am_action : ThresholdAction;
  am_confidence : Q;
  am_extractedValue : option string
}.

Record ProposedCorrection := {
  pc_fieldName : string;
  pc_currentValue : Value;
  pc_suggestedValue : Value;
  pc_memoryId : string;
  pc_confidence : Q;
  pc_reasoning : string
}.

Inductive PatternType := tax_inclusive | skonto | currency_recovery | sku_mapping | po_match.

Definition patternTypeName (t : PatternType) : string :=
  match t with
  | tax_inclusive => "tax_inclusive"
  | skonto => "skonto"
  | currency_recovery => "currency_recovery"
  | sku_mapping => "sku_mapping"
  | po_match => "po_match"
  end.

(** The [details] payloads the services build, one shape per pattern type. *)
Inductive PatternDetails :=
| DetRecovered (recovered : string)
| DetPercentage (percentage : string)
| DetSuggestedSku (suggestedSku : string)
| DetTextIndicator (textIndicator : bool)
| DetPoMatch (matchedPO : string) (confidence : Q) (reasons : list string).

Record DetectedPattern := {
  dp_type : PatternType;
  dp_details : PatternDetails;
  dp_fieldName : option string;
  dp_suggestedAction : option string
}.

Record AppliedResult := {
  normalizedInvoice : gmap string Value;
  appliedMemories : list AppliedMemory;
  proposedCorrections : list ProposedCorrection
}.

Record ApplyResult := {
  ar_appliedResult : AppliedResult;
  ar_detectedPatterns : list DetectedPattern;
  ar_auditEntry : AuditEntry
}.

(** [record[key]]: a missing key reads [undefined]. *)
Definition readKey (record : gmap string Value) (key : string) : Value :=
  default VUndefined (record !! key).

Module ApplyService.

Import Regex.

(** [FIELD_PATTERNS[originalField] || []]. *)
Definition FIELD_PATTERNS (originalField : string) : list Regex.t :=
  if String.eqb originalField "Leistungsdatum" then
    [ seqs [lit true "Leistungsdatum"; Star (oneOf ":" true);
            Group 1 (seqs [times 2 digit; chr true "."; times 2 digit; chr true "."; times 4 digit])];
      seqs [lit true "Leistungsdatum"; Star (oneOf ":" true);
            Group 1 (seqs [times 4 digit; chr true "-"; times 2 digit; chr true "-"; times 2 digit])] ]
  else if String.eqb originalField "Rechnungsdatum" then
    [ seqs [lit true "Rechnungsdatum"; Star (oneOf ":" true);
            Group 1 (seqs [times 2 digit; chr true "."; times 2 digit; chr true "."; times 4 digit])] ]
  else if String.eqb originalField "Bestellnummer" then
    [ seqs [lit true "Bestellnr"; opt (oneOf ".:" false); Star space;
            Group 1 (seqs [lit true "PO-"; upperAZ true; chr true "-"; plus digit])];
      seqs [lit true "PO"; Star (oneOf ":#" true);
            Group 1 (seqs [lit true "PO-"; upperAZ true; chr true "-"; plus digit])] ]
  else [].

(** [/^(\d{2})\.(\d{2})\.(\d{4})$/]. *)
Definition dottedDate : Regex.t :=
  seqs [Start; Group 1 (times 2 digit); chr false "."; Group 2 (times 2 digit);
        chr false "."; Group 3 (times 4 digit); Stop].

Definition normalizeValue (value fieldName : string) : string :=
  let m := if Js.includes "date" (Js.toLowerCase fieldName) then exec dottedDate value else None in
  match group 1 m, group 2 m, group 3 m with
  | Some d, Some mo, Some y => y +:+ "-" +:+ mo +:+ "-" +:+ d
  | _, _, _ => Js.trim value
  end.

(** The fallback pattern: the label, then [[:\s]*([^\n]+)], ignoring case. *)
Definition genericPattern (originalField : string) : Regex.t :=
  seqs [lit true originalField; Star (oneOf ":" true); Group 1 (plus notNewline)].

Fixpoint firstCapture (patterns : list Regex.t) (rawText : string) : option string :=
  match patterns with
  | [] => None
  | p :: ps =>
      let c := group 1 (exec p rawText) in
      if JsVal.truthyStr c then c else firstCapture ps rawText
  end.

Definition extractValue (rawText : option string) (originalField normalizedField : string)
    : option string :=
  match rawText with
  | None => None
  | Some text =>
      if String.eqb text "" then None
      else match firstCapture (FIELD_PATTERNS originalField) text with
           | Some c => Some (normalizeValue c normalizedField)
           | None =>
               let g := group 1 (exec (genericPattern originalField) text) in
               match g with
               | Some c => if JsVal.truthyStr g then Some (normalizeValue (Js.trim c) normalizedField)
                           else None
               | None => None
               end
           end
  end.

(** One turn of the loop over the vendor memories. *)
Definition applyVendorMemory (invoice : Invoice) (st : AppliedResult) (vm : VendorMemory)
    : AppliedResult :=
  let action := mapConfidenceToAction (vm_confidence vm) in
  let field := vm_normalizedFieldName vm in
  let current := readKey (normalizedInvoice st) field in
  let extracted :=
    if JsVal.isNullish current
    then extractValue (inv_rawText invoice) (vm_originalFieldName vm) field
    else None in
  let trace := {|
    am_memoryId := vm_id vm; am_memoryType := vendor; am_fieldName := field;
    am_action := action; am_confidence := vm_confidence vm; am_extractedValue := extracted |} in
  match extracted with
  | Some e =>
      if JsVal.truthyStr extracted then
        match action with
        | auto_applied =>
            {| normalizedInvoice := <[field := VString e]> (normalizedInvoice st);
               appliedMemories := appliedMemories st ++ [trace];
               proposedCorrections := proposedCorrections st |}
        | _ =>
            {| normalizedInvoice := normalizedInvoice st;
               appliedMemories := appliedMemories st ++ [trace];
               proposedCorrections := proposedCorrections st ++ [{|
                 pc_fieldName := field; pc_currentValue := current;
                 pc_suggestedValue := VString e; pc_memoryId := vm_id vm;
                 pc_confidence := vm_confidence vm;
                 pc_reasoning :=
                   (match action with flagged => "[LOW CONFIDENCE] " | _ => "" end)
                   +:+ "Vendor memory: " +:+ Js.dquote +:+ vm_originalFieldName vm +:+ Js.dquote
                   +:+ " " +:+ arrow +:+ " " +:+ Js.dquote +:+ field +:+ Js.dquote
                   +:+ " extracted " +:+ Js.dquote +:+ e +:+ Js.dquote |}] |}
        end
      else
        {| normalizedInvoice := normalizedInvoice st;
           appliedMemories := appliedMemories st ++ [trace];
           proposedCorrections := proposedCorrections st |}
  | None =>
      {| normalizedInvoice := normalizedInvoice st;
         appliedMemories := appliedMemories st ++ [trace];
         proposedCorrections := proposedCorrections st |}
  end.

(** One turn of the loop over the correction memories. *)
Definition applyCorrectionMemory (st : AppliedResult) (cm : CorrectionMemory) : AppliedResult :=
  let action := mapConfidenceToAction (cm_confidence cm) in
  let trace := {|
    am_memoryId := cm_id cm; am_memoryType := correction; am_fieldName := cm_fieldName cm;
    am_action := action; am_confidence := cm_confidence cm;
    am_extractedValue := Some (cm_correctedValue cm) |} in
  match action with
  | auto_applied =>
      {| normalizedInvoice := <[cm_fieldName cm := VString (cm_correctedValue cm)]> (normalizedInvoice st);
         appliedMemories := appliedMemories st ++ [trace];
         proposedCorrections := proposedCorrections st |}
  | suggested =>
      {| normalizedInvoice := normalizedInvoice st;
         appliedMemories := appliedMemories st ++ [trace];
         proposedCorrections := proposedCorrections st ++ [{|
           pc_fieldName := cm_fieldName cm;
           pc_currentValue := readKey (normalizedInvoice st) (cm_fieldName cm);
           pc_suggestedValue := VString (cm_correctedValue cm);
           pc_memoryId := cm_id cm; pc_confidence := cm_confidence cm;
           pc_reasoning := "Correction memory suggests " +:+ Js.dquote
                           +:+ cm_correctedValue cm +:+ Js.dquote |}] |}
  | flagged =>
      {| normalizedInvoice := normalizedInvoice st;
         appliedMemories := appliedMemories st ++ [trace];
         proposedCorrections := proposedCorrections st |}
  end.

(** The four regular expressions of [detectPatterns]. *)
Definition currencyRegex : Regex.t :=
  seqs [WordBoundary;
        Group 1 (alts [lit true "eur"; lit true "usd"; lit true "chf"; lit true "gbp"]);
        WordBoundary].

Definition skontoTermsRegex : Regex.t :=
  seqs [plus digit; chr true "%"; Star space;
        Group 1 (alts [lit true "bei"; lit true "within"; lit true "innerhalb"])].

Definition skontoPercentRegex : Regex.t :=
  seqs [Group 1 (Seq (plus digit) (opt (Seq (oneOf ".," false) (plus digit))));
        Star space; chr true "%"; Star space;
        alts [lit true "skonto"; lit true "bei"; lit true "within"; lit true "innerhalb"]].

Definition freightRegex : Regex.t :=
  alts [lit true "seefracht"; lit true "shipping"; lit true "freight"].

Definition taxInclusiveRegex : Regex.t :=
  alts [lit false "incl. vat"; lit false "mwst. inkl"; lit false "inkl. mwst"].

(** The state [detectPatterns] works on: the patterns pushed so far and the
    normalized record. *)
Definition PatternState : Type := list DetectedPattern * gmap string Value.

(** The block [//currency recovery]. *)
Definition recoverCurrency (text : string) (st : PatternState) : PatternState :=
  if negb (JsVal.truthy (readKey (snd st) "currency")) then
    let m := group 1 (exec currencyRegex text) in
    match m with
    | Some c =>
        if JsVal.truthyStr m then
          let currency := Js.toUpperCase c in
          (fst st ++ [{| dp_type := currency_recovery; dp_details := DetRecovered currency;
                         dp_fieldName := Some "currency"%string;
                         dp_suggestedAction := Some ("Recovered currency " +:+ currency) |}],
           <["currency"%string := VString currency]> (snd st))
        else st
    | None => st
    end
  else st.

(** The block [//skonto detection]. *)
Definition detectSkonto (text : string) (st : PatternState) : PatternState :=
  if Js.includes "skonto" text || test skontoTermsRegex text then
    let m := group 1 (exec skontoPercentRegex text) in
    (fst st ++ [{| dp_type := skonto;
                   dp_details := DetPercentage (if JsVal.truthyStr m then default "" m else "unknown");
                   dp_fieldName := None;
                   dp_suggestedAction :=
                     Some ("Skonto terms detected: "
                           +:+ (if JsVal.truthyStr m then default "" m else "?") +:+ "%") |}],
     snd st)
  else st.

(** The block [//SKU mapping]. *)
Definition detectSkuMapping (text : string) (st : PatternState) : PatternState :=
  if test freightRegex text then
    (fst st ++ [{| dp_type := sku_mapping; dp_details := DetSuggestedSku "FREIGHT";
                   dp_fieldName := Some "sku"%string;
                   dp_suggestedAction :=
                     Some ("SKU mapping: Seefracht/Shipping " +:+ arrow +:+ " FREIGHT") |}],
     snd st)
  else st.

(** The block [//tax inclusive]. *)
Definition detectTaxInclusive (text : string) (st : PatternState) : PatternState :=
  if test taxInclusiveRegex text then
    (fst st ++ [{| dp_type := tax_inclusive; dp_details := DetTextIndicator true;
                   dp_fieldName := None;
                   dp_suggestedAction :=
                     Some "Tax inclusive indicator found - verify amounts"%string |}],
     snd st)
  else st.

(** [invoice.rawText?.toLowerCase() || '']. *)
Definition loweredText (invoice : Invoice) : string :=
  match inv_rawText invoice with
  | Some t => Js.toLowerCase t
  | None => ""
  end.

Definition detectPatterns (invoice : Invoice) (st : PatternState) : PatternState :=
  let text := loweredText invoice in
  detectTaxInclusive text (detectSkuMapping text (detectSkonto text (recoverCurrency text st))).

(** [Object.fromEntries(Object.entries(invoice.fields).map(([k, v]) => [k, v.value]))]. *)
Definition fieldValues (invoice : Invoice) : gmap string Value :=
  fold_left (fun record kv => <[fst kv := f_value (snd kv)]> record) (inv_fields invoice) ∅.

(** The record, traces and proposals after the two loops over the memories. *)
Definition applyRecalled (invoice : Invoice) (memories : RecalledMemories) : AppliedResult :=
  fold_left applyCorrectionMemory (correctionMemories memories)
    (fold_left (applyVendorMemory invoice) (vendorMemories memories)
       {| normalizedInvoice := fieldValues invoice; appliedMemories := [];
          proposedCorrections := [] |}).

Definition applyMemories (invoice : Invoice) (memories : RecalledMemories) (now : Z)
    : ApplyResult :=
  let st := applyRecalled invoice memories in
  let detected := detectPatterns invoice ([], normalizedInvoice st) in
  let patterns := fst detected in
  {| ar_appliedResult := {| normalizedInvoice := snd detected;
                            appliedMemories := appliedMemories st;
                            proposedCorrections := proposedCorrections st |};
     ar_detectedPatterns := patterns;
     ar_auditEntry := {|
       ae_step := StepApply; ae_timestamp := now;
       ae_details :=
         "Applied " +:+ pretty (length (appliedMemories st)) +:+ " memories, "
         +:+ pretty (length (proposedCorrections st)) +:+ " corrections proposed"
         +:+ (match patterns with
              | [] => ""
              | _ => ", patterns: " +:+ Js.join ", " (map (fun p => patternTypeName (dp_type p)) patterns)
              end) |} |}.

End ApplyService.

(** ** Purchase-order matching ([POMatchingService] of [services/apply.ts]) *)

Record POLineItem := {
  poi_sku : string;
  poi_qty : Q;
  poi_unitPrice : Q
}.

Record PurchaseOrder := {
  po_poNumber : string;
  po_vendor : string;
  po_date : Z;
  po_lineItems : list POLineItem
}.

Record POMatchResult := {
  pm_matchedPO : option PurchaseOrder;
  pm_confidence : Q;
  pm_matchReasons : list string
}.

Module POMatchingService.

(** [invoice.fields['lineItems']?.value], read as the array its type
    announces; any other value counts as no line items. *)
Definition lineItemsOf (fields : list (string * InvoiceField)) : option (list LineItem) :=
  match List.find (fun kv => String.eqb (fst kv) "lineItems") fields with
  | Some kv =>
      match f_value (snd kv) with
      | VLineItems items => Some items
      | _ => None
      end
  | None => None
  end.

(** [new Set(lineItems.map(i => i.sku).filter(Boolean))]. *)
Definition invoiceSkus (lineItems : list LineItem) : list string :=
  JsArr.setOf (omap (fun i => match li_sku i with
                              | Some s => if String.eqb s "" then None else Some s
                              | None => None
                              end) lineItems) [].

Definition orderSkus (po : PurchaseOrder) : list string :=
  JsArr.setOf (map poi_sku (po_lineItems po)) [].

(** [days]: the distance of the two dates in days. *)
Definition daysApart (invoiceDate : Z) (po : PurchaseOrder) : Q :=
  (inject_Z (Z.abs (invoiceDate - po_date po)) / inject_Z Repo.msPerDay)%Q.

(** One turn of [for (const inv of lineItems)]. *)
Definition addQtyMatch (po : PurchaseOrder) (acc : Q * list string) (inv : LineItem)
    : Q * list string :=
  match li_sku inv with
  | Some sku =>
      match List.find (fun p => String.eqb (poi_sku p) sku) (po_lineItems po) with
      | Some poItem =>
          if JsNum.eqb (poi_qty poItem) (li_qty inv)
          then ((fst acc + 0.1)%Q, snd acc ++ ["Qty match: " +:+ sku])
          else acc
      | None => acc
      end
  | None => acc
  end.

(** The body of the loop for an order of the invoice's vendor: its score and
    its reasons. *)
Definition scoreOrder (invoiceDate : Z) (lineItems : option (list LineItem))
    (po : PurchaseOrder) : Q * list string :=
  let days := daysApart invoiceDate po in
  let dated :=
    if Qle_bool days 30
    then ((0.3 + 0.2 * (1 - days / 30))%Q,
          ["Vendor match"; "Date within " +:+ pretty (JsNum.round days) +:+ " days"])
    else (0.3%Q, ["Vendor match"%string]) in
  match lineItems with
  | Some ((_ :: _) as items) =>
      let invSkus := invoiceSkus items in
      let poSkus := orderSkus po in
      let matched := List.filter (fun s => JsArr.includes s poSkus) invSkus in
      let coded :=
        match matched with
        | [] => dated
        | _ => ((fst dated + 0.3 * inject_Z (Z.of_nat (length matched))
                             / inject_Z (Z.of_nat (Nat.max (length invSkus) (length poSkus))))%Q,
                snd dated ++ ["SKU: " +:+ Js.join ", " matched])
        end in
      fold_left (addQtyMatch po) items coded
  | _ => dated
  end.

(** [po.vendor.toLowerCase().trim() !== vendor], negated. *)
Definition sameVendor (vendor : string) (po : PurchaseOrder) : bool :=
  String.eqb (Js.trim (Js.toLowerCase (po_vendor po))) vendor.

(** The loop's variables [best], [bestScore] and [reasons]. *)
Definition Best : Type := option PurchaseOrder * Q * list string.

Definition considerOrder (vendor : string) (invoiceDate : Z)
    (lineItems : option (list LineItem)) (acc : Best) (po : PurchaseOrder) : Best :=
  if sameVendor vendor po then
    let sr := scoreOrder invoiceDate lineItems po in
    if JsNum.gtb (fst sr) (snd (fst acc)) then (Some po, fst sr, snd sr) else acc
  else acc.

Definition findMatchingPO (vendorId : string) (invoiceDate : Z)
    (fields : list (string * InvoiceField)) (orders : list PurchaseOrder) : POMatchResult :=
  let vendor := Js.trim (Js.toLowerCase vendorId) in
  let lineItems := lineItemsOf fields in
  let final := fold_left (considerOrder vendor invoiceDate lineItems) orders (None, 0%Q, []) in
  {| pm_matchedPO := fst (fst final);
     pm_confidence := Qmin (snd (fst final)) 1;
     pm_matchReasons := snd final |}.

End POMatchingService.

(** ** Purchase-order matching on doubles

    The score of an order is a sum of doubles, and which order
    [findMatchingPO] keeps depends on how that sum rounds: two orders whose
    exact scores are equal can compare either way. This module repeats
    [findMatchingPO], operation for operation and in the order the source
    evaluates them, on the kernel's IEEE-754 doubles. The time value of a
    date and the size of a set are integers, turned into the double nearest
    to them (for a date and a size, the integer itself); quantities are data
    and are compared as the values they are. The value of the [lineItems]
    field is read as it is, of type [unknown]: a text that is not empty has a
    [length] and no [map], and the block that reads the line items throws. *)

Record POMatchResult64 := {
  pm64_matchedPO : option PurchaseOrder;
  pm64_confidence : float;
  pm64_matchReasons : list string
}.

Module POMatchingService64.

(** The double nearest to an integer, a tie going to the even one. *)
Definition ofZ (z : Z) : float := SF2Prim (binary_normalize prec emax z 0 false).

Definition ofNat (n : nat) : float := ofZ (Z.of_nat n).

(** The rational a finite double stands for. *)
Definition toQ (x : float) : Q :=
  match Prim2SF x with
  | S754_finite s m e => ((if s then -1 else 1) * inject_Z (Z.pos m) * 2 ^ e)%Q
  | _ => 0%Q
  end.

(** [Math.round] of a finite double: the nearest integer, a tie going up. *)
Definition Math_round (x : float) : Z := JsNum.round (toQ x).

(** [invoice.fields['lineItems']?.value]. *)
Definition lineItemsValue (fields : list (string * InvoiceField)) : Value :=
  match List.find (fun kv => String.eqb (fst kv) "lineItems") fields with
  | Some kv => f_value (snd kv)
  | None => VUndefined
  end.

(** [days = Math.abs(invoice.invoiceDate.getTime() - po.date.getTime()) / 864e5]. *)
Definition daysApart (invoiceDate : Z) (po : PurchaseOrder) : float :=
  (PrimFloat.abs (ofZ invoiceDate - ofZ (po_date po)) / 864e5)%float.

(** One turn of [for (const inv of lineItems)]. *)
Definition addQtyMatch (po : PurchaseOrder) (acc : float * list string) (inv : LineItem)
    : float * list string :=
  match li_sku inv with
  | Some sku =>
      match List.find (fun p => String.eqb (poi_sku p) sku) (po_lineItems po) with
      | Some poItem =>
          if JsNum.eqb (poi_qty poItem) (li_qty inv)
          then ((fst acc + 0.1)%float, snd acc ++ ["Qty match: " +:+ sku])
          else acc
      | None => acc
      end
  | None => acc
  end.

(** The body of the loop for an order of the invoice's vendor: its score and
    its reasons. [lineItems?.length] is truthy for an array and for a text
    that are not empty; on the text, [lineItems.map] is not a function. *)
Definition scoreOrder (invoiceDate : Z) (lineItems : Value) (po : PurchaseOrder)
    : Result (float * list string) :=
  let days := daysApart invoiceDate po in
  let dated :=
    if (days <=? 30)%float
    then ((0.3 + 0.2 * (1 - days / 30))%float,
          ["Vendor match"; "Date within " +:+ pretty (Math_round days) +:+ " days"])
    else (0.3%float, ["Vendor match"%string]) in
  match lineItems with
  | VLineItems ((_ :: _) as items) =>
      let invSkus := POMatchingService.invoiceSkus items in
      let poSkus := POMatchingService.orderSkus po in
      let matched := List.filter (fun s => JsArr.includes s poSkus) invSkus in
      let coded :=
        match matched with
        | [] => dated
        | _ => ((fst dated + 0.3 * ofNat (length matched)
                             / Binary64.Math_max (ofNat (length invSkus))
                                                 (ofNat (length poSkus)))%float,
                snd dated ++ ["SKU: " +:+ Js.join ", " matched])
        end in
      Ok (fold_left (addQtyMatch po) items coded)
  | VString (String _ _) => Err "TypeError: lineItems.map is not a function"
  | _ => Ok dated
  end.

(** The loop's variables [best], [bestScore] and [reasons]. *)
Definition Best : Type := option PurchaseOrder * float * list string.

(** One turn of [for (const po of this.orders)]; the test is
    [score > bestScore]. Once a turn has thrown, no other is run. *)
Definition considerOrder (vendor : string) (invoiceDate : Z) (lineItems : Value)
    (acc : Result Best) (po : PurchaseOrder) : Result Best :=
  match acc with
  | Ok kept =>
      if POMatchingService.sameVendor vendor po then
        match scoreOrder invoiceDate lineItems po with
        | Ok sr =>
            Ok (if (snd (fst kept) <? fst sr)%float then (Some po, fst sr, snd sr) else kept)
        | Err msg => Err msg
        end
      else Ok kept
  | Err msg => Err msg
  end.

Definition findMatchingPO (vendorId : string) (invoiceDate : Z)
    (fields : list (string * InvoiceField)) (orders : list PurchaseOrder)
    : Result POMatchResult64 :=
  let vendor := Js.trim (Js.toLowerCase vendorId) in
  let lineItems := lineItemsValue fields in
  match fold_left (considerOrder vendor invoiceDate lineItems) orders
          (Ok (None, 0%float, [])) with
  | Ok final =>
      Ok {| pm64_matchedPO := fst (fst final);
            pm64_confidence := Binary64.Math_min (snd (fst final)) 1;
            pm64_matchReasons := snd final |}
  | Err msg => Err msg
  end.

End POMatchingService64.

(** ** Decide ([services/decision.ts]) *)

Record DuplicateWarning := {
  potentialDuplicateIds : list string;
  matchedFields : list string
}.

Record Decision := {
  requiresHumanReview : bool;
  overallConfidence : Q;
  reasoning : string;
  flaggedFields : list string;
  duplicateWarning : option DuplicateWarning
}.

Record DecisionResult := {
  dr_decision : Decision;
  dr_auditEntry : AuditEntry
}.

Module DecisionService.

Definition checkForDuplicates (invoice : Invoice) (db : Repository) : option DuplicateWarning :=
  let ids :=
    List.filter (fun id => negb (String.eqb id (inv_id invoice)))
      (Repo.findPotentialDuplicates (normalizeVendorName (inv_vendorId invoice))
         (inv_invoiceNumber invoice) (inv_invoiceDate invoice) db) in
  match ids with
  | [] => None
  | _ => Some {| potentialDuplicateIds := ids;
                 matchedFields := ["vendorId"; "invoiceNumber"; "invoiceDate"]%string |}
  end.

(** One turn of the loop that fills [memConfMap]; [!existing] holds for a
    missing entry and for an entry equal to 0. *)
Definition noteConfidence (memConfMap : gmap string Q) (m : AppliedMemory) : gmap string Q :=
  match memConfMap !! am_fieldName m with
  | Some existing =>
      if JsNum.eqb existing 0 || JsNum.gtb (am_confidence m) existing
      then <[am_fieldName m := am_confidence m]> memConfMap
      else memConfMap
  | None => <[am_fieldName m := am_confidence m]> memConfMap
  end.

Definition calcOverallConfidence (invoice : Invoice) (memories : list AppliedMemory) : Q :=
  let memConfMap := fold_left noteConfidence memories ∅ in
  let confs :=
    map (fun kv =>
           match memConfMap !! fst kv with
           | Some memConf => (memConf * Qmin (f_extractionConfidence (snd kv)) 1)%Q
           | None => Qmin (f_extractionConfidence (snd kv))
                          (suggestionThreshold CONFIDENCE_CONFIG - 0.01)%Q
           end)
        (inv_fields invoice) in
  match confs with
  | [] => 0%Q
  | _ => Qmax 0 (Qmin 1 (fold_left Qplus confs 0 / inject_Z (Z.of_nat (length confs)))%Q)
  end.

(** The variables the sweep over the applied memories updates. *)
Record Sweep := {
  sw_review : bool;
  sw_flagged : list string;
  sw_highConfCount : nat
}.

Definition sweepMemory (s : Sweep) (mem : AppliedMemory) : Sweep :=
  if JsNum.geb (am_confidence mem) (autoApplyThreshold CONFIDENCE_CONFIG) then
    {| sw_review := sw_review s; sw_flagged := sw_flagged s;
       sw_highConfCount := S (sw_highConfCount s) |}
  else if JsNum.ltb (am_confidence mem) (suggestionThreshold CONFIDENCE_CONFIG)
          && negb (JsArr.includes (am_fieldName mem) (sw_flagged s)) then
    {| sw_review := true; sw_flagged := sw_flagged s ++ [am_fieldName mem];
       sw_highConfCount := sw_highConfCount s |}
  else s.

(** One turn of the loop over the detected patterns, on [requiresHumanReview]
    and [reasons]. *)
Definition notePattern (acc : bool * list string) (p : DetectedPattern) : bool * list string :=
  let reasons :=
    match dp_suggestedAction p with
    | Some a => if JsVal.truthyStr (Some a) then snd acc ++ [a] else snd acc
    | None => snd acc
    end in
  (match dp_type p with
   | tax_inclusive => true
   | _ => fst acc
   end, reasons).

Definition makeDecision (appliedResult : AppliedResult) (invoice : Invoice)
    (detectedPatterns : list DetectedPattern) (now : Z) (db : Repository) : DecisionResult :=
  let fieldNames := map fst (inv_fields invoice) in
  (* duplicate detection *)
  let dup := checkForDuplicates invoice db in
  let review := match dup with Some _ => true | None => false end in
  let reasons :=
    match dup with
    | Some w => ["Potential duplicate: " +:+ Js.join ", " (potentialDuplicateIds w)]
    | None => []
    end in
  (* low confidence fields *)
  let low := map fst (List.filter (fun kv => JsNum.ltb (f_extractionConfidence (snd kv)) 0.6)
                             (inv_fields invoice)) in
  let review := match low with [] => review | _ => true end in
  let flagged := low in
  let reasons :=
    match flagged with
    | [] => reasons
    | _ => reasons ++ ["Low extraction confidence: " +:+ Js.join ", " flagged]
    end in
  (* unmatched fields *)
  let matched := map am_fieldName (appliedMemories appliedResult) in
  let unmatched := List.filter (fun f => negb (JsArr.includes f matched)) fieldNames in
  let review := match unmatched with [] => review | _ => true end in
  let flagged :=
    fold_left (fun fl f => if JsArr.includes f fl then fl else fl ++ [f]) unmatched flagged in
  let reasons :=
    match unmatched with
    | [] => reasons
    | _ => reasons ++ ["No memory match: " +:+ Js.join ", " unmatched]
    end in
  (* low confidence memories *)
  let swept :=
    fold_left sweepMemory (appliedMemories appliedResult)
      {| sw_review := review; sw_flagged := flagged; sw_highConfCount := 0 |} in
  let review := sw_review swept in
  let flagged := sw_flagged swept in
  (* proposed corrections *)
  let review := match proposedCorrections appliedResult with [] => review | _ => true end in
  let reasons :=
    match proposedCorrections appliedResult with
    | [] => reasons
    | cs => reasons ++ [pretty (length cs) +:+ " proposed correction(s)"]
    end in
  (* detected patterns *)
  let noted := fold_left notePattern detectedPatterns (review, reasons) in
  let review := fst noted in
  let reasons := snd noted in
  let overall := calcOverallConfidence invoice (appliedMemories appliedResult) in
  let totalFields := length fieldNames in
  (* final decision summary *)
  let reasons :=
    if negb review && (sw_highConfCount swept =? totalFields)%nat && (0 <? totalFields)%nat
    then "All fields high confidence. Auto-accept recommended."%string :: reasons
    else if review then "Human review required."%string :: reasons
    else reasons in
  {| dr_decision := {|
       requiresHumanReview := review;
       overallConfidence := overall;
       reasoning := Js.join " " reasons;
       flaggedFields := JsArr.setOf flagged [];
       duplicateWarning := dup |};
     dr_auditEntry := {|
       ae_step := StepDecide; ae_timestamp := now;
       ae_details := "Invoice " +:+ inv_id invoice +:+ ": "
                     +:+ (if review then "REVIEW" else "AUTO")
                     +:+ ", conf=" +:+ JsNum.toFixed 2 overall |} |}.

End DecisionService.

(** ** Learn ([services/learn.ts]) *)

Record LearningResult := {
  createdMemories : list string;
  updatedMemories : list string;
  deactivatedMemories : list string;
  auditEntries : list AuditEntry
}.

(** [memoryType] is ['vendor' | 'correction']: the service asks whether it is
    ['vendor'] and takes any other value for a correction. *)
Record ContributingMemory := {
  ctm_memoryId : string;
  ctm_memoryType : MemoryType;
  ctm_fieldName : string;
  ctm_extractedValue : option string
}.

Inductive UpdateAction := reinforce | penalize | contradict.

Definition updateActionName (a : UpdateAction) : string :=
  match a with
  | reinforce => "reinforce"
  | penalize => "penalize"
  | contradict => "contradict"
  end.

(** The processor with what its services hold: the one repository they
    share, the contributing memories the Learn service keeps per invoice id,
    the orders of the matching service, and how many identifiers [uuidv4] has
    drawn. *)
Record InvoiceProcessor := {
  repository : Repository;
  contributingMemories : gmap string (list ContributingMemory);
  orders : list PurchaseOrder;
  uuidsDrawn : nat
}.

(** The [n]-th identifier [uuidv4()] draws. Nothing is assumed of it: an
    identifier already in the table makes the insertion fail. *)
Definition uuidv4 (n : nat) : string := "uuid-" +:+ pretty n.

Module Learn.

(** The members of a memory row that [updateMemory] reads, for either kind. *)
Record Existing := {
  ex_confidence : Q;
  ex_applicationCount : Z;
  ex_consecutiveRejections : Z;
  ex_isActive : bool
}.

Definition findExisting (mem : ContributingMemory) (db : Repository) : option Existing :=
  match ctm_memoryType mem with
  | vendor =>
      (fun r => {| ex_confidence := vm_confidence r;
                   ex_applicationCount := vm_applicationCount r;
                   ex_consecutiveRejections := vm_consecutiveRejections r;
                   ex_isActive := vm_isActive r |})
      <$> Repo.findVendorMemoryById (ctm_memoryId mem) db
  | _ =>
      (fun r => {| ex_confidence := cm_confidence r;
                   ex_applicationCount := cm_applicationCount r;
                   ex_consecutiveRejections := cm_consecutiveRejections r;
                   ex_isActive := cm_isActive r |})
      <$> Repo.findCorrectionMemoryById (ctm_memoryId mem) db
  end.

Definition registerContributingMemories (invoiceId : string)
    (memories : list ContributingMemory) (s : InvoiceProcessor) : InvoiceProcessor := {|
  repository := repository s;
  contributingMemories := <[invoiceId := memories]> (contributingMemories s);
  orders := orders s;
  uuidsDrawn := uuidsDrawn s
|}.

Definition getMemorySuggestedValue (mem : ContributingMemory) (db : Repository)
    : option string :=
  match ctm_extractedValue mem with
  | Some v => Some v
  | None =>
      match ctm_memoryType mem with
      | correction => cm_correctedValue <$> Repo.findCorrectionMemoryById (ctm_memoryId mem) db
      | _ => None
      end
  end.

(** The variables [newConf], [rejections] and [active] after the branch on
    the action. *)
Definition nextState (action : UpdateAction) (existing : Existing) : Q * Z * bool :=
  match action with
  | reinforce => (applyReinforcement (ex_confidence existing), 0%Z, ex_isActive existing)
  | penalize =>
      let rejections := (ex_consecutiveRejections existing + 1)%Z in
      (applyPenalty (ex_confidence existing), rejections,
       if (maxConsecutiveRejectionsBeforeDeactivation CONFIDENCE_CONFIG <=? rejections)%Z
       then false else ex_isActive existing)
  | contradict =>
      ((ex_confidence existing * 0.5)%Q, ex_consecutiveRejections existing, ex_isActive existing)
  end.

Definition deactivatedNote (mem : ContributingMemory) : string :=
  memoryTypeName (ctm_memoryType mem) +:+ " " +:+ ctm_memoryId mem +:+ " deactivated".

Definition updatedNote (mem : ContributingMemory) (action : UpdateAction) (old new : Q) : string :=
  memoryTypeName (ctm_memoryType mem) +:+ " " +:+ ctm_memoryId mem +:+ " "
  +:+ updateActionName action +:+ "d: " +:+ JsNum.toFixed 2 old +:+ arrow +:+ JsNum.toFixed 2 new.

Definition updateMemory (mem : ContributingMemory) (action : UpdateAction) (now : Z)
    (st : Repository * LearningResult) : Repository * LearningResult :=
  let db := fst st in
  let result := snd st in
  match findExisting mem db with
  | None => st
  | Some existing =>
      let '(newConf, rejections, active) := nextState action existing in
      let update := {|
        upd_confidence := Some newConf;
        upd_applicationCount :=
          match action with
          | reinforce => Some (ex_applicationCount existing + 1)%Z
          | _ => None
          end;
        upd_consecutiveRejections := Some rejections;
        upd_lastUsedAt := Some now;
        upd_isActive := Some active;
        upd_correctedValue := None |} in
      let db' :=
        match ctm_memoryType mem with
        | vendor => Repo.updateVendorMemory (ctm_memoryId mem) update db
        | _ => Repo.updateCorrectionMemory (ctm_memoryId mem) update db
        end in
      (db',
       if negb active
       then {| createdMemories := createdMemories result;
               updatedMemories := updatedMemories result;
               deactivatedMemories := deactivatedMemories result ++ [deactivatedNote mem];
               auditEntries := auditEntries result |}
       else {| createdMemories := createdMemories result;
               updatedMemories := updatedMemories result
                 ++ [updatedNote mem action (ex_confidence existing) newConf];
               deactivatedMemories := deactivatedMemories result;
               auditEntries := auditEntries result |})
  end.

(** The state [createMemory] works on: the repository, the result, and the
    number of identifiers drawn. *)
Definition Creation : Type := Repository * LearningResult * nat.

Definition noteCreated (note : string) (result : LearningResult) : LearningResult := {|
  createdMemories := createdMemories result ++ [note];
  updatedMemories := updatedMemories result;
  deactivatedMemories := deactivatedMemories result;
  auditEntries := auditEntries result
|}.

Definition noteUpdated (note : string) (result : LearningResult) : LearningResult := {|
  createdMemories := createdMemories result;
  updatedMemories := updatedMemories result ++ [note];
  deactivatedMemories := deactivatedMemories result;
  auditEntries := auditEntries result
|}.

(** [invoice.fields[name]]. *)
Definition fieldOf (invoice : Invoice) (name : string) : option InvoiceField :=
  snd <$> List.find (fun kv => String.eqb (fst kv) name) (inv_fields invoice).

(** The label of a field-mapping discovery: [field.originalLabel] when it is
    set, not empty, and differs from the corrected field's name. *)
Definition mappingLabel (invoice : Invoice) (corr : FieldCorrection) : option string :=
  match fieldOf invoice (fc_fieldName corr) with
  | Some field =>
      match f_originalLabel field with
      | Some label =>
          if negb (String.eqb label "") && negb (String.eqb label (fc_fieldName corr))
          then Some label else None
      | None => None
      end
  | None => None
  end.

Definition createMemory (corr : FieldCorrection) (invoice : Invoice) (vendorId : string)
    (now : Z) (st : Creation) : Result Creation :=
  let '(db, result, drawn) := st in
  let initConf := initialHumanCorrectionConfidence CONFIDENCE_CONFIG in
  match mappingLabel invoice corr with
  | Some label =>
      match List.find (fun m => String.eqb (vm_originalFieldName m) label
                                && String.eqb (vm_normalizedFieldName m) (fc_fieldName corr))
                      (Repo.findVendorMemories vendorId db) with
      | Some existing =>
          let newConf := applyReinforcement (vm_confidence existing) in
          let db' := Repo.updateVendorMemory (vm_id existing) {|
            upd_confidence := Some newConf;
            upd_applicationCount := Some (vm_applicationCount existing + 1)%Z;
            upd_consecutiveRejections := Some 0%Z;
            upd_lastUsedAt := Some now;
            upd_isActive := None;
            upd_correctedValue := None |} db in
          Ok (db',
              noteUpdated ("vendor " +:+ vm_id existing +:+ " reinforced: "
                           +:+ JsNum.toFixed 2 (vm_confidence existing) +:+ arrow
                           +:+ JsNum.toFixed 2 newConf) result,
              drawn)
      | None =>
          let vm := {|
            vm_id := uuidv4 drawn; vm_vendorId := vendorId;
            vm_vendorName := inv_vendorName invoice;
            vm_originalFieldName := label; vm_normalizedFieldName := fc_fieldName corr;
            vm_confidence := initConf; vm_applicationCount := 0; vm_consecutiveRejections := 0;
            vm_createdAt := now; vm_lastUsedAt := now; vm_isActive := true |} in
          db' ← Repo.saveVendorMemory vm db;
          Ok (db',
              noteCreated ("vendor " +:+ vm_id vm +:+ ": " +:+ Js.dquote +:+ label +:+ Js.dquote
                           +:+ arrow +:+ Js.dquote +:+ fc_fieldName corr +:+ Js.dquote) result,
              S drawn)
      end
  | None =>
      let cm := {|
        cm_id := uuidv4 drawn; cm_vendorId := Some vendorId;
        cm_fieldName := fc_fieldName corr;
        cm_originalValuePattern :=
          JsVal.toString (if JsVal.isNullish (fc_originalValue corr)
                          then VString "*" else fc_originalValue corr);
        cm_correctedValue := JsVal.toString (fc_correctedValue corr);
        cm_confidence := initConf; cm_applicationCount := 0; cm_consecutiveRejections := 0;
        cm_createdAt := now; cm_lastUsedAt := now; cm_isActive := true |} in
      db' ← Repo.saveCorrectionMemory cm db;
      Ok (db',
          noteCreated ("correction " +:+ cm_id cm +:+ ": " +:+ Js.dquote +:+ fc_fieldName corr
                       +:+ Js.dquote +:+ " " +:+ Js.dquote
                       +:+ JsVal.toString (fc_originalValue corr) +:+ Js.dquote +:+ arrow
                       +:+ Js.dquote +:+ JsVal.toString (fc_correctedValue corr) +:+ Js.dquote)
                      result,
          S drawn)
  end.

(** The human confirmed what the memory suggested:
    [memoryValue !== null && String(memoryValue) === String(corr.correctedValue)]. *)
Definition confirms (memoryValue : option string) (corr : FieldCorrection) : bool :=
  match memoryValue with
  | Some v => String.eqb v (JsVal.toString (fc_correctedValue corr))
  | None => false
  end.

(** One turn of [for (const corr of feedback.corrections)]. *)
Definition learnCorrection (contributing : list ContributingMemory) (invoice : Invoice)
    (vendorId : string) (now : Z) (st : Creation) (corr : FieldCorrection) : Result Creation :=
  let '(db, result, drawn) := st in
  match List.find (fun m => String.eqb (ctm_fieldName m) (fc_fieldName corr)) contributing with
  | Some contributingMem =>
      if confirms (getMemorySuggestedValue contributingMem db) corr
      then
        let st' := updateMemory contributingMem reinforce now (db, result) in
        Ok (fst st', snd st', drawn)
      else
        let st' := updateMemory contributingMem contradict now (db, result) in
        createMemory corr invoice vendorId now (fst st', snd st', drawn)
  | None => createMemory corr invoice vendorId now st
  end.

Fixpoint learnCorrections (contributing : list ContributingMemory) (invoice : Invoice)
    (vendorId : string) (now : Z) (corrections : list FieldCorrection) (st : Creation)
    : Result Creation :=
  match corrections with
  | [] => Ok st
  | corr :: rest =>
      st' ← learnCorrection contributing invoice vendorId now st corr;
      learnCorrections contributing invoice vendorId now rest st'
  end.

Definition feedbackActionName (a : FeedbackAction) : string :=
  match a with
  | Approve => "approve"
  | Reject => "reject"
  | Correct => "correct"
  end.

Definition emptyResult : LearningResult := {|
  createdMemories := []; updatedMemories := []; deactivatedMemories := []; auditEntries := []
|}.

(** A thrown exception ([Err]) ends the call; what it had written before is
    not described. *)
Definition learnFromFeedback (feedback : HumanFeedback) (invoice : Invoice) (now : Z)
    (s : InvoiceProcessor) : Result (LearningResult * InvoiceProcessor) :=
  let contributing := default [] (contributingMemories s !! inv_id invoice) in
  let start : Creation := (repository s, emptyResult, uuidsDrawn s) in
  learned ←
    match fb_action feedback, fb_corrections feedback with
    | Approve, _ =>
        let st := fold_left (fun st m => updateMemory m reinforce now st) contributing
                            (repository s, emptyResult) in
        Ok (fst st, snd st, uuidsDrawn s)
    | Reject, _ =>
        let st := fold_left (fun st m => updateMemory m penalize now st) contributing
                            (repository s, emptyResult) in
        Ok (fst st, snd st, uuidsDrawn s)
    | Correct, Some corrections =>
        learnCorrections contributing invoice (normalizeVendorName (inv_vendorId invoice))
                         now corrections start
    | Correct, None => Ok start
    end;
  let '(db, result, drawn) := learned in
  let auditEntry := {|
    ae_step := StepLearn; ae_timestamp := now;
    ae_details := feedbackActionName (fb_action feedback) +:+ " on " +:+ inv_id invoice
                  +:+ ": +" +:+ pretty (length (createdMemories result))
                  +:+ " ~" +:+ pretty (length (updatedMemories result))
                  +:+ " -" +:+ pretty (length (deactivatedMemories result)) |} in
  Ok ({| createdMemories := createdMemories result;
         updatedMemories := updatedMemories result;
         deactivatedMemories := deactivatedMemories result;
         auditEntries := auditEntries result ++ [auditEntry] |},
      {| repository :=
           Repo.saveAuditEntry {| sae_invoiceId := inv_id invoice; sae_entry := auditEntry |} db;
         contributingMemories := delete (inv_id invoice) (contributingMemories s);
         orders := orders s;
         uuidsDrawn := drawn |}).

End Learn.

(** ** The orchestrator ([services/processor.ts]) *)

Module Processor.

Definition setPurchaseOrders (newOrders : list PurchaseOrder) (s : InvoiceProcessor)
    : InvoiceProcessor := {|
  repository := repository s;
  contributingMemories := contributingMemories s;
  orders := newOrders;
  uuidsDrawn := uuidsDrawn s
|}.

Definition withRepository (db : Repository) (s : InvoiceProcessor) : InvoiceProcessor := {|
  repository := db;
  contributingMemories := contributingMemories s;
  orders := orders s;
  uuidsDrawn := uuidsDrawn s
|}.

Definition saveAuditEntry (invoiceId : string) (entry : AuditEntry) (db : Repository)
    : Repository :=
  Repo.saveAuditEntry {| sae_invoiceId := invoiceId; sae_entry := entry |} db.

Definition extractContributingMemories (applied : list AppliedMemory)
    : list ContributingMemory :=
  map (fun m => {| ctm_memoryId := am_memoryId m; ctm_memoryType := am_memoryType m;
                   ctm_fieldName := am_fieldName m;
                   ctm_extractedValue := am_extractedValue m |})
      (List.filter (fun m => match am_memoryType m with
                        | vendor | correction => true
                        | resolution => false
                        end) applied).

Definition correctionString (c : ProposedCorrection) : string :=
  pc_fieldName c +:+ ": " +:+ Js.dquote +:+ JsVal.toString (pc_currentValue c) +:+ Js.dquote
  +:+ " " +:+ arrow +:+ " " +:+ Js.dquote +:+ JsVal.toString (pc_suggestedValue c) +:+ Js.dquote
  +:+ " (memory: " +:+ pc_memoryId c +:+ ", confidence: " +:+ JsNum.toFixed 2 (pc_confidence c)
  +:+ ") - " +:+ pc_reasoning c.

Definition patternString (p : DetectedPattern) : string :=
  "[" +:+ patternTypeName (dp_type p) +:+ "]"
  +:+ (if JsVal.truthyStr (dp_fieldName p) then " [" +:+ default "" (dp_fieldName p) +:+ "]" else "")
  +:+ ": " +:+ default "" (dp_suggestedAction p).

Definition buildProposedCorrectionsStrings (corrections : list ProposedCorrection)
    (patterns : list DetectedPattern) : list string :=
  map correctionString corrections
  ++ map patternString (List.filter (fun p => JsVal.truthyStr (dp_suggestedAction p)) patterns).

(** Step 2.5: the pattern and the proposal the order match adds, when the
    normalized record has no PO number. *)
Definition matchPurchaseOrder (invoice : Invoice) (ordersKnown : list PurchaseOrder)
    (applied : AppliedResult) (patterns : list DetectedPattern)
    : AppliedResult * list DetectedPattern :=
  if negb (JsVal.truthy (readKey (normalizedInvoice applied) "poNumber")) then
    let poMatch := POMatchingService.findMatchingPO (inv_vendorId invoice)
                     (inv_invoiceDate invoice) (inv_fields invoice) ordersKnown in
    match pm_matchedPO poMatch with
    | Some po =>
        if JsNum.geb (pm_confidence poMatch) 0.5 then
          let reasons := Js.join ", " (pm_matchReasons poMatch) in
          let pattern := {|
            dp_type := po_match;
            dp_details := DetPoMatch (po_poNumber po) (pm_confidence poMatch)
                                     (pm_matchReasons poMatch);
            dp_fieldName := Some "poNumber"%string;
            dp_suggestedAction :=
              Some ("PO match suggested: " +:+ po_poNumber po +:+ " (confidence: "
                    +:+ JsNum.toFixed 0 (pm_confidence poMatch * 100)%Q +:+ "%) - " +:+ reasons) |} in
          (if JsNum.geb (pm_confidence poMatch) 0.7 then
             {| normalizedInvoice := normalizedInvoice applied;
                appliedMemories := appliedMemories applied;
                proposedCorrections := proposedCorrections applied ++ [{|
                  pc_fieldName := "poNumber"; pc_currentValue := VNull;
                  pc_suggestedValue := VString (po_poNumber po);
                  pc_memoryId := "po-matching-service";
                  pc_confidence := pm_confidence poMatch;
                  pc_reasoning := "PO matching: " +:+ reasons |}] |}
           else applied,
           patterns ++ [pattern])
        else (applied, patterns)
    | None => (applied, patterns)
    end
  else (applied, patterns).

Definition processInvoice (invoice : Invoice) (now : Z) (s : InvoiceProcessor)
    : ProcessingResult * InvoiceProcessor :=
  (* Step 1: recall *)
  let recallResult := RecallService.recallMemories invoice now (repository s) in
  let db := saveAuditEntry (inv_id invoice) (rr_auditEntry recallResult) (repository s) in
  (* Step 2: apply *)
  let applyResult := ApplyService.applyMemories invoice (rr_memories recallResult) now in
  let db := saveAuditEntry (inv_id invoice) (ar_auditEntry applyResult) db in
  (* Step 2.5: PO matching *)
  let matched := matchPurchaseOrder invoice (orders s) (ar_appliedResult applyResult)
                                    (ar_detectedPatterns applyResult) in
  let appliedResult := fst matched in
  let detectedPatterns := snd matched in
  (* register contributing memories *)
  let registered :=
    <[inv_id invoice := extractContributingMemories (appliedMemories appliedResult)]>
      (contributingMemories s) in
  (* Step 3: decision *)
  let decisionResult :=
    DecisionService.makeDecision appliedResult invoice detectedPatterns now db in
  let db := saveAuditEntry (inv_id invoice) (dr_auditEntry decisionResult) db in
  (* record for duplicate detection *)
  let db := Repo.saveProcessedInvoice (inv_id invoice)
              (normalizeVendorName (inv_vendorId invoice)) (inv_invoiceNumber invoice)
              (inv_invoiceDate invoice) now db in
  ({| pr_normalizedInvoice := normalizedInvoice appliedResult;
      pr_proposedCorrections :=
        buildProposedCorrectionsStrings (proposedCorrections appliedResult) detectedPatterns;
      pr_requiresHumanReview := requiresHumanReview (dr_decision decisionResult);
      pr_reasoning := reasoning (dr_decision decisionResult);
      pr_confidenceScore := Qmax 0 (Qmin 1 (overallConfidence (dr_decision decisionResult)));
      pr_memoryUpdates :=
        ["Recorded invoice " +:+ inv_id invoice +:+ " for duplicate detection"];
      pr_auditTrail := [rr_auditEntry recallResult; ar_auditEntry applyResult;
                        dr_auditEntry decisionResult] |},
   {| repository := db;
      contributingMemories := registered;
      orders := orders s;
      uuidsDrawn := uuidsDrawn s |}).

Definition learnFromFeedback (feedback : HumanFeedback) (invoice : Invoice) (now : Z)
    (s : InvoiceProcessor) : Result (LearningResult * InvoiceProcessor) :=
  Learn.learnFromFeedback feedback invoice now s.

End Processor.

(** ** The overall confidence, as the specification words it

    For each invoice field: with an applied-memory trace for the field, the
    memory confidence times the extraction confidence capped at 1; without
    one, the extraction confidence capped at the suggestion threshold less
    [epsilon]. The overall confidence is the arithmetic mean over the fields,
    clamped to [0, 1], and 0 for an invoice without fields. Where several
    traces name one field, the memory confidence is the highest of theirs. *)
Module DecideSpec.

Definition traceConfidences (memories : list AppliedMemory) (name : string) : list Q :=
  map am_confidence (List.filter (fun m => String.eqb (am_fieldName m) name) memories).

Definition highest (cs : list Q) : option Q :=
  fold_left (fun best c => Some (match best with
                                 | Some b => Qmax b c
                                 | None => c
                                 end)) cs None.

Definition fieldConfidence (epsilon : Q) (memories : list AppliedMemory)
    (name : string) (field : InvoiceField) : Q :=
  match highest (traceConfidences memories name) with
  | Some memoryConfidence => (memoryConfidence * Qmin (f_extractionConfidence field) 1)%Q
  | None => Qmin (f_extractionConfidence field)
                 (suggestionThreshold CONFIDENCE_CONFIG - epsilon)%Q
  end.

Definition sum (xs : list Q) : Q := fold_right Qplus 0%Q xs.

Definition mean (xs : list Q) : Q := (sum xs / inject_Z (Z.of_nat (length xs)))%Q.

Definition clamp01 (x : Q) : Q := Qmax 0 (Qmin 1 x).

Definition overallConfidence (epsilon : Q) (invoice : Invoice)
    (memories : list AppliedMemory) : Q :=
  match inv_fields invoice with
  | [] => 0%Q
  | fields =>
      clamp01 (mean (map (fun kv => fieldConfidence epsilon memories (fst kv) (snd kv)) fields))
  end.

(** Two optional numbers that are both absent, or both present and equal. *)
Definition sameOption (a b : option Q) : Prop :=
  match a, b with
  | Some x, Some y => (x == y)%Q
  | None, None => True
  | _, _ => False
  end.

End DecideSpec.

(** ** Vocabulary of the statements about Apply *)

Module ApplySpec.

(** The applied-memory trace of a correction memory. *)
Definition correctionTrace (cm : CorrectionMemory) : AppliedMemory := {|
  am_memoryId := cm_id cm;
  am_memoryType := correction;
  am_fieldName := cm_fieldName cm;
  am_action := mapConfidenceToAction (cm_confidence cm);
  am_confidence := cm_confidence cm;
  am_extractedValue := Some (cm_correctedValue cm)
|}.

(** The record, traces and proposals when the loop over the correction
    memories has handled the memories [handled]. *)
Definition afterCorrections (invoice : Invoice) (memories : RecalledMemories)
    (handled : list CorrectionMemory) : AppliedResult :=
  fold_left ApplyService.applyCorrectionMemory handled
    (fold_left (ApplyService.applyVendorMemory invoice) (vendorMemories memories)
       {| normalizedInvoice := ApplyService.fieldValues invoice; appliedMemories := [];
          proposedCorrections := [] |}).

(** [cm] overwrites the field [name]: it is auto-applied and targets it. *)
Definition overwrites (name : string) (cm : CorrectionMemory) : bool :=
  match mapConfidenceToAction (cm_confidence cm) with
  | auto_applied => String.eqb (cm_fieldName cm) name
  | _ => false
  end.

(** A pattern of the given type is among [patterns]. *)
Definition hasPattern (t : PatternType) (patterns : list DetectedPattern) : bool :=
  existsb (fun p => match dp_type p, t with
                    | tax_inclusive, tax_inclusive
                    | skonto, skonto
                    | currency_recovery, currency_recovery
                    | sku_mapping, sku_mapping
                    | po_match, po_match => true
                    | _, _ => false
                    end) patterns.

(** What a trace tells of the memory it stands for. *)
Definition traceKey (t : AppliedMemory) : MemoryType * string * string * ThresholdAction * Q :=
  (am_memoryType t, am_memoryId t, am_fieldName t, am_action t, am_confidence t).

(** The same of a recalled vendor memory. *)
Definition vendorKey (vm : VendorMemory) : MemoryType * string * string * ThresholdAction * Q :=
  (vendor, vm_id vm, vm_normalizedFieldName vm, mapConfidenceToAction (vm_confidence vm),
   vm_confidence vm).

(** The record, traces and proposals when the loop over the vendor memories
    has handled the memories [handled], from the state [st] on. *)
Definition afterVendors (invoice : Invoice) (handled : list VendorMemory) (st : AppliedResult)
    : AppliedResult :=
  fold_left (ApplyService.applyVendorMemory invoice) handled st.

End ApplySpec.

(** ** Vocabulary of the statements about the regular expressions *)

Module RegexSpec.

Import Regex.

(** The character test of [chr ci c]. *)
Definition sameChar (ci : bool) (c x : ascii) : bool :=
  if ci then Ascii.eqb (Js.lowerChar x) (Js.lowerChar c) else Ascii.eqb x c.

(** Where a match stands after it has read the literal [p], if the text
    ahead starts with it. *)
Fixpoint litEnd (ci : bool) (p : string) (st : state) : option state :=
  match p with
  | EmptyString => Some st
  | String c p' =>
      match rest st with
      | String x s' =>
          if sameChar ci c x
          then litEnd ci p' {| prev := Some x; rest := s'; caps := caps st |}
          else None
      | EmptyString => None
      end
  end.

(** Some suffix of [s] satisfies [d]. *)
Fixpoint anySuffix (d : string -> bool) (s : string) : bool :=
  d s || match s with
         | EmptyString => false
         | String _ r => anySuffix d r
         end.

(** The last character of a text. *)
Fixpoint lastOf (s : string) : option ascii :=
  match s with
  | EmptyString => None
  | String c EmptyString => Some c
  | String _ r => lastOf r
  end.

(** [word] stands in [text] as a whole word, in any mix of cases: the text
    is [pre ++ mid ++ post] where [mid] is [word] up to case, no word
    character ends [pre] and none starts [post]. *)
Definition occursAsWord (word text : string) : Prop :=
  exists pre mid post,
    text = pre +:+ mid +:+ post
    /\ Js.toLowerCase mid = word
    /\ isWordOpt (lastOf pre) = false
    /\ isWordOpt (headOf post) = false.

(** [word] stands as a whole word at one place of [text]: right after the
    prefix [pre]. *)
Definition occursAt (pre word text : string) : Prop :=
  exists mid post,
    text = pre +:+ mid +:+ post
    /\ Js.toLowerCase mid = word
    /\ isWordOpt (lastOf pre) = false
    /\ isWordOpt (headOf post) = false.

End RegexSpec.

(** ** Sample data, after the demo fixtures *)

Module Sample.

Definition field (name : string) (value : Value) (confidence : Q) (label : option string)
    : string * InvoiceField :=
  (name, {| f_name := name; f_value := value; f_extractionConfidence := confidence;
            f_originalLabel := label |}).

Definition emptyRepository : Repository := {|
  vendor_memories := []; correction_memories := []; resolution_memories := [];
  audit_trail := []; processed_invoices := []
|}.

Definition noMemories : RecalledMemories := {|
  vendorMemories := []; correctionMemories := []; resolutionMemories := []
|}.

(** An invoice of Parts AG without a currency; [text] is its raw text. *)
Definition partsInvoice (id text : string) : Invoice := {|
  inv_id := id; inv_vendorId := "Parts AG"; inv_vendorName := "Parts AG";
  inv_invoiceNumber := "PA-7781"; inv_invoiceDate := 1705276800000;
  inv_fields := [ field "invoiceNumber" (VString "PA-7781") 0.8 None;
                  field "currency" VNull 0.4 None;
                  field "grossTotal" (VNumber 2380) 0.8 None ];
  inv_rawText := Some text
|}.

(** A correction memory of Parts AG for the field [name]. *)
Definition correctionFor (id name corrected : string) (confidence : Q) : CorrectionMemory := {|
  cm_id := id; cm_vendorId := Some "parts ag"%string; cm_fieldName := name;
  cm_originalValuePattern := "*"; cm_correctedValue := corrected;
  cm_confidence := confidence; cm_applicationCount := 0; cm_consecutiveRejections := 0;
  cm_createdAt := 0; cm_lastUsedAt := 0; cm_isActive := true
|}.

End Sample.

(** ** Vocabulary of the statements about the currency recovery *)

Module CurrencySpec.

Import Regex.

(** The codes [currencyRegex] knows, as it spells them. *)
Definition codes : list string := ["eur"; "usd"; "chf"; "gbp"]%string.

(** Every character of [s] passes [p]. *)
Fixpoint allChars (p : ascii -> bool) (s : string) : bool :=
  match s with
  | EmptyString => true
  | String c r => p c && allChars p r
  end.

(** What follows the alternatives of [currencyRegex] in a match begun at
    [st]: group 1 is closed, and a word boundary is asked for. *)
Definition closeWord (st : state) (k : Cont) : Cont := fun st' =>
  let closed := {| prev := prev st'; rest := rest st';
                   caps := (1%nat, consumed st st') :: caps st' |} in
  if xorb (isWordOpt (prev closed)) (isWordOpt (headOf (rest closed))) then k closed else None.

(** The start of a search that began at the head of [pre +:+ s] with the
    character [p] before it, when it has come to [s]. *)
Definition prevAfter (p : option ascii) (pre : string) : option ascii :=
  match pre with
  | EmptyString => p
  | String _ _ => RegexSpec.lastOf pre
  end.

(** The leftmost match: the known code [code] stands as a whole word after
    the prefix [pre] of [text], and no known code stands as a whole word
    after a shorter prefix. *)
Definition leftmost (pre code text : string) : Prop :=
  In code codes
  /\ RegexSpec.occursAt pre code text
  /\ forall pre' code',
       In code' codes -> RegexSpec.occursAt pre' code' text ->
       (String.length pre <= String.length pre')%nat.

End CurrencySpec.

(** ** The score of a purchase order, as the specification words it

    A base of 0.3 for the vendor match; up to 0.2 more, falling linearly to 0
    as the dates move from 0 to 30 days apart, and nothing beyond 30 days; 0.3
    times the number of distinct matched codes over the size of the larger of
    the two code sets; 0.1 for every invoice line item whose quantity is that
    of the order's line item of the same code (the first one, where the order
    repeats a code). *)
Module POSpec.

Definition items (lineItems : option (list LineItem)) : list LineItem := default [] lineItems.

(** The code set of the invoice (null and empty codes left out) and of the
    order. *)
Definition invoiceCodes (lineItems : option (list LineItem)) : gset string :=
  list_to_set (omap (fun i => match li_sku i with
                              | Some s => if String.eqb s "" then None else Some s
                              | None => None
                              end) (items lineItems)).

Definition orderCodes (po : PurchaseOrder) : gset string :=
  list_to_set (map poi_sku (po_lineItems po)).

Definition dateScore (invoiceDate : Z) (po : PurchaseOrder) : Q :=
  let days := POMatchingService.daysApart invoiceDate po in
  if Qle_bool days 30 then (0.2 * (1 - days / 30))%Q else 0%Q.

Definition codeScore (lineItems : option (list LineItem)) (po : PurchaseOrder) : Q :=
  let matched := size (invoiceCodes lineItems ∩ orderCodes po) in
  match matched with
  | O => 0%Q
  | _ => (0.3 * inject_Z (Z.of_nat matched)
          / inject_Z (Z.of_nat (Nat.max (size (invoiceCodes lineItems)) (size (orderCodes po)))))%Q
  end.

(** The invoice line item has a code, and the first order line item of that
    code has its quantity. *)
Definition quantityMatches (po : PurchaseOrder) (inv : LineItem) : bool :=
  match li_sku inv with
  | Some sku =>
      match List.find (fun p => String.eqb (poi_sku p) sku) (po_lineItems po) with
      | Some poItem => Qeq_bool (poi_qty poItem) (li_qty inv)
      | None => false
      end
  | None => false
  end.

Definition quantityScore (lineItems : option (list LineItem)) (po : PurchaseOrder) : Q :=
  (0.1 * inject_Z (Z.of_nat (length (List.filter (quantityMatches po) (items lineItems)))))%Q.

Definition score (invoiceDate : Z) (lineItems : option (list LineItem)) (po : PurchaseOrder) : Q :=
  (0.3 + dateScore invoiceDate po + codeScore lineItems po + quantityScore lineItems po)%Q.

(** The orders considered: those of the invoice's vendor, both names
    lower-cased and trimmed. *)
Definition candidates (vendorId : string) (orders : list PurchaseOrder) : list PurchaseOrder :=
  List.filter (POMatchingService.sameVendor (Js.trim (Js.toLowerCase vendorId))) orders.

(** Some order line item has the code and the quantity of the invoice line item. *)
Definition someItemMatches (po : PurchaseOrder) (inv : LineItem) : bool :=
  existsb (fun p => match li_sku inv with
                    | Some sku => String.eqb (poi_sku p) sku && Qeq_bool (poi_qty p) (li_qty inv)
                    | None => false
                    end) (po_lineItems po).

End POSpec.

(** The same score on doubles: the terms are added to the base one after the
    other, in the order the specification lists them, each sum rounded; a
    term that does not apply is not added. *)
Module POSpec64.

Import POMatchingService64.

(** 0.2 * (1 - days/30), when the dates are at most 30 days apart. *)
Definition dateTerm (invoiceDate : Z) (po : PurchaseOrder) : option float :=
  let days := daysApart invoiceDate po in
  if (days <=? 30)%float then Some (0.2 * (1 - days / 30))%float else None.

(** 0.3 times the number of distinct matched codes, over the size of the
    larger code set, when some code is matched. *)
Definition codeTerm (lineItems : option (list LineItem)) (po : PurchaseOrder) : option float :=
  let matched := size (POSpec.invoiceCodes lineItems ∩ POSpec.orderCodes po) in
  match matched with
  | O => None
  | _ => Some (0.3 * ofNat matched
               / Binary64.Math_max (ofNat (size (POSpec.invoiceCodes lineItems)))
                                   (ofNat (size (POSpec.orderCodes po))))%float
  end.

Definition plus (x : float) (term : option float) : float :=
  match term with
  | Some t => (x + t)%float
  | None => x
  end.

(** The number of invoice line items that earn the quantity bonus. *)
Definition quantityMatched (lineItems : option (list LineItem)) (po : PurchaseOrder) : nat :=
  length (List.filter (POSpec.quantityMatches po) (POSpec.items lineItems)).

Definition score (invoiceDate : Z) (lineItems : option (list LineItem)) (po : PurchaseOrder)
    : float :=
  Nat.iter (quantityMatched lineItems po) (fun x => (x + 0.1)%float)
    (plus (plus 0.3%float (dateTerm invoiceDate po)) (codeTerm lineItems po)).

(** [x > y] and [x >= y] on doubles; both fail when one side is NaN. *)
Definition above (x y : float) : bool := (y <? x)%float.
Definition reaches (x y : float) : bool := (y <=? x)%float.

(** The value of the [lineItems] field is a text that is not empty. *)
Definition isText (v : Value) : bool :=
  match v with
  | VString (String _ _) => true
  | _ => false
  end.

(** The result of a search that found no order. *)
Definition noMatch : POMatchResult64 :=
  {| pm64_matchedPO := None; pm64_confidence := 0; pm64_matchReasons := [] |}.

End POSpec64.

Module SampleOrders.

(** An order of Acme Corp whose two line items carry the same code. *)
Definition acmeOrder : PurchaseOrder := {|
  po_poNumber := "PO-A-051"; po_vendor := "Acme Corp"; po_date := 1705276800000;
  po_lineItems := [ {| poi_sku := "WIDGET-001"; poi_qty := 5; poi_unitPrice := 25 |};
                    {| poi_sku := "WIDGET-001"; poi_qty := 10; poi_unitPrice := 25 |} ]
|}.

(** A later order of Acme Corp for one line of ten widgets. *)
Definition laterOrder : PurchaseOrder := {|
  po_poNumber := "PO-A-052"; po_vendor := " ACME corp"; po_date := 1705708800000;
  po_lineItems := [ {| poi_sku := "WIDGET-001"; poi_qty := 10; poi_unitPrice := 25 |} ]
|}.

(** An order of Acme Corp dated fifteen days before 20 January 2024, for
    ten widgets, and one of that day for five. *)
Definition earlierOrder : PurchaseOrder := {|
  po_poNumber := "PO-1"; po_vendor := "Acme Corp"; po_date := 1704412800000;
  po_lineItems := [ {| poi_sku := "WIDGET-001"; poi_qty := 10; poi_unitPrice := 25 |} ]
|}.

Definition sameDayOrder : PurchaseOrder := {|
  po_poNumber := "PO-2"; po_vendor := "Acme Corp"; po_date := 1705708800000;
  po_lineItems := [ {| poi_sku := "WIDGET-001"; poi_qty := 5; poi_unitPrice := 25 |} ]
|}.

Definition tenWidgets : LineItem := {| li_sku := Some "WIDGET-001"%string; li_qty := 10 |}.

(** The fields of an invoice whose line items came as a text. *)
Definition textFields : list (string * InvoiceField) :=
  [ Sample.field "lineItems" (VString "10 x WIDGET-001") 0.8 None ].

(** The fields of an invoice for ten widgets. *)
Definition widgetFields : list (string * InvoiceField) :=
  [ Sample.field "lineItems" (VLineItems [tenWidgets]) 0.8 None ].

End SampleOrders.

(** ** Vocabulary of the statements about Learn *)

Module LearnSpec.

(** What identifies the row a contributing memory stands for: the table
    (the vendor table, or else the correction table) and the id. *)
Definition memoryKey (m : ContributingMemory) : bool * string :=
  (match ctm_memoryType m with
   | vendor => true
   | _ => false
   end, ctm_memoryId m).

(** The ids of the rows of the two memory tables, in table order. *)
Definition memoryIds (db : Repository) : list string * list string :=
  (map vm_id (vendor_memories db), map cm_id (correction_memories db)).

(** A memory after a rejection. *)
Definition penalized (e : Learn.Existing) : Learn.Existing := {|
  Learn.ex_confidence := applyPenalty (Learn.ex_confidence e);
  Learn.ex_applicationCount := Learn.ex_applicationCount e;
  Learn.ex_consecutiveRejections := (Learn.ex_consecutiveRejections e + 1)%Z;
  Learn.ex_isActive :=
    if (maxConsecutiveRejectionsBeforeDeactivation CONFIDENCE_CONFIG
        <=? Learn.ex_consecutiveRejections e + 1)%Z
    then false else Learn.ex_isActive e
|}.

(** A memory after an approval or a confirming correction. *)
Definition reinforced (e : Learn.Existing) : Learn.Existing := {|
  Learn.ex_confidence := applyReinforcement (Learn.ex_confidence e);
  Learn.ex_applicationCount := (Learn.ex_applicationCount e + 1)%Z;
  Learn.ex_consecutiveRejections := 0%Z;
  Learn.ex_isActive := Learn.ex_isActive e
|}.

(** A memory after a contradicting correction. *)
Definition contradicted (e : Learn.Existing) : Learn.Existing := {|
  Learn.ex_confidence := (Learn.ex_confidence e * 0.5)%Q;
  Learn.ex_applicationCount := Learn.ex_applicationCount e;
  Learn.ex_consecutiveRejections := Learn.ex_consecutiveRejections e;
  Learn.ex_isActive := Learn.ex_isActive e
|}.

Definition after (action : UpdateAction) (e : Learn.Existing) : Learn.Existing :=
  match action with
  | reinforce => reinforced e
  | penalize => penalized e
  | contradict => contradicted e
  end.

(** The sparse update [updateMemory] sends to the repository. *)
Definition updateOf (action : UpdateAction) (now : Z) (e : Learn.Existing) : MemoryUpdate := {|
  upd_confidence := Some (Learn.ex_confidence (after action e));
  upd_applicationCount :=
    match action with
    | reinforce => Some (Learn.ex_applicationCount e + 1)%Z
    | _ => None
    end;
  upd_consecutiveRejections := Some (Learn.ex_consecutiveRejections (after action e));
  upd_lastUsedAt := Some now;
  upd_isActive := Some (Learn.ex_isActive (after action e));
  upd_correctedValue := None
|}.

(** The repository after that update of the row of [m]. *)
Definition updatedRow (m : ContributingMemory) (u : MemoryUpdate) (db : Repository)
    : Repository :=
  match ctm_memoryType m with
  | vendor => Repo.updateVendorMemory (ctm_memoryId m) u db
  | _ => Repo.updateCorrectionMemory (ctm_memoryId m) u db
  end.

(** The notes [updateMemory] adds to the lists of a result. *)
Definition withNotes (updated deactivated : list string) (result : LearningResult)
    : LearningResult := {|
  createdMemories := createdMemories result;
  updatedMemories := updatedMemories result ++ updated;
  deactivatedMemories := deactivatedMemories result ++ deactivated;
  auditEntries := auditEntries result
|}.

(** The note [updateMemory] writes for [m], found as [e]: to the list of
    deactivated memories when [deactivated], to the updated ones otherwise. *)
Definition noteFor (deactivated : bool) (action : UpdateAction) (db : Repository)
    (m : ContributingMemory) : option string :=
  match Learn.findExisting m db with
  | Some e =>
      if Bool.eqb (negb (Learn.ex_isActive (after action e))) deactivated
      then Some (if deactivated then Learn.deactivatedNote m
                 else Learn.updatedNote m action (Learn.ex_confidence e)
                        (Learn.ex_confidence (after action e)))
      else None
  | None => None
  end.

(** The active mapping of the vendor that [createMemory] finds for the
    label of the corrected field: with one, it reinforces that memory and
    creates nothing. *)
Definition knownMapping (corr : FieldCorrection) (invoice : Invoice) (vendorId : string)
    (db : Repository) : option VendorMemory :=
  match Learn.mappingLabel invoice corr with
  | Some label =>
      List.find (fun m => String.eqb (vm_originalFieldName m) label
                          && String.eqb (vm_normalizedFieldName m) (fc_fieldName corr))
                (Repo.findVendorMemories vendorId db)
  | None => None
  end.

(** The ids of the memory tables after one row [id] is added to either. *)
Definition oneRowMore (id : string) (before after : list string * list string) : Prop :=
  after = (fst before ++ [id], snd before) \/ after = (fst before, snd before ++ [id]).

(** The ids of the memory tables after [n] rows were appended to them. *)
Definition grownBy (n : nat) (before after : list string * list string) : Prop :=
  exists v c, after = (fst before ++ v, snd before ++ c) /\ (length v + length c = n)%nat.

(** What a step of the Learn service may do to the state [createMemory]
    works on when it creates [n] memories: draw [n] identifiers, note [n]
    creations, append [n] rows to the memory tables, and leave the other
    tables and the audit entries of the result alone. *)
Definition creates (n : nat) (st st' : Learn.Creation) : Prop :=
  snd st' = (snd st + n)%nat
  /\ length (createdMemories (snd (fst st')))
     = (length (createdMemories (snd (fst st))) + n)%nat
  /\ grownBy n (memoryIds (fst (fst st))) (memoryIds (fst (fst st')))
  /\ resolution_memories (fst (fst st')) = resolution_memories (fst (fst st))
  /\ audit_trail (fst (fst st')) = audit_trail (fst (fst st))
  /\ processed_invoices (fst (fst st')) = processed_invoices (fst (fst st))
  /\ auditEntries (snd (fst st')) = auditEntries (snd (fst st)).

End LearnSpec.

(** ** Sample data for the statements about Learn and the processor *)

Module SampleLearn.

(** The memory of Supplier GmbH that reads the label Leistungsdatum as the
    service date. *)
Definition serviceDateMemory (confidence : Q) (rejections : Z) : VendorMemory := {|
  vm_id := "vm-1"; vm_vendorId := "supplier gmbh"; vm_vendorName := "Supplier GmbH";
  vm_originalFieldName := "Leistungsdatum"; vm_normalizedFieldName := "serviceDate";
  vm_confidence := confidence; vm_applicationCount := 3;
  vm_consecutiveRejections := rejections;
  vm_createdAt := 0; vm_lastUsedAt := 0; vm_isActive := true
|}.

(** The trace of that memory for an invoice on which it extracted nothing. *)
Definition serviceDateTrace : ContributingMemory := {|
  ctm_memoryId := "vm-1"; ctm_memoryType := vendor; ctm_fieldName := "serviceDate";
  ctm_extractedValue := None
|}.

(** An invoice of Supplier GmbH whose service date was not extracted. *)
Definition supplierInvoice (id : string) (date : Z) : Invoice := {|
  inv_id := id; inv_vendorId := "Supplier GmbH"; inv_vendorName := "Supplier GmbH";
  inv_invoiceNumber := "INV-2024-001"; inv_invoiceDate := date;
  inv_fields := [ Sample.field "invoiceNumber" (VString "INV-2024-001") 0.9 None;
                  Sample.field "serviceDate" VNull 0.3 (Some "Leistungsdatum"%string) ];
  inv_rawText := Some "Rechnung INV-2024-001"%string
|}.

(** A processor whose repository holds [memory] alone, with
    [serviceDateTrace] registered for [invoiceId]. *)
Definition processor (memory : VendorMemory) (invoiceId : string) : InvoiceProcessor := {|
  repository := Repo.withVendorMemories [memory] Sample.emptyRepository;
  contributingMemories := {[ invoiceId := [serviceDateTrace] ]};
  orders := [];
  uuidsDrawn := 0
|}.


Definition feedback (invoiceId : string) (action : FeedbackAction)
    (corrections : option (list FieldCorrection)) : HumanFeedback := {|
  fb_invoiceId := invoiceId; fb_action := action; fb_corrections := corrections;
  fb_timestamp := 0
|}.

(** The human gives the service date. *)
Definition serviceDateCorrection : FieldCorrection := {|
  fc_fieldName := "serviceDate"; fc_originalValue := VNull;
  fc_correctedValue := VString "2024-01-01"
|}.

End SampleLearn.

(** ** Vocabulary of the statements about the confidence arithmetic *)

Module ConfidenceSpec.

(** How far an action lets a memory act: flagged, then suggested, then
    auto-applied. *)
Definition rank (a : ThresholdAction) : nat :=
  match a with
  | flagged => 0
  | suggested => 1
  | auto_applied => 2
  end.

(** A confidence between 0 and the cap. *)
Definition inRange (c : Q) : Prop := (0 <= c <= maxConfidence CONFIDENCE_CONFIG)%Q.

(** A text of letters, digits and signs of the 7-bit alphabet, on which
    JavaScript changes the case of the letters A to Z alone. *)
Definition ascii7 (s : string) : bool :=
  CurrencySpec.allChars (fun c => (nat_of_ascii c <? 128)%nat) s.

End ConfidenceSpec.

(** ** Vocabulary of the statements about the repository *)

Module RepoSpec.

(** The columns of [UNIQUE(vendor_id, original_field_name)]. *)
Definition vendorPair (r : VendorMemory) : string * string :=
  (vm_vendorId r, vm_originalFieldName r).

(** The keys the schema declares, on the tables the services write: the
    primary keys, and the unique pair of the vendor memories. *)
Record wellKeyed (db : Repository) : Prop := {
  wk_vendor_ids : List.NoDup (map vm_id (vendor_memories db));
  wk_vendor_pairs : List.NoDup (map vendorPair (vendor_memories db));
  wk_correction_ids : List.NoDup (map cm_id (correction_memories db));
  wk_processed_ids : List.NoDup (map pi_id (processed_invoices db))
}.

End RepoSpec.

(** ** Vocabulary of the statements about the decision *)

Module ReviewSpec.

(** What lets the Decide stage do without a human: no duplicate warning,
    every field extracted with a confidence of at least 0.6 and named by some
    trace, every trace of a confidence of at least the suggestion threshold,
    no proposed correction, and no [tax_inclusive] pattern. *)
Definition unconcerned (applied : AppliedResult) (invoice : Invoice)
    (patterns : list DetectedPattern) (db : Repository) : bool :=
  match DecisionService.checkForDuplicates invoice db with Some _ => false | None => true end
  && forallb (fun kv => JsNum.geb (f_extractionConfidence (snd kv)) 0.6) (inv_fields invoice)
  && forallb (fun f => JsArr.includes f (map am_fieldName (appliedMemories applied)))
             (map fst (inv_fields invoice))
  && forallb (fun m => JsNum.geb (am_confidence m) (suggestionThreshold CONFIDENCE_CONFIG))
             (appliedMemories applied)
  && match proposedCorrections applied with [] => true | _ => false end
  && negb (ApplySpec.hasPattern tax_inclusive patterns).

End ReviewSpec.

(** * Verified properties *)

(** ** Sanity checks of the JavaScript helpers *)

Example toFixed_examples :
  JsNum.toFixed 2 (62 # 100) = "0.62"%string /\
  JsNum.toFixed 2 (3 # 1) = "3.00"%string /\
  JsNum.toFixed 0 (855 # 10) = "86"%string /\
  JsNum.toFixed 2 (- (1 # 200)) = "-0.01"%string /\
  JsNum.toString (19 # 100) = "0.19"%string /\
  JsNum.toString (2500 # 1) = "2500"%string.
Proof. repeat split; reflexivity. Qed.

(** ** Confidence arithmetic *)

Section ConfidenceFacts.

Local Open Scope Q_scope.

Lemma applyReinforcement_unfold c :
  applyReinforcement c = Qmin (c + 0.05 * (1 - c)) 0.95.
Proof. reflexivity. Qed.

Lemma applyPenalty_unfold c : applyPenalty c = Qmax (c * 0.7) 0.
Proof. reflexivity. Qed.

Lemma applyReinforcement_le_max c : applyReinforcement c <= 0.95.
Proof. rewrite applyReinforcement_unfold. apply Q.le_min_r. Qed.

Lemma applyReinforcement_increasing c : c <= 0.95 -> c <= applyReinforcement c.
Proof.
  intros Hc. rewrite applyReinforcement_unfold.
  apply Q.min_glb; [lra | exact Hc].
Qed.

Lemma applyPenalty_nonneg_arg c : 0 <= c -> applyPenalty c == c * 0.7.
Proof.
  intros Hc. rewrite applyPenalty_unfold. apply Q.max_l. lra.
Qed.

Lemma reinforced_bounds n :
  0.6 <= Nat.iter n applyReinforcement 0.6 <= 0.95.
Proof.
  induction n as [|n [IHlo IHhi]]; [cbv [Nat.iter nat_rect]; split; lra |].
  change (Nat.iter (S n) applyReinforcement 0.6)
    with (applyReinforcement (Nat.iter n applyReinforcement 0.6)).
  split; [| apply applyReinforcement_le_max].
  pose proof (applyReinforcement_increasing _ IHhi). lra.
Qed.

Lemma reinforced_monotone n m :
  (n <= m)%nat ->
  Nat.iter n applyReinforcement 0.6 <= Nat.iter m applyReinforcement 0.6.
Proof.
  induction 1 as [|m _ IH]; [lra |].
  change (Nat.iter (S m) applyReinforcement 0.6)
    with (applyReinforcement (Nat.iter m applyReinforcement 0.6)).
  pose proof (applyReinforcement_increasing _ (proj2 (reinforced_bounds m))). lra.
Qed.

(** The distance to 1 shrinks by the factor 0.95 with every reinforcement,
    until the cap is reached. *)
Lemma reinforced_lower n :
  Qmin (1 - 0.4 * Qpower 0.95 (Z.of_nat n)) 0.95 <= Nat.iter n applyReinforcement 0.6.
Proof.
  induction n as [|n IH].
  - cbv [Nat.iter nat_rect]. change (Z.of_nat 0) with 0%Z.
    eapply Qle_trans; [apply Q.le_min_l |]. vm_compute. discriminate.
  - change (Nat.iter (S n) applyReinforcement 0.6)
      with (applyReinforcement (Nat.iter n applyReinforcement 0.6)).
    rewrite applyReinforcement_unfold.
    assert (Hp : Qpower 0.95 (Z.of_nat (S n)) == 0.95 * Qpower 0.95 (Z.of_nat n)).
    { rewrite Nat2Z.inj_succ. unfold Z.succ. rewrite Qpower_plus by discriminate.
      change (Qpower 0.95 1) with 0.95. ring. }
    rewrite Hp.
    set (c := Nat.iter n applyReinforcement 0.6) in *.
    set (q := Qpower 0.95 (Z.of_nat n)) in *.
    apply Q.min_glb; [| apply Q.le_min_r].
    destruct (Q.min_spec (1 - 0.4 * q) 0.95) as [[_ Hm] | [_ Hm]]; rewrite Hm in IH.
    + eapply Qle_trans; [apply Q.le_min_l |]. lra.
    + eapply Qle_trans; [apply Q.le_min_r |]. lra.
Qed.

Lemma reinforced_20 : 0.85 <= Nat.iter 20 applyReinforcement 0.6.
Proof.
  eapply Qle_trans; [| apply (reinforced_lower 20)].
  apply Q.min_glb; vm_compute; discriminate.
Qed.

Lemma two_penalties c : 0.85 <= c <= 0.95 -> applyPenalty (applyPenalty c) < 0.5.
Proof.
  intros [Hlo Hhi].
  assert (H1 : applyPenalty c == c * 0.7) by (apply applyPenalty_nonneg_arg; lra).
  assert (H2 : applyPenalty (applyPenalty c) == applyPenalty c * 0.7).
  { apply applyPenalty_nonneg_arg. rewrite H1. lra. }
  rewrite H2, H1. lra.
Qed.

End ConfidenceFacts.

Module Binary64Facts.

Import Binary64.
Import Binary64.Reached.

Lemma reinforced_S n : reinforced (S n) = applyReinforcement (reinforced n).
Proof. reflexivity. Qed.

Lemma reinforced_41 : reinforced 41 = 0.95%float.
Proof. vm_compute. reflexivity. Qed.

Lemma cap_is_fixed : applyReinforcement 0.95 = 0.95%float.
Proof. vm_compute. reflexivity. Qed.

Lemma reinforced_from_41 k : reinforced (41 + k) = 0.95%float.
Proof.
  induction k as [|k IH].
  - rewrite Nat.add_0_r. apply reinforced_41.
  - rewrite Nat.add_succ_r, reinforced_S, IH. apply cap_is_fixed.
Qed.

Lemma holds_20_to_40 : forallb (fun n => holdsAt (reinforced n)) (seq 20 21) = true.
Proof. vm_compute. reflexivity. Qed.

Lemma holds_from_20 n : (20 <= n)%nat -> holdsAt (reinforced n) = true.
Proof.
  intros Hn. destruct (Nat.lt_ge_cases n 41) as [Hlt | Hge].
  - pose proof holds_20_to_40 as H. rewrite forallb_forall in H.
    apply H. apply in_seq. lia.
  - replace n with (41 + (n - 41))%nat by lia.
    rewrite reinforced_from_41. vm_compute. reflexivity.
Qed.

End Binary64Facts.

(** C1. Under the default configuration, in exact arithmetic:
    [applyReinforcement 0.6 = 0.62] and [applyPenalty 0.6 = 0.42]; twenty or
    more reinforcements of 0.6 give a confidence between 0.85 (the auto-apply
    threshold) and 0.95; two penalties applied to any confidence of that range
    give less than 0.50, the minimum threshold. The same on binary64: the
    reinforced value is within 1e-9 of 0.62, the penalized value is the double
    0.42, and every confidence reached by twenty or more reinforcements is in
    the range and falls below 0.50 after two penalties. *)
Theorem C1_reinforce_then_two_rejections :
  (applyReinforcement 0.6 == 0.62)%Q /\
  (applyPenalty 0.6 == 0.42)%Q /\
  (forall n, (20 <= n)%nat ->
     (autoApplyThreshold CONFIDENCE_CONFIG <= Nat.iter n applyReinforcement 0.6
      /\ Nat.iter n applyReinforcement 0.6 <= 0.95)%Q) /\
  (forall c, (0.85 <= c <= 0.95)%Q ->
     (applyPenalty (applyPenalty c) < minimumThreshold CONFIDENCE_CONFIG)%Q) /\
  PrimFloat.leb (PrimFloat.abs (Binary64.applyReinforcement 0.6 - 0.62)) 1e-9 = true /\
  Binary64.applyPenalty 0.6 = 0.42%float /\
  (forall n, (20 <= n)%nat ->
     let c := Nat.iter n Binary64.applyReinforcement 0.6%float in
     PrimFloat.leb 0.85 c = true /\ PrimFloat.leb c 0.95 = true /\
     PrimFloat.ltb (Binary64.applyPenalty (Binary64.applyPenalty c)) 0.5 = true).
Proof.
  split; [vm_compute; reflexivity |].
  split; [vm_compute; reflexivity |].
  split.
  { intros n Hn. split; [| apply reinforced_bounds].
    change (autoApplyThreshold CONFIDENCE_CONFIG) with 0.85%Q.
    pose proof reinforced_20. pose proof (reinforced_monotone 20 n Hn). lra. }
  split.
  { intros c Hc. change (minimumThreshold CONFIDENCE_CONFIG) with 0.50%Q.
    pose proof (two_penalties c Hc). lra. }
  split; [vm_compute; reflexivity |].
  split; [vm_compute; reflexivity |].
  intros n Hn c. subst c.
  pose proof (Binary64Facts.holds_from_20 n Hn) as H.
  unfold Binary64.Reached.holdsAt, Binary64.Reached.reinforced in H.
  apply andb_true_iff in H as [H H3]. apply andb_true_iff in H as [H1 H2].
  auto.
Qed.

(** The range is not empty: 0.9 is in it, and two penalties bring it to 0.441. *)
Lemma C1_witness :
  (applyPenalty (applyPenalty 0.9) < minimumThreshold CONFIDENCE_CONFIG)%Q.
Proof.
  apply (proj1 (proj2 (proj2 (proj2 C1_reinforce_then_two_rejections))) 0.9%Q).
  split; vm_compute; discriminate.
Defined.

(** ** Lists: filtering and the stable sort *)

Section ListFacts.

Context {A : Type}.

Lemma filter_Permutation (p : A -> bool) (l l' : list A) :
  Permutation l l' -> Permutation (List.filter p l) (List.filter p l').
Proof.
  induction 1 as [| x l l' _ IH | x y l | l l' l'' _ IH1 _ IH2]; simpl.
  - constructor.
  - destruct (p x); [constructor |]; exact IH.
  - destruct (p x), (p y); try reflexivity. constructor.
  - etransitivity; eassumption.
Qed.

Lemma filter_filter (p q : A -> bool) (l : list A) :
  List.filter p (List.filter q l) = List.filter (fun x => q x && p x) l.
Proof.
  induction l as [|x l IH]; [reflexivity |]. simpl.
  destruct (q x); simpl; [destruct (p x) |]; rewrite ?IH; reflexivity.
Qed.

Lemma insertSorted_Permutation (cmp : A -> A -> Q) (x : A) (l : list A) :
  Permutation (JsArr.insertSorted cmp x l) (x :: l).
Proof.
  induction l as [|y l IH]; simpl; [reflexivity |].
  destruct (Qle_bool (cmp x y) 0); [reflexivity |].
  rewrite IH. apply perm_swap.
Qed.

Lemma sort_Permutation (cmp : A -> A -> Q) (l : list A) :
  Permutation (JsArr.sort cmp l) l.
Proof.
  induction l as [|x l IH]; simpl; [reflexivity |].
  unfold JsArr.sort in *. simpl. rewrite insertSorted_Permutation.
  constructor. exact IH.
Qed.

Variable key : A -> Q.

Lemma insertSorted_descending (x : A) (l : list A) :
  StronglySorted (JsArr.descending key) l ->
  StronglySorted (JsArr.descending key) (JsArr.insertSorted (JsArr.byKeyDesc key) x l).
Proof.
  induction 1 as [| y l Hl IH Hy]; simpl.
  - repeat constructor.
  - destruct (Qle_bool (JsArr.byKeyDesc key x y) 0) eqn:E.
    + apply Qle_bool_iff in E. unfold JsArr.byKeyDesc in E.
      constructor; [constructor; assumption |].
      constructor; [unfold JsArr.descending; lra |].
      eapply List.Forall_impl; [| exact Hy]. unfold JsArr.descending. intros z Hz. lra.
    + assert (Hlt : ~ (JsArr.byKeyDesc key x y <= 0)%Q) by (rewrite <- Qle_bool_iff, E; discriminate).
      unfold JsArr.byKeyDesc in Hlt.
      constructor; [exact IH |].
      eapply Permutation_Forall; [symmetry; apply insertSorted_Permutation |].
      constructor; [unfold JsArr.descending; lra | exact Hy].
Qed.

Lemma sort_descending (l : list A) :
  StronglySorted (JsArr.descending key) (JsArr.sort (JsArr.byKeyDesc key) l).
Proof.
  induction l as [|x l IH]; [constructor |].
  apply insertSorted_descending. exact IH.
Qed.

End ListFacts.

(** ** Recall *)

Section RecallFacts.

Import RecallService.

Lemma filterByConfidence_Permutation {T : Type} (confidence : T -> Q) (l : list T) :
  Permutation (filterByConfidence confidence l)
    (List.filter (fun m => Qle_bool (minimumThreshold CONFIDENCE_CONFIG) (confidence m)) l).
Proof. apply sort_Permutation. Qed.

Lemma filterByConfidence_descending {T : Type} (confidence : T -> Q) (l : list T) :
  StronglySorted (JsArr.descending confidence) (filterByConfidence confidence l).
Proof. apply (sort_descending confidence). Qed.

Lemma filterByConfidence_threshold {T : Type} (confidence : T -> Q) (l : list T) :
  Forall (fun m => (minimumThreshold CONFIDENCE_CONFIG <= confidence m)%Q)
         (filterByConfidence confidence l).
Proof.
  eapply Permutation_Forall; [symmetry; apply filterByConfidence_Permutation |].
  apply List.Forall_forall. intros m Hm. apply filter_In in Hm as [_ Hm].
  apply Qle_bool_iff. exact Hm.
Qed.

(** The rows [findVendorMemories] selects. *)
Lemma findVendorMemories_Permutation vendorId db :
  Permutation (Repo.findVendorMemories vendorId db)
    (List.filter (fun r => String.eqb (vm_vendorId r) vendorId && vm_isActive r)
                 (vendor_memories db)).
Proof. apply sort_Permutation. Qed.

End RecallFacts.

(** C5. The vendor memories Recall returns are, row for row, the rows of the
    vendor table stored under the normalized vendor key that are active and
    have a confidence of at least the minimum threshold (0.50), in descending
    order of confidence; the recalled correction memories have a confidence of
    at least the threshold and are in descending order too. *)
Theorem C5_recall_filters_and_sorts (invoice : Invoice) (now : Z) (db : Repository) :
  let recalled := rr_memories (RecallService.recallMemories invoice now db) in
  let vendorKey := normalizeVendorName (inv_vendorId invoice) in
  Permutation (vendorMemories recalled)
    (List.filter (fun r => String.eqb (vm_vendorId r) vendorKey && vm_isActive r
                           && Qle_bool (minimumThreshold CONFIDENCE_CONFIG) (vm_confidence r))
                 (vendor_memories db))
  /\ StronglySorted (fun a b => (vm_confidence b <= vm_confidence a)%Q) (vendorMemories recalled)
  /\ (forall m, In m (vendorMemories recalled) <->
                In m (vendor_memories db) /\ vm_vendorId m = vendorKey
                /\ vm_isActive m = true /\ (0.50 <= vm_confidence m)%Q)
  /\ Forall (fun m => (0.50 <= cm_confidence m)%Q) (correctionMemories recalled)
  /\ StronglySorted (fun a b => (cm_confidence b <= cm_confidence a)%Q)
                    (correctionMemories recalled).
Proof.
  intros recalled vendorKey.
  assert (HP : Permutation (vendorMemories recalled)
    (List.filter (fun r => String.eqb (vm_vendorId r) vendorKey && vm_isActive r
                           && Qle_bool (minimumThreshold CONFIDENCE_CONFIG) (vm_confidence r))
                 (vendor_memories db))).
  { subst recalled. simpl. rewrite filterByConfidence_Permutation.
    rewrite (filter_Permutation _ _ _ (findVendorMemories_Permutation _ db)).
    rewrite filter_filter. reflexivity. }
  split; [exact HP |].
  split; [apply (filterByConfidence_descending vm_confidence) |].
  split.
  { intros m. split.
    - intros Hm. apply (Permutation_in _ HP) in Hm. apply filter_In in Hm as [Hin Hm].
      apply andb_true_iff in Hm as [Hm Hc]. apply andb_true_iff in Hm as [Hv Ha].
      apply String.eqb_eq in Hv. apply Qle_bool_iff in Hc. auto.
    - intros (Hin & Hv & Ha & Hc). apply (Permutation_in _ (Permutation_sym HP)).
      apply filter_In. split; [exact Hin |].
      rewrite Hv, String.eqb_refl, Ha. simpl. apply Qle_bool_iff. exact Hc. }
  split.
  - apply (filterByConfidence_threshold cm_confidence).
  - apply (filterByConfidence_descending cm_confidence).
Qed.

(** ** Decide: the overall confidence *)

Section OverallConfidenceFacts.

Import DecisionService.
Local Open Scope Q_scope.

Lemma noteConfidence_other (memConfMap : gmap string Q) m name :
  am_fieldName m <> name ->
  noteConfidence memConfMap m !! name = memConfMap !! name.
Proof.
  intros Hne. unfold noteConfidence.
  destruct (memConfMap !! am_fieldName m) as [existing|].
  - destruct (JsNum.eqb existing 0 || JsNum.gtb (am_confidence m) existing)%bool;
      [apply lookup_insert_ne; exact Hne | reflexivity].
  - apply lookup_insert_ne; exact Hne.
Qed.

Lemma noteConfidence_same (memConfMap : gmap string Q) m :
  noteConfidence memConfMap m !! am_fieldName m =
  Some (match memConfMap !! am_fieldName m with
        | Some existing =>
            if (JsNum.eqb existing 0 || JsNum.gtb (am_confidence m) existing)%bool
            then am_confidence m else existing
        | None => am_confidence m
        end).
Proof.
  unfold noteConfidence.
  destruct (memConfMap !! am_fieldName m) as [existing|] eqn:E.
  - destruct (JsNum.eqb existing 0 || JsNum.gtb (am_confidence m) existing)%bool;
      [apply lookup_insert_eq | exact E].
  - apply lookup_insert_eq.
Qed.

Lemma highest_snoc cs c :
  DecideSpec.highest (cs ++ [c]) =
  Some (match DecideSpec.highest cs with
        | Some b => Qmax b c
        | None => c
        end).
Proof. unfold DecideSpec.highest. rewrite fold_left_app. reflexivity. Qed.

Lemma traceConfidences_snoc memories m name :
  DecideSpec.traceConfidences (memories ++ [m]) name =
  DecideSpec.traceConfidences memories name
  ++ (if String.eqb (am_fieldName m) name then [am_confidence m] else []).
Proof.
  unfold DecideSpec.traceConfidences. rewrite List.filter_app, List.map_app. simpl.
  destruct (String.eqb (am_fieldName m) name); reflexivity.
Qed.

(** The map the code fills holds, for every field, the highest confidence of
    the field's traces. *)
Lemma memConfMap_highest memories name :
  Forall (fun m => 0 <= am_confidence m) memories ->
  DecideSpec.sameOption (fold_left noteConfidence memories ∅ !! name)
             (DecideSpec.highest (DecideSpec.traceConfidences memories name)).
Proof.
  induction memories as [|m memories IH] using rev_ind; intros Hpos.
  - simpl. rewrite lookup_empty. exact I.
  - apply Forall_app in Hpos as [Hpos Hm]. apply Forall_inv in Hm.
    specialize (IH Hpos).
    rewrite fold_left_app, traceConfidences_snoc. simpl.
    destruct (String.eqb (am_fieldName m) name) eqn:E.
    + apply String.eqb_eq in E. subst name.
      rewrite noteConfidence_same, highest_snoc.
      destruct (fold_left noteConfidence memories ∅ !! am_fieldName m) as [existing|],
        (DecideSpec.highest (DecideSpec.traceConfidences memories (am_fieldName m))) as [b|];
        simpl in *; try contradiction; [| reflexivity].
      destruct (JsNum.eqb existing 0) eqn:E0; simpl.
      * apply Qeq_bool_iff in E0. symmetry. apply Q.max_r. rewrite <- IH, E0. exact Hm.
      * unfold JsNum.gtb. destruct (Qle_bool (am_confidence m) existing) eqn:E1; simpl.
        -- apply Qle_bool_iff in E1. rewrite IH. symmetry. apply Q.max_l.
           rewrite <- IH. exact E1.
        -- assert (Hlt : ~ am_confidence m <= existing)
             by (rewrite <- Qle_bool_iff, E1; discriminate).
           symmetry. apply Q.max_r. rewrite <- IH. lra.
    + apply String.eqb_neq in E. rewrite noteConfidence_other by exact E.
      rewrite app_nil_r. exact IH.
Qed.

Lemma fold_left_Qplus (xs : list Q) (a : Q) :
  fold_left Qplus xs a == a + DecideSpec.sum xs.
Proof.
  revert a. induction xs as [|x xs IH]; intros a; simpl.
  - ring.
  - rewrite IH. unfold DecideSpec.sum. simpl. ring.
Qed.

Lemma sum_Forall2 (xs ys : list Q) :
  Forall2 Qeq xs ys -> DecideSpec.sum xs == DecideSpec.sum ys.
Proof.
  induction 1 as [|x y xs ys Hxy _ IH]; simpl; [reflexivity |].
  unfold DecideSpec.sum in *. simpl. rewrite Hxy, IH. reflexivity.
Qed.

(** The contribution of one field, as the code and as the specification
    compute it. *)
Lemma fieldConfidence_agrees memories name field :
  Forall (fun m => 0 <= am_confidence m) memories ->
  match fold_left noteConfidence memories ∅ !! name with
  | Some memConf => memConf * Qmin (f_extractionConfidence field) 1
  | None => Qmin (f_extractionConfidence field) (suggestionThreshold CONFIDENCE_CONFIG - 0.01)
  end == DecideSpec.fieldConfidence 0.01 memories name field.
Proof.
  intros Hpos. unfold DecideSpec.fieldConfidence.
  pose proof (memConfMap_highest memories name Hpos) as H.
  destruct (fold_left noteConfidence memories ∅ !! name),
    (DecideSpec.highest (DecideSpec.traceConfidences memories name));
    simpl in H; try contradiction; [rewrite H |]; reflexivity.
Qed.

Lemma clamped_mean_agrees (confs spec : list Q) :
  Forall2 Qeq confs spec ->
  Qmax 0 (Qmin 1 (fold_left Qplus confs 0 / inject_Z (Z.of_nat (length confs))))
  == DecideSpec.clamp01 (DecideSpec.mean spec).
Proof.
  intros H2. unfold DecideSpec.clamp01, DecideSpec.mean.
  rewrite fold_left_Qplus, (sum_Forall2 _ _ H2), (Forall2_length _ _ _ H2), Qplus_0_l.
  reflexivity.
Qed.

End OverallConfidenceFacts.

(** C3. For applied-memory traces of non-negative confidence, the overall
    confidence the Decide stage computes equals the specification's: the mean
    over the invoice fields of [memoryConfidence * min(extractionConfidence, 1)]
    for a field with a trace and [min(extractionConfidence, suggestionThreshold
    - 0.01)] for a field without, clamped to [0, 1], and 0 for an invoice
    without fields. *)
Theorem C3_overall_confidence (invoice : Invoice) (memories : list AppliedMemory) :
  Forall (fun m => (0 <= am_confidence m)%Q) memories ->
  (DecisionService.calcOverallConfidence invoice memories
   == DecideSpec.overallConfidence 0.01 invoice memories)%Q.
Proof.
  intros Hpos.
  unfold DecisionService.calcOverallConfidence, DecideSpec.overallConfidence.
  destruct (inv_fields invoice) as [|kv fields]; [reflexivity |].
  cbn [map]. apply clamped_mean_agrees.
  constructor; [apply fieldConfidence_agrees; exact Hpos |].
  induction fields as [|kv' fields IH]; cbn [map]; constructor;
    [apply fieldConfidence_agrees; exact Hpos | exact IH].
Qed.

(** ** Apply: the loop over the correction memories *)

Section ApplyFacts.

Import ApplyService.

Lemma applyCorrectionMemory_traces st cm :
  appliedMemories (applyCorrectionMemory st cm)
  = appliedMemories st ++ [ApplySpec.correctionTrace cm].
Proof.
  unfold applyCorrectionMemory, ApplySpec.correctionTrace.
  destruct (mapConfidenceToAction (cm_confidence cm)); reflexivity.
Qed.

Lemma applyCorrectionMemory_keeps st cm name :
  ApplySpec.overwrites name cm = false ->
  normalizedInvoice (applyCorrectionMemory st cm) !! name = normalizedInvoice st !! name.
Proof.
  unfold ApplySpec.overwrites, applyCorrectionMemory.
  destruct (mapConfidenceToAction (cm_confidence cm)); intros H; simpl; try reflexivity.
  apply lookup_insert_ne. apply String.eqb_neq. exact H.
Qed.

Lemma corrections_keep (cms : list CorrectionMemory) st name :
  forallb (fun cm => negb (ApplySpec.overwrites name cm)) cms = true ->
  normalizedInvoice (fold_left applyCorrectionMemory cms st) !! name
  = normalizedInvoice st !! name.
Proof.
  revert st. induction cms as [|cm cms IH]; intros st H; simpl in *; [reflexivity |].
  apply andb_true_iff in H as [Hcm H]. rewrite IH by exact H.
  apply applyCorrectionMemory_keeps. apply negb_true_iff. exact Hcm.
Qed.

Lemma corrections_traces_grow (cms : list CorrectionMemory) st :
  appliedMemories (fold_left applyCorrectionMemory cms st)
  = appliedMemories st ++ map ApplySpec.correctionTrace cms.
Proof.
  revert st. induction cms as [|cm cms IH]; intros st; simpl.
  - symmetry. apply app_nil_r.
  - rewrite IH, applyCorrectionMemory_traces, <- app_assoc. reflexivity.
Qed.

Lemma corrections_proposals_grow (cms : list CorrectionMemory) st :
  exists more,
    proposedCorrections (fold_left applyCorrectionMemory cms st)
    = proposedCorrections st ++ more.
Proof.
  revert st. induction cms as [|cm cms IH]; intros st; simpl.
  - exists []. symmetry. apply app_nil_r.
  - destruct (IH (applyCorrectionMemory st cm)) as [more Hmore]. rewrite Hmore.
    unfold applyCorrectionMemory.
    destruct (mapConfidenceToAction (cm_confidence cm)); simpl;
      try (exists more; reflexivity).
    eexists. rewrite <- app_assoc. reflexivity.
Qed.

(** The pattern detection writes no key but [currency], and that one only
    where the record has no currency yet. *)
Lemma detectPatterns_record invoice st :
  snd (detectPatterns invoice st) = snd (recoverCurrency (loweredText invoice) st).
Proof.
  unfold detectPatterns, detectTaxInclusive, detectSkuMapping, detectSkonto.
  repeat match goal with |- context [if ?b then _ else _] => destruct b end; reflexivity.
Qed.

Lemma recoverCurrency_keeps text st name :
  name <> "currency"%string \/ JsVal.truthy (readKey (snd st) "currency") = true ->
  snd (recoverCurrency text st) !! name = snd st !! name.
Proof.
  intros H. unfold recoverCurrency.
  destruct (JsVal.truthy (readKey (snd st) "currency")) eqn:E; simpl; [reflexivity |].
  destruct H as [H | H]; [| discriminate].
  destruct (Regex.group 1 (Regex.exec currencyRegex text)) as [c|]; [| reflexivity].
  destruct (JsVal.truthyStr (Some c)); [| reflexivity].
  simpl. apply lookup_insert_ne. congruence.
Qed.

End ApplyFacts.

(** C6. When the Apply stage handles a correction memory [cm] (after the
    memories [before] it in the recalled list): an auto-applied memory
    overwrites its field of the normalized record with the corrected value and
    proposes nothing; a suggested one leaves the record as it is and emits one
    proposed correction for the field, carrying the corrected value; a flagged
    one changes neither the record nor the proposals; in all three cases the
    trace (memory id, kind correction, field, action, confidence) is appended.
    In the result of the stage the trace is recorded, the proposal of a
    suggested memory is listed, and the field of an auto-applied memory holds
    the corrected value unless a later memory overwrites it or the currency
    recovery replaces an empty currency. *)
Theorem C6_correction_memory_applied (invoice : Invoice) (memories : RecalledMemories)
    (now : Z) (before after : list CorrectionMemory) (cm : CorrectionMemory) :
  correctionMemories memories = before ++ cm :: after ->
  let st := ApplySpec.afterCorrections invoice memories before in
  let st' := ApplySpec.afterCorrections invoice memories (before ++ [cm]) in
  let result := ar_appliedResult (ApplyService.applyMemories invoice memories now) in
  let field := cm_fieldName cm in
  let corrected := VString (cm_correctedValue cm) in
  appliedMemories st' = appliedMemories st ++ [ApplySpec.correctionTrace cm]
  /\ In (ApplySpec.correctionTrace cm) (appliedMemories result)
  /\ match mapConfidenceToAction (cm_confidence cm) with
     | auto_applied =>
         normalizedInvoice st' = <[field := corrected]> (normalizedInvoice st)
         /\ proposedCorrections st' = proposedCorrections st
         /\ (forallb (fun later => negb (ApplySpec.overwrites field later)) after = true ->
             field <> "currency"%string \/ cm_correctedValue cm <> ""%string ->
             normalizedInvoice result !! field = Some corrected)
     | suggested =>
         normalizedInvoice st' = normalizedInvoice st
         /\ exists proposal,
              proposedCorrections st' = proposedCorrections st ++ [proposal]
              /\ In proposal (proposedCorrections result)
              /\ pc_fieldName proposal = field
              /\ pc_currentValue proposal = readKey (normalizedInvoice st) field
              /\ pc_suggestedValue proposal = corrected
              /\ pc_memoryId proposal = cm_id cm
              /\ pc_confidence proposal = cm_confidence cm
     | flagged =>
         normalizedInvoice st' = normalizedInvoice st
         /\ proposedCorrections st' = proposedCorrections st
     end.
Proof.
  intros Hsplit st st' result field corrected.
  assert (Hstep : st' = ApplyService.applyCorrectionMemory st cm).
  { subst st st'. unfold ApplySpec.afterCorrections. rewrite fold_left_app. reflexivity. }
  assert (Hall : ApplyService.applyRecalled invoice memories
                 = fold_left ApplyService.applyCorrectionMemory after st').
  { unfold ApplyService.applyRecalled. rewrite Hsplit.
    replace (before ++ cm :: after) with ((before ++ [cm]) ++ after)
      by (rewrite <- app_assoc; reflexivity).
    rewrite fold_left_app. reflexivity. }
  assert (Htraces : appliedMemories result
                    = appliedMemories st' ++ map ApplySpec.correctionTrace after).
  { subst result. unfold ApplyService.applyMemories. simpl.
    rewrite Hall. apply corrections_traces_grow. }
  assert (Hprops : exists more, proposedCorrections result = proposedCorrections st' ++ more).
  { subst result. unfold ApplyService.applyMemories. simpl.
    rewrite Hall. apply corrections_proposals_grow. }
  assert (Hrecord : forall name,
            forallb (fun later => negb (ApplySpec.overwrites name later)) after = true ->
            name <> "currency"%string \/ JsVal.truthy (readKey (normalizedInvoice st') "currency") = true ->
            normalizedInvoice result !! name = normalizedInvoice st' !! name).
  { intros name Hlater Hcur. subst result. unfold ApplyService.applyMemories. simpl.
    rewrite detectPatterns_record, Hall. simpl.
    rewrite recoverCurrency_keeps.
    - simpl. apply corrections_keep. exact Hlater.
    - simpl. destruct Hcur as [Hcur | Hcur]; [left; exact Hcur |].
      destruct (String.eqb_spec name "currency") as [-> | Hne]; [| left; exact Hne].
      right. unfold readKey in *. rewrite corrections_keep by exact Hlater. exact Hcur. }
  split; [rewrite Hstep; apply applyCorrectionMemory_traces |].
  split.
  { rewrite Htraces, Hstep, applyCorrectionMemory_traces.
    apply in_or_app. left. apply in_or_app. right. left. reflexivity. }
  destruct (mapConfidenceToAction (cm_confidence cm)) eqn:Haction.
  - assert (Hn : normalizedInvoice st' = <[field := corrected]> (normalizedInvoice st)).
    { rewrite Hstep. unfold ApplyService.applyCorrectionMemory. rewrite Haction. reflexivity. }
    split; [exact Hn |].
    split; [rewrite Hstep; unfold ApplyService.applyCorrectionMemory; rewrite Haction;
            reflexivity |].
    intros Hlater Hcur. rewrite Hrecord; [rewrite Hn; apply lookup_insert_eq | exact Hlater |].
    destruct Hcur as [Hcur | Hcur]; [left; exact Hcur |].
    destruct (String.eqb_spec field "currency") as [Heq | Hne]; [| left; exact Hne].
    right. unfold readKey. rewrite Hn, <- Heq, lookup_insert_eq. simpl.
    apply negb_true_iff. apply String.eqb_neq. exact Hcur.
  - split; [rewrite Hstep; unfold ApplyService.applyCorrectionMemory; rewrite Haction;
            reflexivity |].
    eexists. split.
    { rewrite Hstep. unfold ApplyService.applyCorrectionMemory. rewrite Haction. reflexivity. }
    split.
    { destruct Hprops as [more ->]. rewrite Hstep.
      unfold ApplyService.applyCorrectionMemory. rewrite Haction. simpl.
      apply in_or_app. left. apply in_or_app. right. left. reflexivity. }
    repeat split.
  - rewrite Hstep. unfold ApplyService.applyCorrectionMemory. rewrite Haction.
    split; reflexivity.
Qed.

(** ** Regular expressions: literals and alternatives *)

Section RegexFacts.

Import Regex RegexSpec.

Lemma run_chr ci c st k :
  run (chr ci c) st k =
  match rest st with
  | String x s' =>
      if sameChar ci c x then k {| prev := Some x; rest := s'; caps := caps st |} else None
  | EmptyString => None
  end.
Proof. reflexivity. Qed.

Lemma run_lit ci p st k :
  run (lit ci p) st k =
  match litEnd ci p st with
  | Some st' => k st'
  | None => None
  end.
Proof.
  revert st. induction p as [|c p IH]; intros st; [reflexivity |].
  destruct p as [|c' p'].
  - simpl lit. rewrite run_chr. simpl. destruct (rest st) as [|x s']; [reflexivity |].
    destruct (sameChar ci c x); reflexivity.
  - change (lit ci (String c (String c' p')))
      with (Seq (chr ci c) (lit ci (String c' p'))).
    change (run (Seq (chr ci c) (lit ci (String c' p'))) st k)
      with (run (chr ci c) st (fun st' => run (lit ci (String c' p')) st' k)).
    rewrite run_chr.
    change (litEnd ci (String c (String c' p')) st)
      with (match rest st with
            | String x s' =>
                if sameChar ci c x
                then litEnd ci (String c' p') {| prev := Some x; rest := s'; caps := caps st |}
                else None
            | EmptyString => None
            end).
    destruct (rest st) as [|x s']; [reflexivity |].
    destruct (sameChar ci c x); [apply IH | reflexivity].
Qed.

Lemma litEnd_startsWith p st :
  is_Some (litEnd false p st) <-> Js.startsWith p (rest st) = true.
Proof.
  revert st. induction p as [|c p IH]; intros st; simpl.
  - split; [reflexivity | intros _; eexists; reflexivity].
  - destruct (rest st) as [|x s'] eqn:E.
    + split; [intros [? H]; discriminate | discriminate].
    + unfold sameChar. rewrite (Ascii.eqb_sym x c).
      destruct (Ascii.eqb c x); simpl.
      * rewrite IH. reflexivity.
      * split; [intros [? H]; discriminate | discriminate].
Qed.

Lemma includes_anySuffix p s : Js.includes p s = anySuffix (Js.startsWith p) s.
Proof.
  induction s as [|c s IH]; [reflexivity |].
  simpl. simpl in IH. rewrite IH. reflexivity.
Qed.

Lemma anySuffix_orb d1 d2 s :
  anySuffix (fun x => d1 x || d2 x) s = anySuffix d1 s || anySuffix d2 s.
Proof.
  induction s as [|c s IH]; simpl.
  - rewrite !orb_false_r. reflexivity.
  - rewrite IH. destruct (d1 (String c s)), (d2 (String c s)), (anySuffix d1 s); reflexivity.
Qed.

(** When a match at a start is decided by the text ahead alone, [test]
    asks whether some suffix of the text passes. *)
Lemma searchFrom_anySuffix r d :
  (forall p s, is_Some (run r {| prev := p; rest := s; caps := [] |} Some) <-> d s = true) ->
  forall p s, is_Some (searchFrom r p s) <-> anySuffix d s = true.
Proof.
  intros Hd p s. revert p. induction s as [|c s IH]; intros p.
  - simpl. specialize (Hd p EmptyString). rewrite orb_false_r.
    destruct (run r {| prev := p; rest := EmptyString; caps := [] |} Some) as [st'|].
    + split; [intros _; apply Hd | intros _]; eexists; reflexivity.
    + split; [intros [? H]; discriminate |].
      intros H. apply Hd in H. destruct H as [? H]. discriminate.
  - simpl. specialize (Hd p (String c s)).
    destruct (run r {| prev := p; rest := String c s; caps := [] |} Some) as [st'|].
    + split; [intros _ | intros _; eexists; reflexivity].
      apply orb_true_iff. left. apply Hd. eexists; reflexivity.
    + rewrite IH. destruct (d (String c s)) eqn:E; simpl; [| reflexivity].
      destruct (proj2 Hd eq_refl) as [? H]. discriminate.
Qed.

Lemma test_true r s : test r s = true <-> is_Some (searchFrom r None s).
Proof.
  unfold test, exec. destruct (searchFrom r None s).
  - split; [intros _; eexists; reflexivity | reflexivity].
  - split; [discriminate | intros [? H]; discriminate].
Qed.

(** [/p1|p2|p3/] passes where the text contains one of the three literals. *)
Lemma test_three_literals p1 p2 p3 s :
  test (alts [lit false p1; lit false p2; lit false p3]) s
  = Js.includes p1 s || Js.includes p2 s || Js.includes p3 s.
Proof.
  apply eq_true_iff_eq. rewrite test_true.
  rewrite !includes_anySuffix, <- !anySuffix_orb.
  apply searchFrom_anySuffix. intros p t.
  change (alts [lit false p1; lit false p2; lit false p3])
    with (Alt (lit false p1) (Alt (lit false p2) (lit false p3))).
  simpl run. rewrite !run_lit.
  pose proof (litEnd_startsWith p1 {| prev := p; rest := t; caps := [] |}) as H1.
  pose proof (litEnd_startsWith p2 {| prev := p; rest := t; caps := [] |}) as H2.
  pose proof (litEnd_startsWith p3 {| prev := p; rest := t; caps := [] |}) as H3.
  simpl in H1, H2, H3.
  destruct (litEnd false p1 _) as [s1|].
  { rewrite (proj1 H1) by (eexists; reflexivity). simpl.
    split; [reflexivity | intros _; eexists; reflexivity]. }
  destruct (litEnd false p2 _) as [s2|].
  { rewrite (proj1 H2) by (eexists; reflexivity). rewrite orb_true_r. simpl.
    split; [reflexivity | intros _; eexists; reflexivity]. }
  destruct (Js.startsWith p1 t); [destruct (proj2 H1 eq_refl); discriminate |].
  destruct (Js.startsWith p2 t); [destruct (proj2 H2 eq_refl); discriminate |].
  simpl. destruct (litEnd false p3 _); exact H3.
Qed.

End RegexFacts.

(** ** Apply and Decide: detected patterns *)

Section PatternFacts.

Import ApplyService.

Lemma hasPattern_snoc t ps p :
  ApplySpec.hasPattern t (ps ++ [p]) = ApplySpec.hasPattern t ps || ApplySpec.hasPattern t [p].
Proof. unfold ApplySpec.hasPattern. rewrite existsb_app. reflexivity. Qed.

Lemma recoverCurrency_tax text st :
  ApplySpec.hasPattern tax_inclusive (fst (recoverCurrency text st))
  = ApplySpec.hasPattern tax_inclusive (fst st).
Proof.
  unfold recoverCurrency.
  destruct (negb (JsVal.truthy (readKey (snd st) "currency"))); [| reflexivity].
  destruct (Regex.group 1 (Regex.exec currencyRegex text)) as [c|]; [| reflexivity].
  destruct (JsVal.truthyStr (Some c)); [| reflexivity].
  simpl fst. rewrite hasPattern_snoc. apply orb_false_r.
Qed.

Lemma detectSkonto_tax text st :
  ApplySpec.hasPattern tax_inclusive (fst (detectSkonto text st))
  = ApplySpec.hasPattern tax_inclusive (fst st).
Proof.
  unfold detectSkonto.
  destruct (Js.includes "skonto" text || Regex.test skontoTermsRegex text); [| reflexivity].
  simpl fst. rewrite hasPattern_snoc. apply orb_false_r.
Qed.

Lemma detectSkuMapping_tax text st :
  ApplySpec.hasPattern tax_inclusive (fst (detectSkuMapping text st))
  = ApplySpec.hasPattern tax_inclusive (fst st).
Proof.
  unfold detectSkuMapping. destruct (Regex.test freightRegex text); [| reflexivity].
  simpl fst. rewrite hasPattern_snoc. apply orb_false_r.
Qed.

Lemma detectTaxInclusive_tax text st :
  ApplySpec.hasPattern tax_inclusive (fst (detectTaxInclusive text st))
  = ApplySpec.hasPattern tax_inclusive (fst st)
    || Js.includes "incl. vat" text || Js.includes "mwst. inkl" text
    || Js.includes "inkl. mwst" text.
Proof.
  unfold detectTaxInclusive, taxInclusiveRegex. rewrite test_three_literals.
  destruct (Js.includes "incl. vat" text || Js.includes "mwst. inkl" text
            || Js.includes "inkl. mwst" text) eqn:E.
  - simpl fst. rewrite hasPattern_snoc.
    destruct (ApplySpec.hasPattern tax_inclusive (fst st)); simpl;
      [reflexivity | symmetry; exact E].
  - apply orb_false_iff in E as [E E3]. apply orb_false_iff in E as [E1 E2].
    rewrite E1, E2, E3, !orb_false_r. reflexivity.
Qed.

Lemma detectTaxInclusive_record text st : snd (detectTaxInclusive text st) = snd st.
Proof. unfold detectTaxInclusive. destruct (Regex.test taxInclusiveRegex text); reflexivity. Qed.

Import DecisionService.

Lemma notePattern_review ps acc :
  fst (fold_left notePattern ps acc) = fst acc || ApplySpec.hasPattern tax_inclusive ps.
Proof.
  revert acc. induction ps as [|p ps IH]; intros acc; cbn [fold_left].
  - symmetry. apply orb_false_r.
  - rewrite IH. unfold notePattern, ApplySpec.hasPattern. cbn [fst existsb].
    destruct (dp_type p), (fst acc); reflexivity.
Qed.

End PatternFacts.

(** C8, as amended. The Apply stage emits a pattern of type [tax_inclusive]
    exactly when the lower-cased raw text contains one of the phrases
    [incl. vat], [mwst. inkl], [inkl. mwst]; the block that detects it leaves
    the normalized record as it found it, so the record of the result is the
    one the memories and the currency recovery produced; and the Decide stage
    requires human review whenever a [tax_inclusive] pattern is among the
    detected patterns. *)
Theorem C8_tax_inclusive_pattern (invoice : Invoice) (memories : RecalledMemories) (now : Z) :
  let text := ApplyService.loweredText invoice in
  let result := ApplyService.applyMemories invoice memories now in
  ApplySpec.hasPattern tax_inclusive (ar_detectedPatterns result)
  = (Js.includes "incl. vat" text || Js.includes "mwst. inkl" text
     || Js.includes "inkl. mwst" text)
  /\ (forall st, snd (ApplyService.detectTaxInclusive text st) = snd st)
  /\ normalizedInvoice (ar_appliedResult result)
     = snd (ApplyService.recoverCurrency text
              ([], normalizedInvoice (ApplyService.applyRecalled invoice memories)))
  /\ (forall appliedResult inv patterns now' db,
        ApplySpec.hasPattern tax_inclusive patterns = true ->
        requiresHumanReview
          (dr_decision (DecisionService.makeDecision appliedResult inv patterns now' db))
        = true).
Proof.
  intros text result. split; [| split; [| split]].
  - subst result. unfold ApplyService.applyMemories. cbn [ar_detectedPatterns].
    unfold ApplyService.detectPatterns. fold text.
    rewrite detectTaxInclusive_tax, detectSkuMapping_tax, detectSkonto_tax,
      recoverCurrency_tax. reflexivity.
  - intros st. apply detectTaxInclusive_record.
  - subst result. unfold ApplyService.applyMemories.
    cbn [ar_appliedResult normalizedInvoice]. apply detectPatterns_record.
  - intros appliedResult inv patterns now' db Htax.
    unfold DecisionService.makeDecision. cbn [dr_decision requiresHumanReview].
    rewrite notePattern_review, Htax. apply orb_true_r.
Qed.

(** C8, as stated, fails: a raw text with the phrase [incl. tax] yields no
    [tax_inclusive] pattern. *)
Lemma C8_counterexample :
  let invoice := Sample.partsInvoice "INV-B-009" "Total 2380.00 EUR, prices incl. tax" in
  ApplySpec.hasPattern tax_inclusive
    (ar_detectedPatterns (ApplyService.applyMemories invoice Sample.noMemories 0)) = false
  /\ Js.includes "incl. tax" (ApplyService.loweredText invoice) = true.
Proof. split; vm_compute; reflexivity. Qed.

(** ** Regular expressions: the currency token *)

Section StringFacts.

Lemma append_cons (x : ascii) (a b : string) : String x a +:+ b = String x (a +:+ b).
Proof. reflexivity. Qed.

Lemma append_empty_l (b : string) : "" +:+ b = b.
Proof. reflexivity. Qed.

Lemma append_assoc (a b c : string) : (a +:+ b) +:+ c = a +:+ (b +:+ c).
Proof.
  induction a as [|x a IH]; [reflexivity |].
  rewrite !append_cons, IH. reflexivity.
Qed.

Lemma append_empty_r (a : string) : a +:+ "" = a.
Proof. induction a as [|x a IH]; [reflexivity | rewrite append_cons, IH; reflexivity]. Qed.

Lemma length_append (a b : string) :
  String.length (a +:+ b) = (String.length a + String.length b)%nat.
Proof.
  induction a as [|x a IH]; [reflexivity |].
  rewrite append_cons. simpl. rewrite IH. reflexivity.
Qed.

Lemma substring_append (a b : string) : substring 0 (String.length a) (a +:+ b) = a.
Proof.
  induction a as [|x a IH]; [destruct b; reflexivity |].
  rewrite append_cons. simpl. rewrite IH. reflexivity.
Qed.

Lemma lastOf_cons (x : ascii) (a : string) :
  a <> EmptyString -> RegexSpec.lastOf (String x a) = RegexSpec.lastOf a.
Proof. destruct a; [congruence | reflexivity]. Qed.

Lemma lower_is_letter (x : ascii) : Js.isLower (Js.lowerChar x) = true -> Js.isWord x = true.
Proof. destruct x as [[] [] [] [] [] [] [] []]; vm_compute; intros H; congruence. Qed.

Lemma lowerChar_lower (c : ascii) : Js.isLower c = true -> Js.lowerChar c = c.
Proof. destruct c as [[] [] [] [] [] [] [] []]; vm_compute; intros H; congruence. Qed.

End StringFacts.

Section LiteralFacts.

Import Regex RegexSpec.

(** What reading a literal, ignoring case, consumes. *)
Lemma litEnd_reads p st st' :
  litEnd true p st = Some st' ->
  exists mid,
    rest st = mid +:+ rest st'
    /\ Js.toLowerCase mid = Js.toLowerCase p
    /\ caps st' = caps st
    /\ match p with
       | EmptyString => prev st' = prev st
       | String _ _ => prev st' = lastOf mid
       end.
Proof.
  revert st. induction p as [|c p IH]; intros st H; simpl in H.
  - inversion H; subst. exists EmptyString. repeat split.
  - destruct (rest st) as [|x s'] eqn:E; [discriminate |].
    unfold sameChar in H. destruct (Ascii.eqb (Js.lowerChar x) (Js.lowerChar c)) eqn:Ex;
      [| discriminate].
    apply Ascii.eqb_eq in Ex.
    destruct (IH _ H) as (mid & Hrest & Hlow & Hcaps & Hprev). simpl in *.
    exists (String x mid). split; [rewrite append_cons, Hrest; reflexivity |].
    split; [simpl; unfold Js.toLowerCase in *; simpl; rewrite Ex, Hlow; reflexivity |].
    split; [exact Hcaps |].
    destruct p as [|c' p'].
    + simpl in H. inversion H; subst. simpl in *.
      destruct mid; [reflexivity |]. simpl in Hlow. discriminate.
    + rewrite Hprev. destruct mid; [simpl in Hlow; discriminate | reflexivity].
Qed.

Lemma litEnd_accepts p mid post pv cs :
  Js.toLowerCase mid = Js.toLowerCase p ->
  exists st',
    litEnd true p {| prev := pv; rest := mid +:+ post; caps := cs |} = Some st'
    /\ rest st' = post /\ caps st' = cs
    /\ match p with
       | EmptyString => prev st' = pv
       | String _ _ => prev st' = lastOf mid
       end.
Proof.
  revert mid pv. induction p as [|c p IH]; intros mid pv H.
  - destruct mid; [| discriminate]. eexists. repeat split.
  - destruct mid as [|x mid]; [discriminate |].
    unfold Js.toLowerCase in H. simpl in H. inversion H as [[Hx Hm]].
    rewrite append_cons. simpl. unfold sameChar. rewrite Hx, Ascii.eqb_refl.
    destruct (IH mid (Some x) Hm) as (st' & Hl & Hr & Hc & Hp).
    exists st'. repeat split; try assumption.
    destruct p as [|c' p'].
    + destruct mid; [| discriminate]. simpl in Hl. inversion Hl; subst. reflexivity.
    + rewrite Hp. destruct mid; [discriminate | reflexivity].
Qed.

End LiteralFacts.

Section CurrencyFacts.

Import Regex RegexSpec CurrencySpec ApplyService.

Lemma run_Alt a b st k :
  run (Alt a b) st k = match run a st k with Some x => Some x | None => run b st k end.
Proof. reflexivity. Qed.

Lemma run_currencyRegex st k :
  run currencyRegex st k =
  if xorb (isWordOpt (prev st)) (isWordOpt (headOf (rest st)))
  then run (alts [lit true "eur"; lit true "usd"; lit true "chf"; lit true "gbp"]) st
           (closeWord st k)
  else None.
Proof. reflexivity. Qed.

(** A text that is a lower-case word up to case consists of word characters. *)
Lemma letters_of_code mid code :
  Js.toLowerCase mid = code -> allChars Js.isLower code = true ->
  allChars Js.isWord mid = true.
Proof.
  revert code. induction mid as [|x mid IH]; intros code H Hc; [reflexivity |].
  unfold Js.toLowerCase in H. simpl in H. subst code. simpl in Hc.
  apply andb_true_iff in Hc as [Hx Hc]. simpl.
  rewrite (lower_is_letter x Hx). apply (IH _ eq_refl Hc).
Qed.

Lemma allChars_head p s : s <> EmptyString -> allChars p s = true ->
  match headOf s with Some c => p c = true | None => False end.
Proof. destruct s; [congruence |]. simpl. intros _ H. apply andb_true_iff in H. tauto. Qed.

Lemma allChars_last p s : s <> EmptyString -> allChars p s = true ->
  match lastOf s with Some c => p c = true | None => False end.
Proof.
  induction s as [|x s IH]; [congruence |]. intros _ H. simpl in H.
  apply andb_true_iff in H as [Hx H]. destruct s as [|y s]; [exact Hx |].
  apply IH; [discriminate | exact H].
Qed.

Lemma headOf_append a b : a <> EmptyString -> headOf (a +:+ b) = headOf a.
Proof. destruct a; [congruence | reflexivity]. Qed.

Lemma toLowerCase_empty mid : Js.toLowerCase mid = EmptyString -> mid = EmptyString.
Proof. destruct mid; [reflexivity | discriminate]. Qed.

(** One alternative of the expression: what a match through it shows. *)
Lemma code_alternative_sound code st st2 :
  code <> EmptyString -> allChars Js.isLower code = true ->
  Js.toLowerCase code = code ->
  xorb (isWordOpt (prev st)) (isWordOpt (headOf (rest st))) = true ->
  match litEnd true code st with
  | Some st' => closeWord st Some st'
  | None => None
  end = Some st2 ->
  exists mid,
    rest st = mid +:+ rest st2 /\ Js.toLowerCase mid = code
    /\ isWordOpt (prev st) = false /\ isWordOpt (headOf (rest st2)) = false
    /\ caps st2 = (1%nat, mid) :: caps st.
Proof.
  intros Hne Hlow Hid Hb H.
  destruct (litEnd true code st) as [st'|] eqn:El; [| discriminate].
  apply litEnd_reads in El as (mid & Hrest & Hmid & Hcaps & Hprev).
  rewrite Hid in Hmid.
  assert (Hmne : mid <> EmptyString).
  { intros ->. apply Hne. symmetry. exact Hmid. }
  pose proof (letters_of_code _ _ Hmid Hlow) as Hw.
  pose proof (allChars_head _ _ Hmne Hw) as Hh.
  pose proof (allChars_last _ _ Hmne Hw) as Hl.
  destruct code as [|c0 code']; [congruence |].
  unfold closeWord in H. cbn [prev rest caps] in H.
  rewrite Hprev in H.
  destruct (lastOf mid) as [cl|]; [| contradiction].
  cbn [isWordOpt] in H. rewrite Hl in H.
  destruct (isWordOpt (headOf (rest st'))) eqn:Ea; [discriminate |].
  cbn [xorb] in H. inversion H; subst st2; clear H. cbn [prev rest caps].
  exists mid. split; [exact Hrest |]. split; [exact Hmid |].
  rewrite Hrest, (headOf_append _ _ Hmne) in Hb.
  destruct (headOf mid) as [ch|]; [| contradiction].
  cbn [isWordOpt] in Hb. rewrite Hh in Hb.
  split; [destruct (isWordOpt (prev st)); [discriminate | reflexivity] |].
  split; [exact Ea |].
  unfold consumed. rewrite Hrest, length_append.
  replace (String.length mid + String.length (rest st') - String.length (rest st'))%nat
    with (String.length mid) by lia.
  rewrite substring_append, Hcaps. reflexivity.
Qed.

Lemma run_currency_sound st st2 :
  run currencyRegex st Some = Some st2 ->
  exists code mid,
    In code codes
    /\ rest st = mid +:+ rest st2 /\ Js.toLowerCase mid = code
    /\ isWordOpt (prev st) = false /\ isWordOpt (headOf (rest st2)) = false
    /\ caps st2 = (1%nat, mid) :: caps st.
Proof.
  rewrite run_currencyRegex.
  destruct (xorb (isWordOpt (prev st)) (isWordOpt (headOf (rest st)))) eqn:Hb;
    [| discriminate].
  change (alts [lit true "eur"; lit true "usd"; lit true "chf"; lit true "gbp"])
    with (Alt (lit true "eur") (Alt (lit true "usd") (Alt (lit true "chf") (lit true "gbp")))).
  rewrite !run_Alt, !run_lit. intros H.
  destruct (match litEnd true "eur" st with Some st' => closeWord st Some st' | None => None end)
    as [r|] eqn:E1.
  { inversion H; subst r. exists "eur"%string.
    destruct (code_alternative_sound "eur" st st2 ltac:(discriminate) eq_refl eq_refl Hb E1)
      as (mid & ?). exists mid. split; [simpl; tauto | assumption]. }
  destruct (match litEnd true "usd" st with Some st' => closeWord st Some st' | None => None end)
    as [r|] eqn:E2.
  { inversion H; subst r. exists "usd"%string.
    destruct (code_alternative_sound "usd" st st2 ltac:(discriminate) eq_refl eq_refl Hb E2)
      as (mid & ?). exists mid. split; [simpl; tauto | assumption]. }
  destruct (match litEnd true "chf" st with Some st' => closeWord st Some st' | None => None end)
    as [r|] eqn:E3.
  { inversion H; subst r. exists "chf"%string.
    destruct (code_alternative_sound "chf" st st2 ltac:(discriminate) eq_refl eq_refl Hb E3)
      as (mid & ?). exists mid. split; [simpl; tauto | assumption]. }
  exists "gbp"%string.
  destruct (code_alternative_sound "gbp" st st2 ltac:(discriminate) eq_refl eq_refl Hb H)
    as (mid & ?). exists mid. split; [simpl; tauto | assumption].
Qed.

(** One alternative of the expression accepts a whole word. *)
Lemma code_alternative_complete code mid post pv :
  code <> EmptyString -> allChars Js.isLower code = true ->
  Js.toLowerCase code = code ->
  Js.toLowerCase mid = code ->
  isWordOpt (headOf post) = false ->
  is_Some (match litEnd true code {| prev := pv; rest := mid +:+ post; caps := [] |} with
           | Some st' => closeWord {| prev := pv; rest := mid +:+ post; caps := [] |} Some st'
           | None => None
           end).
Proof.
  intros Hne Hlow Hid Hmid Hpost.
  assert (Hmne : mid <> EmptyString).
  { intros ->. apply Hne. symmetry. exact Hmid. }
  pose proof (letters_of_code _ _ Hmid Hlow) as Hw.
  pose proof (allChars_last _ _ Hmne Hw) as Hl.
  destruct (litEnd_accepts code mid post pv [] (eq_trans Hmid (eq_sym Hid)))
    as (st' & -> & Hr & Hc & Hp).
  destruct code as [|c0 code']; [congruence |].
  unfold closeWord. cbn [prev rest caps]. rewrite Hp, Hr, Hpost.
  destruct (lastOf mid) as [cl|]; [| contradiction].
  cbn [isWordOpt]. rewrite Hl. eexists. reflexivity.
Qed.

Lemma run_currency_complete code mid post pv :
  In code codes -> Js.toLowerCase mid = code ->
  isWordOpt pv = false -> isWordOpt (headOf post) = false ->
  is_Some (run currencyRegex {| prev := pv; rest := mid +:+ post; caps := [] |} Some).
Proof.
  intros Hin Hmid Hpv Hpost.
  assert (Hcode : code <> EmptyString /\ allChars Js.isLower code = true
                  /\ Js.toLowerCase code = code).
  { simpl in Hin. destruct Hin as [<- | [<- | [<- | [<- | []]]]];
      (split; [discriminate | split; reflexivity]). }
  destruct Hcode as (Hne & Hlow & Hid).
  assert (Hmne : mid <> EmptyString).
  { intros ->. apply Hne. symmetry. exact Hmid. }
  pose proof (allChars_head _ _ Hmne (letters_of_code _ _ Hmid Hlow)) as Hh.
  rewrite run_currencyRegex. cbn [prev rest]. rewrite Hpv, (headOf_append _ _ Hmne).
  destruct (headOf mid) as [ch|]; [| contradiction]. cbn [isWordOpt]. rewrite Hh.
  cbn [xorb].
  change (alts [lit true "eur"; lit true "usd"; lit true "chf"; lit true "gbp"])
    with (Alt (lit true "eur") (Alt (lit true "usd") (Alt (lit true "chf") (lit true "gbp")))).
  rewrite !run_Alt, !run_lit.
  pose proof (fun c Hc1 Hc2 Hc3 Hc4 => code_alternative_complete c mid post pv Hc1 Hc2 Hc3 Hc4 Hpost)
    as Hacc.
  destruct (match litEnd true "eur" _ with Some st' => _ | None => None end) as [r|] eqn:E1;
    [eexists; reflexivity |].
  destruct (match litEnd true "usd" _ with Some st' => _ | None => None end) as [r|] eqn:E2;
    [eexists; reflexivity |].
  destruct (match litEnd true "chf" _ with Some st' => _ | None => None end) as [r|] eqn:E3;
    [eexists; reflexivity |].
  simpl in Hin. destruct Hin as [<- | [<- | [<- | [<- | []]]]].
  - specialize (Hacc "eur"%string Hne Hlow Hid Hmid). rewrite E1 in Hacc.
    destruct Hacc; discriminate.
  - specialize (Hacc "usd"%string Hne Hlow Hid Hmid). rewrite E2 in Hacc.
    destruct Hacc; discriminate.
  - specialize (Hacc "chf"%string Hne Hlow Hid Hmid). rewrite E3 in Hacc.
    destruct Hacc; discriminate.
  - exact (Hacc "gbp"%string Hne Hlow Hid Hmid).
Qed.

End CurrencyFacts.

Section SearchFacts.

Import Regex RegexSpec CurrencySpec ApplyService.

Lemma searchFrom_sound r p s cs :
  searchFrom r p s = Some cs ->
  exists pre s' st',
    s = pre +:+ s'
    /\ run r {| prev := prevAfter p pre; rest := s'; caps := [] |} Some = Some st'
    /\ exists whole, cs = (0%nat, whole) :: caps st'.
Proof.
  revert p. induction s as [|c s IH]; intros p H; simpl in H.
  - destruct (run r {| prev := p; rest := EmptyString; caps := [] |} Some) as [st'|] eqn:E;
      [| discriminate].
    inversion H; subst cs. exists EmptyString, EmptyString, st'.
    split; [reflexivity |]. split; [exact E |]. eexists; reflexivity.
  - destruct (run r {| prev := p; rest := String c s; caps := [] |} Some) as [st'|] eqn:E.
    + inversion H; subst cs. exists EmptyString, (String c s), st'.
      split; [reflexivity |]. split; [exact E |]. eexists; reflexivity.
    + destruct (IH _ H) as (pre & s' & st' & Hs & Hrun & Hcs).
      exists (String c pre), s', st'. split; [rewrite append_cons, Hs; reflexivity |].
      split; [| exact Hcs].
      replace (prevAfter p (String c pre)) with (prevAfter (Some c) pre); [exact Hrun |].
      destruct pre; reflexivity.
Qed.

Lemma searchFrom_complete r p pre s' :
  is_Some (run r {| prev := prevAfter p pre; rest := s'; caps := [] |} Some) ->
  is_Some (searchFrom r p (pre +:+ s')).
Proof.
  revert p. induction pre as [|c pre IH]; intros p H.
  - rewrite append_empty_l. simpl in H. destruct H as [st' H].
    destruct s'; simpl; rewrite H; eexists; reflexivity.
  - rewrite append_cons. simpl.
    destruct (run r {| prev := p; rest := String c (pre +:+ s'); caps := [] |} Some);
      [eexists; reflexivity |].
    apply IH. replace (prevAfter (Some c) pre) with (prevAfter p (String c pre)); [exact H |].
    destruct pre; reflexivity.
Qed.

Lemma prevAfter_start pre : prevAfter None pre = lastOf pre.
Proof. destruct pre; reflexivity. Qed.

(** What [currencyRegex] finds is a known code, up to case, standing as a
    whole word. *)
Lemma currency_found text c :
  group 1 (exec currencyRegex text) = Some c ->
  In (Js.toLowerCase c) codes /\ occursAsWord (Js.toLowerCase c) text.
Proof.
  unfold exec. destruct (searchFrom currencyRegex None text) as [cs|] eqn:E; [| discriminate].
  apply searchFrom_sound in E as (pre & s' & st' & Htext & Hrun & whole & Hcs).
  apply run_currency_sound in Hrun as (code & mid & Hin & Hrest & Hmid & Hpv & Hpost & Hcaps).
  cbn [prev rest caps] in *. subst cs. rewrite Hcaps. simpl. intros H. inversion H; subst c.
  rewrite Hmid. split; [exact Hin |].
  exists pre, mid, (rest st'). rewrite <- Hrest.
  split; [exact Htext |]. split; [exact Hmid |].
  split; [rewrite <- prevAfter_start; exact Hpv | exact Hpost].
Qed.

(** It finds one wherever a known code stands as a whole word. *)
Lemma currency_found_if text code :
  In code codes -> occursAsWord code text ->
  exists c, group 1 (exec currencyRegex text) = Some c.
Proof.
  intros Hin (pre & mid & post & Htext & Hmid & Hpre & Hpost).
  assert (H : is_Some (searchFrom currencyRegex None text)).
  { rewrite Htext. apply searchFrom_complete. rewrite prevAfter_start.
    apply (run_currency_complete code); assumption. }
  destruct H as [cs E]. unfold exec. rewrite E.
  apply searchFrom_sound in E as (pre' & s' & st' & _ & Hrun & whole & Hcs).
  apply run_currency_sound in Hrun as (_ & mid' & _ & _ & _ & _ & _ & Hcaps).
  subst cs. rewrite Hcaps. exists mid'. reflexivity.
Qed.

Lemma upper_of_lower (s : string) : Js.toUpperCase (Js.toLowerCase s) = Js.toUpperCase s.
Proof.
  induction s as [|x s IH]; [reflexivity |].
  unfold Js.toUpperCase, Js.toLowerCase in *. simpl. rewrite IH. f_equal.
  destruct x as [[] [] [] [] [] [] [] []]; vm_compute; reflexivity.
Qed.

End SearchFacts.

Section CurrencyPatternFacts.

Import ApplyService.

Lemma later_blocks_currency text st :
  ApplySpec.hasPattern currency_recovery
    (fst (detectTaxInclusive text (detectSkuMapping text (detectSkonto text st))))
  = ApplySpec.hasPattern currency_recovery (fst st).
Proof.
  unfold detectTaxInclusive, detectSkuMapping, detectSkonto.
  repeat match goal with
         | |- context [if ?b then _ else _] => destruct b
         end; cbn [fst snd]; rewrite ?hasPattern_snoc; cbn [ApplySpec.hasPattern existsb dp_type];
    rewrite ?orb_false_r; reflexivity.
Qed.

End CurrencyPatternFacts.

Section LeftmostFacts.

Import Regex RegexSpec CurrencySpec ApplyService.

(** A search that succeeds stops at the first start from which the
    expression matches. *)
Lemma searchFrom_first r p s cs :
  searchFrom r p s = Some cs ->
  exists pre s' st',
    s = pre +:+ s'
    /\ run r {| prev := prevAfter p pre; rest := s'; caps := [] |} Some = Some st'
    /\ (exists whole, cs = (0%nat, whole) :: caps st')
    /\ forall pre0 s0,
         s = pre0 +:+ s0 -> (String.length pre0 < String.length pre)%nat ->
         run r {| prev := prevAfter p pre0; rest := s0; caps := [] |} Some = None.
Proof.
  revert p. induction s as [|c s IH]; intros p H; simpl in H.
  - destruct (run r {| prev := p; rest := EmptyString; caps := [] |} Some) as [st'|] eqn:E;
      [| discriminate].
    inversion H; subst cs. exists EmptyString, EmptyString, st'.
    split; [reflexivity |]. split; [exact E |]. split; [eexists; reflexivity |].
    intros pre0 s0 _ Hlt. simpl in Hlt. lia.
  - destruct (run r {| prev := p; rest := String c s; caps := [] |} Some) as [st'|] eqn:E.
    + inversion H; subst cs. exists EmptyString, (String c s), st'.
      split; [reflexivity |]. split; [exact E |]. split; [eexists; reflexivity |].
      intros pre0 s0 _ Hlt. simpl in Hlt. lia.
    + destruct (IH _ H) as (pre & s' & st' & Hs & Hrun & Hcs & Hfirst).
      exists (String c pre), s', st'. split; [rewrite append_cons, Hs; reflexivity |].
      assert (Hprev : forall q, prevAfter p (String c q) = prevAfter (Some c) q)
        by (intros q; destruct q; reflexivity).
      split; [rewrite Hprev; exact Hrun |]. split; [exact Hcs |].
      intros pre0 s0 Hsplit Hlt. destruct pre0 as [|c0 pre0].
      * rewrite append_empty_l in Hsplit. subst s0. exact E.
      * rewrite append_cons in Hsplit. inversion Hsplit; subst c0.
        rewrite Hprev. apply Hfirst; [assumption | simpl in Hlt; lia].
Qed.

Lemma append_same_length (a b c d : string) :
  a +:+ b = c +:+ d -> String.length a = String.length c -> a = c /\ b = d.
Proof.
  revert c. induction a as [|x a IH]; intros [|y c] H Hlen; simpl in Hlen; try discriminate.
  - rewrite !append_empty_l in H. split; [reflexivity | exact H].
  - rewrite !append_cons in H. inversion H; subst y.
    destruct (IH c) as [-> ->]; [assumption | lia |]. split; reflexivity.
Qed.

Lemma toLowerCase_length (s : string) : String.length (Js.toLowerCase s) = String.length s.
Proof. induction s as [|x s IH]; [reflexivity |]. simpl. f_equal. exact IH. Qed.

Lemma code_length code : In code codes -> String.length code = 3%nat.
Proof. simpl. intros [<- | [<- | [<- | [<- | []]]]]; reflexivity. Qed.

(** At one place of a text stands at most one known code. *)
Lemma occursAt_one pre code code' text :
  In code codes -> In code' codes ->
  occursAt pre code text -> occursAt pre code' text -> code = code'.
Proof.
  intros Hin Hin' (mid & post & Htext & Hmid & _) (mid' & post' & Htext' & Hmid' & _).
  rewrite Htext in Htext'.
  apply append_same_length in Htext' as [_ Hrest]; [| reflexivity].
  apply append_same_length in Hrest as [Hsame _].
  - rewrite <- Hmid, <- Hmid', Hsame. reflexivity.
  - rewrite <- (toLowerCase_length mid), <- (toLowerCase_length mid'), Hmid, Hmid'.
    rewrite !code_length by assumption. reflexivity.
Qed.

(** The leftmost match is one place, and one code. *)
Lemma leftmost_one pre code pre' code' text :
  leftmost pre code text -> leftmost pre' code' text -> pre = pre' /\ code = code'.
Proof.
  intros (Hin & Hocc & Hmin) (Hin' & Hocc' & Hmin').
  pose proof (Hmin _ _ Hin' Hocc') as H1. pose proof (Hmin' _ _ Hin Hocc) as H2.
  assert (Hpre : pre = pre').
  { destruct Hocc as (mid & post & Htext & _), Hocc' as (mid' & post' & Htext' & _).
    rewrite Htext in Htext'. apply append_same_length in Htext' as [Hpre _]; [exact Hpre | lia]. }
  subst pre'. split; [reflexivity |]. eapply occursAt_one; eassumption.
Qed.

(** What [currencyRegex] finds is the known code of the leftmost match. *)
Lemma currency_found_leftmost text c :
  group 1 (exec currencyRegex text) = Some c ->
  exists pre, leftmost pre (Js.toLowerCase c) text.
Proof.
  unfold exec. destruct (searchFrom currencyRegex None text) as [cs|] eqn:E; [| discriminate].
  apply searchFrom_first in E as (pre & s' & st' & Htext & Hrun & (whole & Hcs) & Hfirst).
  apply run_currency_sound in Hrun as (code & mid & Hin & Hrest & Hmid & Hpv & Hpost & Hcaps).
  cbn [prev rest caps] in *. subst cs. rewrite Hcaps. simpl. intros H. inversion H; subst c.
  rewrite Hmid. exists pre. split; [exact Hin |]. split.
  - exists mid, (rest st'). rewrite <- Hrest.
    split; [exact Htext |]. split; [exact Hmid |].
    split; [rewrite <- prevAfter_start; exact Hpv | exact Hpost].
  - intros pre' code' Hin' (mid' & post' & Htext' & Hmid' & Hpre' & Hpost').
    destruct (Nat.le_gt_cases (String.length pre) (String.length pre')) as [Hle | Hlt];
      [exact Hle |].
    pose proof (Hfirst pre' (mid' +:+ post') Htext' Hlt) as Hnone.
    assert (Hsome : is_Some (run currencyRegex
                               {| prev := prevAfter None pre'; rest := mid' +:+ post';
                                  caps := [] |} Some)).
    { rewrite prevAfter_start. apply (run_currency_complete code'); assumption. }
    rewrite Hnone in Hsome. destruct Hsome as [? Hsome]. discriminate.
Qed.

End LeftmostFacts.

(** C9, as amended. Take an invoice whose normalized record, after the
    memories were applied, holds no currency (an absent, null or empty value).
    If one of the codes eur, usd, chf, gbp stands in the raw text as a whole
    word, in any mix of cases, there is a leftmost such place, and the Apply
    stage writes the code that stands there, in upper case, to the
    [currency] field and emits a [currency_recovery] pattern; the code of a
    place further right is not written, unless it is the same one. If none of
    the four codes stands as a whole word, the record stays as the memories
    left it and no such pattern is emitted. *)
Theorem C9_currency_recovery (invoice : Invoice) (memories : RecalledMemories) (now : Z) :
  let text := ApplyService.loweredText invoice in
  let before := normalizedInvoice (ApplyService.applyRecalled invoice memories) in
  let result := ApplyService.applyMemories invoice memories now in
  JsVal.truthy (readKey before "currency") = false ->
  ((exists code, In code CurrencySpec.codes /\ RegexSpec.occursAsWord code text) ->
   exists pre code,
     CurrencySpec.leftmost pre code text
     /\ normalizedInvoice (ar_appliedResult result)
        = <["currency"%string := VString (Js.toUpperCase code)]> before
     /\ ApplySpec.hasPattern currency_recovery (ar_detectedPatterns result) = true)
  /\ (forall pre code,
        CurrencySpec.leftmost pre code text ->
        normalizedInvoice (ar_appliedResult result)
        = <["currency"%string := VString (Js.toUpperCase code)]> before
        /\ ApplySpec.hasPattern currency_recovery (ar_detectedPatterns result) = true)
  /\ ((forall code, In code CurrencySpec.codes -> ~ RegexSpec.occursAsWord code text) ->
      normalizedInvoice (ar_appliedResult result) = before
      /\ ApplySpec.hasPattern currency_recovery (ar_detectedPatterns result) = false).
Proof.
  intros text before result Hunset.
  assert (Hrec : normalizedInvoice (ar_appliedResult result)
                 = snd (ApplyService.recoverCurrency text ([], before))).
  { subst result. unfold ApplyService.applyMemories.
    cbn [ar_appliedResult normalizedInvoice]. apply detectPatterns_record. }
  assert (Hpat : ApplySpec.hasPattern currency_recovery (ar_detectedPatterns result)
                 = ApplySpec.hasPattern currency_recovery
                     (fst (ApplyService.recoverCurrency text ([], before)))).
  { subst result. unfold ApplyService.applyMemories. cbn [ar_detectedPatterns].
    unfold ApplyService.detectPatterns. apply later_blocks_currency. }
  rewrite Hrec, Hpat. unfold ApplyService.recoverCurrency. cbn [fst snd].
  rewrite Hunset. cbn [negb].
  assert (Hword : forall pre code, CurrencySpec.leftmost pre code text ->
                    In code CurrencySpec.codes /\ RegexSpec.occursAsWord code text).
  { intros pre code (Hin & (mid & post & Hocc) & _). split; [exact Hin |].
    exists pre, mid, post. exact Hocc. }
  destruct (Regex.group 1 (Regex.exec ApplyService.currencyRegex text)) as [c|] eqn:E.
  - destruct (currency_found_leftmost _ _ E) as [pre Hleft].
    destruct (Hword _ _ Hleft) as [Hin Hocc].
    assert (Hc : JsVal.truthyStr (Some c) = true).
    { destruct c; [simpl in Hin; intuition discriminate | reflexivity]. }
    rewrite Hc. cbn [fst snd]. split; [| split].
    + intros _. exists pre, (Js.toLowerCase c). rewrite upper_of_lower.
      split; [exact Hleft |]. split; reflexivity.
    + intros pre' code' Hleft'.
      destruct (leftmost_one _ _ _ _ _ Hleft Hleft') as [_ <-].
      rewrite upper_of_lower. split; reflexivity.
    + intros Hnone. destruct (Hnone _ Hin Hocc).
  - assert (Hno : forall code, In code CurrencySpec.codes ->
                    ~ RegexSpec.occursAsWord code text).
    { intros code Hin Hocc. destruct (currency_found_if _ _ Hin Hocc) as [c Hc]. congruence. }
    split; [| split].
    + intros (code & Hin & Hocc). destruct (Hno _ Hin Hocc).
    + intros pre code Hleft. destruct (Hword _ _ Hleft) as [Hin Hocc].
      destruct (Hno _ Hin Hocc).
    + intros _. split; reflexivity.
Qed.

(** An invoice of the sample data without a currency, whose text names two
    codes: the left one, [USD], is written. *)
Lemma C9_witness :
  (exists pre code,
     CurrencySpec.leftmost pre code
       (ApplyService.loweredText
          (Sample.partsInvoice "INV-B-003" "Total 10 USD (about 9 EUR)"))
     /\ normalizedInvoice
          (ar_appliedResult
             (ApplyService.applyMemories
                (Sample.partsInvoice "INV-B-003" "Total 10 USD (about 9 EUR)")
                Sample.noMemories 0))
        = <["currency"%string := VString (Js.toUpperCase code)]>
            (normalizedInvoice
               (ApplyService.applyRecalled
                  (Sample.partsInvoice "INV-B-003" "Total 10 USD (about 9 EUR)")
                  Sample.noMemories))
     /\ ApplySpec.hasPattern currency_recovery
          (ar_detectedPatterns
             (ApplyService.applyMemories
                (Sample.partsInvoice "INV-B-003" "Total 10 USD (about 9 EUR)")
                Sample.noMemories 0)) = true)
  /\ normalizedInvoice
       (ar_appliedResult
          (ApplyService.applyMemories
             (Sample.partsInvoice "INV-B-003" "Total 10 USD (about 9 EUR)")
             Sample.noMemories 0)) !! "currency"%string
     = Some (VString "USD").
Proof.
  split; [| vm_compute; reflexivity].
  apply (proj1 (C9_currency_recovery
                  (Sample.partsInvoice "INV-B-003" "Total 10 USD (about 9 EUR)")
                  Sample.noMemories 0 eq_refl)).
  exists "eur"%string. split; [simpl; tauto |].
  exists "total 10 usd (about 9 "%string, "eur"%string, ")"%string. repeat split.
Defined.

(** C9, as stated, fails: [JPY] is a three-letter currency code, and a raw
    text that holds it leaves the currency unset and yields no pattern. *)
Lemma C9_counterexample :
  let invoice := Sample.partsInvoice "INV-B-010" "Total 2380 JPY" in
  let result := ApplyService.applyMemories invoice Sample.noMemories 0 in
  normalizedInvoice (ar_appliedResult result) !! "currency"%string = Some VNull
  /\ ApplySpec.hasPattern currency_recovery (ar_detectedPatterns result) = false.
Proof. split; vm_compute; reflexivity. Qed.

(** ** Purchase-order matching *)

Section SetOfFacts.

Lemma includes_In x l : JsArr.includes x l = true <-> In x l.
Proof.
  unfold JsArr.includes. rewrite existsb_exists. split.
  - intros (y & Hy & E). apply String.eqb_eq in E. subst. exact Hy.
  - intros H. exists x. split; [exact H | apply String.eqb_refl].
Qed.

Lemma setOf_In l seen x : In x (JsArr.setOf l seen) <-> In x l /\ ~ In x seen.
Proof.
  revert seen. induction l as [|y l IH]; intros seen; simpl; [tauto |].
  destruct (JsArr.includes y seen) eqn:E.
  - apply includes_In in E. rewrite IH. split; [tauto |].
    intros [[-> | H] Hn]; [contradiction | tauto].
  - assert (Hy : ~ In y seen) by (rewrite <- includes_In, E; discriminate).
    simpl. rewrite IH. simpl. split.
    + intros [-> | [H Hn]]; [tauto |]. split; [tauto |]. intros Hx. apply Hn. tauto.
    + intros [[-> | H] Hn]; [tauto |].
      destruct (String.eqb_spec y x) as [-> | Hne]; [tauto |]. right. split; [exact H |].
      intros [? | ?]; [congruence | contradiction].
Qed.

Lemma setOf_NoDup l seen : List.NoDup (JsArr.setOf l seen).
Proof.
  revert seen. induction l as [|y l IH]; intros seen; simpl; [constructor |].
  destruct (JsArr.includes y seen); [apply IH |].
  constructor; [| apply IH]. rewrite setOf_In. simpl. tauto.
Qed.

Lemma setOf_size (l : list string) :
  length (JsArr.setOf l []) = size (list_to_set l : gset string).
Proof.
  rewrite <- (size_list_to_set (C := gset string) (JsArr.setOf l []))
    by (apply NoDup_ListNoDup, setOf_NoDup).
  f_equal. apply set_eq. intros x.
  rewrite !elem_of_list_to_set, !list_elem_of_In, setOf_In. simpl. tauto.
Qed.

Lemma matched_size (a b : list string) :
  length (List.filter (fun s => JsArr.includes s (JsArr.setOf b [])) (JsArr.setOf a []))
  = size ((list_to_set a : gset string) ∩ list_to_set b).
Proof.
  rewrite <- (size_list_to_set (C := gset string)
                (List.filter (fun s => JsArr.includes s (JsArr.setOf b [])) (JsArr.setOf a [])))
    by (apply NoDup_ListNoDup, List.NoDup_filter, setOf_NoDup).
  f_equal. apply set_eq. intros x.
  rewrite elem_of_intersection, !elem_of_list_to_set, !list_elem_of_In, filter_In,
    includes_In, !setOf_In. simpl. tauto.
Qed.

End SetOfFacts.

Section ScoreFacts.

Import POMatchingService.
Local Open Scope Q_scope.












Lemma candidates_sameVendor vendorId orders :
  Forall (fun po => sameVendor (Js.trim (Js.toLowerCase vendorId)) po = true)
         (POSpec.candidates vendorId orders).
Proof.
  apply List.Forall_forall. intros po H. apply filter_In in H. tauto.
Qed.

End ScoreFacts.

(** ** Purchase-order matching on doubles *)

Section DoubleOrderFacts.

Ltac compare_cases :=
  repeat match goal with
         | H : context [(?a ?= ?b)%Z] |- _ => destruct (Z.compare_spec a b)
         | |- context [(?a ?= ?b)%Z] => destruct (Z.compare_spec a b)
         | H : context [(?a ?= ?b)%positive] |- _ => destruct (Pos.compare_spec a b)
         | |- context [(?a ?= ?b)%positive] => destruct (Pos.compare_spec a b)
         end.

Lemma SFltb_leb_trans a b c : SFltb a b = true -> SFleb b c = true -> SFltb a c = true.
Proof.
  unfold SFltb, SFleb.
  destruct a as [[|]|[|]| |[|] m1 e1], b as [[|]|[|]| |[|] m2 e2], c as [[|]|[|]| |[|] m3 e3];
    cbn [SFcompare]; try discriminate; try reflexivity;
    change (PosDef.Pos.compare_cont Eq) with Pos.compare;
    compare_cases; cbn [CompOpp]; try discriminate; try reflexivity; intros _ _;
    subst; lia.
Qed.

Lemma SFltb_leb a b : SFltb a b = true -> SFleb a b = true.
Proof. unfold SFltb, SFleb. destruct (SFcompare a b) as [[| |]|]; congruence. Qed.

Lemma SFltb_irrefl a : SFltb a a = false.
Proof.
  unfold SFltb. destruct a as [[|]|[|]| |[|] m e]; cbn [SFcompare]; try reflexivity;
    rewrite Z.compare_refl; change (PosDef.Pos.compare_cont Eq) with Pos.compare;
    rewrite Pos.compare_refl; reflexivity.
Qed.

(** [x < y <= z] gives [x < z] on doubles, and no double is below itself. *)
Lemma ltb_leb_trans (x y z : float) :
  (x <? y)%float = true -> (y <=? z)%float = true -> (x <? z)%float = true.
Proof. rewrite !ltb_spec, leb_spec. apply SFltb_leb_trans. Qed.

Lemma ltb_leb (x y : float) : (x <? y)%float = true -> (x <=? y)%float = true.
Proof. rewrite ltb_spec, leb_spec. apply SFltb_leb. Qed.

Lemma ltb_irrefl (x : float) : (x <? x)%float = false.
Proof. rewrite ltb_spec. apply SFltb_irrefl. Qed.

End DoubleOrderFacts.


Section DoubleScoreFacts.

Import POMatchingService64.

Lemma addQtyMatch64_fold po items acc :
  fst (fold_left (addQtyMatch po) items acc)
  = Nat.iter (length (List.filter (POSpec.quantityMatches po) items))
      (fun x => (x + 0.1)%float) (fst acc).
Proof.
  revert acc. induction items as [|inv items IH]; intros acc; cbn [fold_left List.filter];
    [reflexivity |].
  rewrite IH. unfold addQtyMatch, POSpec.quantityMatches.
  destruct (li_sku inv) as [sku|]; [| reflexivity].
  destruct (List.find (fun p => String.eqb (poi_sku p) sku) (po_lineItems po)) as [poItem|];
    [| reflexivity].
  unfold JsNum.eqb. destruct (Qeq_bool (poi_qty poItem) (li_qty inv)); [| reflexivity].
  cbn [fst length]. rewrite Nat.iter_succ_r. reflexivity.
Qed.

(** The line items [findMatchingPO] reads are those of the field, when it
    holds an array. *)
Lemma lineItemsOf_value fields :
  POMatchingService.lineItemsOf fields
  = match lineItemsValue fields with
    | VLineItems items => Some items
    | _ => None
    end.
Proof.
  unfold POMatchingService.lineItemsOf, lineItemsValue.
  destruct (List.find _ fields) as [kv|]; reflexivity.
Qed.

(** Unless the field holds a text, the loop computes a score on doubles, and
    it is the specification's, its terms added in the order it lists them. *)
Lemma scoreOrder64_score invoiceDate fields po :
  POSpec64.isText (lineItemsValue fields) = false ->
  exists reasons,
    scoreOrder invoiceDate (lineItemsValue fields) po
    = Ok (POSpec64.score invoiceDate (POMatchingService.lineItemsOf fields) po, reasons).
Proof.
  intros Htext. rewrite lineItemsOf_value.
  unfold scoreOrder, POSpec64.score, POSpec64.quantityMatched.
  set (dated := if (daysApart invoiceDate po <=? 30)%float then _ else _).
  assert (Hd : fst dated = POSpec64.plus 0.3%float (POSpec64.dateTerm invoiceDate po)).
  { subst dated. unfold POSpec64.dateTerm.
    destruct (daysApart invoiceDate po <=? 30)%float; reflexivity. }
  assert (Hempty : POSpec64.codeTerm (Some []) po = None /\ POSpec64.codeTerm None po = None).
  { unfold POSpec64.codeTerm, POSpec.invoiceCodes. cbn.
    rewrite intersection_empty_l_L, size_empty. split; reflexivity. }
  assert (Hskip : exists reasons,
            Ok dated = Ok (POSpec64.plus (POSpec64.plus 0.3%float
                                            (POSpec64.dateTerm invoiceDate po)) None, reasons)).
  { exists (snd dated). rewrite <- Hd. destruct dated; reflexivity. }
  destruct (lineItemsValue fields) as [| | b | n | [|c s] | [|i items]];
    try discriminate Htext;
    try (rewrite (proj2 Hempty); exact Hskip);
    try (rewrite (proj1 Hempty); exact Hskip).
  eexists. f_equal. apply injective_projections; [| reflexivity]. cbn [fst].
  rewrite addQtyMatch64_fold.
  change (POSpec.items (Some (i :: items))) with (i :: items). f_equal.
  unfold POSpec64.codeTerm, POSpec.invoiceCodes, POSpec.orderCodes.
  change (POSpec.items (Some (i :: items))) with (i :: items).
  unfold POMatchingService.invoiceSkus, POMatchingService.orderSkus.
  rewrite <- matched_size, <- !setOf_size.
  destruct (List.filter _ _) as [|m ms]; cbn [length fst POSpec64.plus].
  - exact Hd.
  - rewrite Hd. reflexivity.
Qed.

(** On a text the block that reads the line items throws. *)
Lemma scoreOrder64_throws invoiceDate value po :
  POSpec64.isText value = true ->
  exists msg, scoreOrder invoiceDate value po = Err msg.
Proof.
  destruct value as [| | b | n | [|c s] | items]; try discriminate.
  intros _. eexists. reflexivity.
Qed.

Lemma considerOrder64_thrown vendor invoiceDate value orders msg :
  fold_left (considerOrder vendor invoiceDate value) orders (Err msg) = Err msg.
Proof. induction orders as [|po orders IH]; [reflexivity | exact IH]. Qed.

Lemma considerOrder64_candidates vendor invoiceDate value orders acc :
  fold_left (considerOrder vendor invoiceDate value) orders acc
  = fold_left (considerOrder vendor invoiceDate value)
      (List.filter (POMatchingService.sameVendor vendor) orders) acc.
Proof.
  revert acc. induction orders as [|po orders IH]; intros acc; [reflexivity |].
  cbn [fold_left List.filter]. rewrite IH.
  destruct (POMatchingService.sameVendor vendor po) eqn:E; [reflexivity |].
  unfold considerOrder at 2. rewrite E. destruct acc; reflexivity.
Qed.

(** The loop keeps an order whose score is above 0, which no earlier order
    reaches and no later order exceeds; it keeps none when no score is above
    0. *)
Lemma best64_of_candidates vendor invoiceDate value (f : PurchaseOrder -> float * list string)
    (l : list PurchaseOrder) :
  (forall po, scoreOrder invoiceDate value po = Ok (f po)) ->
  Forall (fun po => POMatchingService.sameVendor vendor po = true) l ->
  let s po := fst (f po) in
  let final := fold_left (considerOrder vendor invoiceDate value) l
                 (Ok (None, 0%float, [])) in
  (final = Ok (None, 0%float, []) /\ Forall (fun po => (0 <? s po)%float = false) l)
  \/ exists before best after,
       l = before ++ best :: after
       /\ final = Ok (Some best, s best, snd (f best))
       /\ (0 <? s best)%float = true
       /\ Forall (fun po => (s best <=? s po)%float = false) before
       /\ Forall (fun po => (s best <? s po)%float = false) after.
Proof.
  intros Hf Hl s. induction l as [|po l IH] using rev_ind;
    [left; split; [reflexivity | constructor] |].
  apply Forall_app in Hl as [Hl Hpo]. apply Forall_inv in Hpo.
  cbv zeta. rewrite fold_left_app. cbn [fold_left].
  destruct (IH Hl) as [[Hfinal Hnone] | (before & best & after & -> & Hfinal & Hpos & Hb & Ha)].
  - cbv zeta in Hfinal. rewrite Hfinal. unfold considerOrder. rewrite Hpo, Hf.
    cbn [fst snd]. fold (s po).
    destruct (0 <? s po)%float eqn:E.
    + right. exists l, po, []. split; [reflexivity |]. split; [reflexivity |].
      split; [exact E |]. split; [| constructor].
      eapply List.Forall_impl; [| exact Hnone]. cbv beta. intros x Hx.
      destruct (s po <=? s x)%float eqn:E'; [| reflexivity].
      rewrite (ltb_leb_trans _ _ _ E E') in Hx. discriminate.
    + left. split; [reflexivity |]. apply Forall_app. split; [exact Hnone |].
      constructor; [exact E | constructor].
  - right. cbv zeta in Hfinal. rewrite Hfinal. unfold considerOrder. rewrite Hpo, Hf.
    cbn [fst snd]. fold (s po). fold (s best).
    destruct (s best <? s po)%float eqn:E.
    + exists (before ++ best :: after), po, [].
      split; [reflexivity |]. split; [reflexivity |].
      split.
      { apply (ltb_leb_trans _ (s best)); [exact Hpos | apply ltb_leb; exact E]. }
      split; [| constructor].
      apply Forall_app. split; [| constructor].
      * eapply List.Forall_impl; [| exact Hb]. cbv beta. intros x Hx.
        destruct (s po <=? s x)%float eqn:E'; [| reflexivity].
        rewrite (ltb_leb _ _ (ltb_leb_trans _ _ _ E E')) in Hx. discriminate.
      * destruct (s po <=? s best)%float eqn:E'; [| reflexivity].
        pose proof (ltb_leb_trans _ _ _ E E') as Hself. rewrite ltb_irrefl in Hself.
        discriminate.
      * eapply List.Forall_impl; [| exact Ha]. cbv beta. intros x Hx.
        destruct (s po <=? s x)%float eqn:E'; [| reflexivity].
        rewrite (ltb_leb_trans _ _ _ E E') in Hx. discriminate.
    + exists before, best, (after ++ [po]).
      split; [rewrite <- app_assoc; reflexivity |]. split; [reflexivity |].
      split; [exact Hpos |]. split; [exact Hb |].
      apply Forall_app. split; [exact Ha | constructor; [exact E | constructor]].
Qed.

End DoubleScoreFacts.

(** C4, as amended. The orders scored are those whose vendor equals the
    invoice's vendor id once both are lower-cased and trimmed; when there is
    none, no match is returned, with confidence 0. When the [lineItems] field
    holds a text that is not empty, scoring an order throws, and so does the
    search if some order is to be scored. Otherwise the score is a double: to
    the base 0.3 are added, one after the other and each sum rounded, the
    date term 0.2 * (1 - days/30) when the dates are at most 30 days apart,
    the code term 0.3 * matched / max of the two set sizes when some code is
    matched, and 0.1 for every invoice line item whose quantity is that of
    the first order line item of its code. The match returned is a scored
    order whose score is above 0, is reached by no earlier scored order and is
    exceeded by no later one, and the confidence returned is the lesser of
    that score and 1; no match, with confidence 0, is returned when no score
    is above 0. *)
Theorem C4_purchase_order_match (vendorId : string) (invoiceDate : Z)
    (fields : list (string * InvoiceField)) (orders : list PurchaseOrder) :
  let value := POMatchingService64.lineItemsValue fields in
  let score := POSpec64.score invoiceDate (POMatchingService.lineItemsOf fields) in
  let candidates := POSpec.candidates vendorId orders in
  let outcome := POMatchingService64.findMatchingPO vendorId invoiceDate fields orders in
  (candidates = [] -> outcome = Ok POSpec64.noMatch)
  /\ (POSpec64.isText value = true ->
      (forall po, exists msg,
         POMatchingService64.scoreOrder invoiceDate value po = Err msg)
      /\ (candidates <> [] -> exists msg, outcome = Err msg))
  /\ (POSpec64.isText value = false ->
      (forall po, exists reasons,
         POMatchingService64.scoreOrder invoiceDate value po = Ok (score po, reasons))
      /\ exists result,
           outcome = Ok result
           /\ ((pm64_matchedPO result = None /\ pm64_confidence result = 0%float
                /\ Forall (fun po => POSpec64.above (score po) 0 = false) candidates)
               \/ exists before best after,
                    candidates = before ++ best :: after
                    /\ pm64_matchedPO result = Some best
                    /\ POSpec64.above (score best) 0 = true
                    /\ Forall (fun po => POSpec64.reaches (score po) (score best) = false)
                              before
                    /\ Forall (fun po => POSpec64.above (score po) (score best) = false)
                              after
                    /\ pm64_confidence result = Binary64.Math_min (score best) 1)).
Proof.
  intros value score candidates outcome.
  assert (Hfold :
    fold_left (POMatchingService64.considerOrder (Js.trim (Js.toLowerCase vendorId))
                 invoiceDate value) orders (Ok (None, 0%float, []))
    = fold_left (POMatchingService64.considerOrder (Js.trim (Js.toLowerCase vendorId))
                   invoiceDate value) candidates (Ok (None, 0%float, [])))
    by apply considerOrder64_candidates.
  subst outcome. unfold POMatchingService64.findMatchingPO. fold value. rewrite Hfold.
  clear Hfold. split; [| split].
  - intros ->. reflexivity.
  - intros Htext. split; [intros po; apply scoreOrder64_throws; exact Htext |].
    intros Hsome. destruct candidates as [|po l] eqn:Hc; [destruct (Hsome eq_refl) |].
    pose proof (candidates_sameVendor vendorId orders) as Hv. fold candidates in Hv.
    rewrite Hc in Hv. apply Forall_inv in Hv.
    destruct (scoreOrder64_throws invoiceDate value po Htext) as [msg Hmsg].
    cbn [fold_left]. unfold POMatchingService64.considerOrder at 2.
    rewrite Hv, Hmsg, considerOrder64_thrown. exists msg. reflexivity.
  - intros Htext.
    assert (Hs : forall po, exists reasons,
              POMatchingService64.scoreOrder invoiceDate value po = Ok (score po, reasons))
      by (intros po; apply scoreOrder64_score; exact Htext).
    split; [exact Hs |].
    set (f := fun po => match POMatchingService64.scoreOrder invoiceDate value po with
                        | Ok sr => sr
                        | Err _ => (0%float, [])
                        end).
    assert (Hf : forall po, POMatchingService64.scoreOrder invoiceDate value po = Ok (f po)).
    { intros po. subst f. cbv beta. destruct (Hs po) as [reasons ->]. reflexivity. }
    assert (Hfs : forall po, fst (f po) = score po).
    { intros po. subst f. cbv beta. destruct (Hs po) as [reasons ->]. reflexivity. }
    pose proof (best64_of_candidates (Js.trim (Js.toLowerCase vendorId)) invoiceDate value f
                  candidates Hf (candidates_sameVendor vendorId orders)) as H.
    cbv zeta in H. unfold POSpec64.above, POSpec64.reaches.
    destruct H as [[-> Hnone] | (before & best & after & Hsplit & -> & Hpos & Hb & Ha)].
    + eexists. split; [reflexivity |]. cbn [pm64_matchedPO pm64_confidence fst snd].
      left. split; [reflexivity |]. split; [reflexivity |].
      eapply List.Forall_impl; [| exact Hnone]. cbv beta. intros po Hpo.
      rewrite <- Hfs. exact Hpo.
    + eexists. split; [reflexivity |]. cbn [pm64_matchedPO pm64_confidence fst snd].
      right. exists before, best, after. split; [exact Hsplit |]. split; [reflexivity |].
      split; [rewrite <- Hfs; exact Hpos |].
      split.
      { eapply List.Forall_impl; [| exact Hb]. cbv beta. intros po Hpo.
        rewrite <- !Hfs. exact Hpo. }
      split.
      { eapply List.Forall_impl; [| exact Ha]. cbv beta. intros po Hpo.
        rewrite <- !Hfs. exact Hpo. }
      rewrite Hfs. reflexivity.
Qed.

(** Two orders of the vendor whose scores are both 0.8 by exact arithmetic:
    on doubles the earlier one comes to 0.7999999999999999, and the later
    one is returned. *)
Lemma C4_witness :
  exists result before best after,
    POMatchingService64.findMatchingPO "Acme Corp" 1705708800000 SampleOrders.widgetFields
      [SampleOrders.earlierOrder; SampleOrders.sameDayOrder] = Ok result
    /\ POSpec.candidates "Acme Corp" [SampleOrders.earlierOrder; SampleOrders.sameDayOrder]
       = before ++ best :: after
    /\ best = SampleOrders.sameDayOrder
    /\ pm64_matchedPO result = Some best
    /\ pm64_confidence result
       = Binary64.Math_min
           (POSpec64.score 1705708800000
              (POMatchingService.lineItemsOf SampleOrders.widgetFields) best) 1.
Proof.
  destruct (proj2 (proj2 (proj2 (C4_purchase_order_match "Acme Corp" 1705708800000
                                   SampleOrders.widgetFields
                                   [SampleOrders.earlierOrder; SampleOrders.sameDayOrder]))
                     eq_refl))
    as (result & Hresult &
        [[Hnone _] | (before & best & after & Hsplit & Hbest & _ & _ & _ & Hconf)]).
  - vm_compute in Hresult. injection Hresult as <-. discriminate Hnone.
  - exists result, before, best, after. split; [exact Hresult |]. split; [exact Hsplit |].
    split; [| split; [exact Hbest | exact Hconf]].
    vm_compute in Hresult. injection Hresult as <-. injection Hbest as <-. reflexivity.
Defined.

(** C4, as stated, fails. An order whose vendor has the invoice's normalized
    vendor key, but another spacing inside the name, is not scored at all. An
    invoice line item that agrees in code and quantity with the second of two
    order line items of one code earns no quantity bonus: the confidence is
    0.8, not 0.9. And the order returned is not always the first that reaches
    the highest score of the formula: of two orders that both score 0.8 by
    exact arithmetic, the second is returned, the sum of the first being
    rounded to a double below that of the second. *)
Lemma C4_counterexample :
  (normalizeVendorName "Acme  Corp" = normalizeVendorName (po_vendor SampleOrders.acmeOrder)
   /\ POMatchingService64.findMatchingPO "Acme  Corp" 1705276800000
        SampleOrders.widgetFields [SampleOrders.acmeOrder] = Ok POSpec64.noMatch)
  /\ (POSpec.someItemMatches SampleOrders.acmeOrder SampleOrders.tenWidgets = true
      /\ exists result,
           POMatchingService64.findMatchingPO "Acme Corp" 1705276800000
             SampleOrders.widgetFields [SampleOrders.acmeOrder] = Ok result
           /\ pm64_confidence result = 0.8%float)
  /\ (Qeq_bool (POSpec.score 1705708800000 (Some [SampleOrders.tenWidgets])
                  SampleOrders.earlierOrder)
               (POSpec.score 1705708800000 (Some [SampleOrders.tenWidgets])
                  SampleOrders.sameDayOrder) = true
      /\ exists result,
           POMatchingService64.findMatchingPO "Acme Corp" 1705708800000
             SampleOrders.widgetFields
             [SampleOrders.earlierOrder; SampleOrders.sameDayOrder] = Ok result
           /\ pm64_matchedPO result = Some SampleOrders.sameDayOrder).
Proof.
  split; [split; vm_compute; reflexivity |].
  split; [split; [vm_compute; reflexivity | eexists; split; vm_compute; reflexivity] |].
  split; [vm_compute; reflexivity | eexists; split; vm_compute; reflexivity].
Qed.

(** An invoice whose line items came as a text: the search throws as soon as
    an order of the vendor is to be scored, and not before. *)
Example findMatchingPO_on_text :
  (exists msg,
     POMatchingService64.findMatchingPO "Acme Corp" 1705708800000 SampleOrders.textFields
       [SampleOrders.laterOrder; SampleOrders.earlierOrder] = Err msg)
  /\ POMatchingService64.findMatchingPO "Parts AG" 1705708800000 SampleOrders.textFields
       [SampleOrders.laterOrder; SampleOrders.earlierOrder] = Ok POSpec64.noMatch.
Proof. split; [eexists |]; vm_compute; reflexivity. Qed.

(** ** Learn: updates of the memory tables *)

Section UpdateFacts.

Import Learn LearnSpec.

Lemma find_updated {R : Type} (id : R -> string) (g : R -> R) (rows : list R) (i j : string) :
  (forall r, id (g r) = id r) ->
  List.find (fun r => String.eqb (id r) j)
            (map (fun r => if String.eqb (id r) i then g r else r) rows)
  = (fun r => if String.eqb (id r) i then g r else r)
    <$> List.find (fun r => String.eqb (id r) j) rows.
Proof.
  intros Hid. induction rows as [|r rows IH]; [reflexivity |].
  cbn [map List.find].
  assert (E : id (if String.eqb (id r) i then g r else r) = id r)
    by (destruct (String.eqb (id r) i); [apply Hid | reflexivity]).
  rewrite E. destruct (String.eqb (id r) j); [reflexivity | exact IH].
Qed.

Lemma find_has_id {R : Type} (id : R -> string) (rows : list R) (j : string) (r : R) :
  List.find (fun r => String.eqb (id r) j) rows = Some r -> id r = j.
Proof. intros H. apply find_some in H as [_ H]. apply String.eqb_eq. exact H. Qed.

Lemma updateMemory_unfold m action now db result :
  updateMemory m action now (db, result)
  = match findExisting m db with
    | None => (db, result)
    | Some e =>
        (updatedRow m (updateOf action now e) db,
         withNotes (option_list (noteFor false action db m))
                   (option_list (noteFor true action db m)) result)
    end.
Proof.
  unfold updateMemory, noteFor. cbn [fst snd].
  destruct (findExisting m db) as [e|]; [| reflexivity].
  unfold updatedRow, withNotes, updateOf.
  destruct result as [created updated deactivated audits].
  destruct action; cbn [nextState after penalized reinforced contradicted ex_isActive
                        ex_confidence ex_consecutiveRejections ex_applicationCount
                        createdMemories updatedMemories deactivatedMemories auditEntries].
  - destruct (ex_isActive e); cbn [negb Bool.eqb option_list]; rewrite ?app_nil_r; reflexivity.
  - destruct (if (maxConsecutiveRejectionsBeforeDeactivation CONFIDENCE_CONFIG
                  <=? ex_consecutiveRejections e + 1)%Z then false else ex_isActive e);
      cbn [negb Bool.eqb option_list]; rewrite ?app_nil_r; reflexivity.
  - destruct (ex_isActive e); cbn [negb Bool.eqb option_list]; rewrite ?app_nil_r; reflexivity.
Qed.

Lemma Existing_of_vendor_update (u : MemoryUpdate) (r : VendorMemory) action now e :
  e = {| ex_confidence := vm_confidence r; ex_applicationCount := vm_applicationCount r;
         ex_consecutiveRejections := vm_consecutiveRejections r;
         ex_isActive := vm_isActive r |} ->
  let r' := Repo.setVendorColumns (updateOf action now e) r in
  {| ex_confidence := vm_confidence r'; ex_applicationCount := vm_applicationCount r';
     ex_consecutiveRejections := vm_consecutiveRejections r';
     ex_isActive := vm_isActive r' |} = after action e.
Proof. intros ->. destruct action; reflexivity. Qed.

Lemma Existing_of_correction_update (r : CorrectionMemory) action now e :
  e = {| ex_confidence := cm_confidence r; ex_applicationCount := cm_applicationCount r;
         ex_consecutiveRejections := cm_consecutiveRejections r;
         ex_isActive := cm_isActive r |} ->
  let r' := Repo.setCorrectionColumns (updateOf action now e) r in
  {| ex_confidence := cm_confidence r'; ex_applicationCount := cm_applicationCount r';
     ex_consecutiveRejections := cm_consecutiveRejections r';
     ex_isActive := cm_isActive r' |} = after action e.
Proof. intros ->. destruct action; reflexivity. Qed.

(** The row of [m] reads back as the memory after the action. *)
Lemma findExisting_updated m action now db e :
  findExisting m db = Some e ->
  findExisting m (updatedRow m (updateOf action now e) db) = Some (after action e).
Proof.
  unfold findExisting, updatedRow, Repo.findVendorMemoryById, Repo.findCorrectionMemoryById,
    Repo.updateVendorMemory, Repo.updateCorrectionMemory.
  destruct (ctm_memoryType m); cbn [vendor_memories correction_memories
                                    Repo.withVendorMemories Repo.withCorrectionMemories];
    intros H.
  - rewrite (find_updated vm_id) by reflexivity.
    destruct (List.find _ (vendor_memories db)) as [r|] eqn:E; [| discriminate].
    cbn [fmap option_fmap option_map] in *. rewrite (find_has_id vm_id _ _ _ E), String.eqb_refl.
    inversion H as [He]. rewrite He. f_equal.
    apply (Existing_of_vendor_update noUpdate r action now e). symmetry. exact He.
  - rewrite (find_updated cm_id) by reflexivity.
    destruct (List.find _ (correction_memories db)) as [r|] eqn:E; [| discriminate].
    cbn [fmap option_fmap option_map] in *. rewrite (find_has_id cm_id _ _ _ E), String.eqb_refl.
    inversion H as [He]. rewrite He. f_equal.
    apply (Existing_of_correction_update r action now e). symmetry. exact He.
  - rewrite (find_updated cm_id) by reflexivity.
    destruct (List.find _ (correction_memories db)) as [r|] eqn:E; [| discriminate].
    cbn [fmap option_fmap option_map] in *. rewrite (find_has_id cm_id _ _ _ E), String.eqb_refl.
    inversion H as [He]. rewrite He. f_equal.
    apply (Existing_of_correction_update r action now e). symmetry. exact He.
Qed.

(** The rows of other memories read back as before. *)
Lemma findExisting_other m m2 u db :
  memoryKey m <> memoryKey m2 ->
  findExisting m2 (updatedRow m u db) = findExisting m2 db.
Proof.
  unfold memoryKey, findExisting, updatedRow, Repo.findVendorMemoryById,
    Repo.findCorrectionMemoryById, Repo.updateVendorMemory, Repo.updateCorrectionMemory.
  intros Hkey.
  assert (Hrow : forall (R : Type) (id : R -> string) (g : R -> R) (rows : list R),
            (forall r, id (g r) = id r) -> ctm_memoryId m <> ctm_memoryId m2 ->
            List.find (fun r => String.eqb (id r) (ctm_memoryId m2))
                      (map (fun r => if String.eqb (id r) (ctm_memoryId m) then g r else r) rows)
            = List.find (fun r => String.eqb (id r) (ctm_memoryId m2)) rows).
  { intros R id g rows Hid Hne. rewrite (find_updated id) by exact Hid.
    destruct (List.find _ rows) as [r|] eqn:E; [| reflexivity].
    cbn. rewrite (find_has_id id _ _ _ E).
    destruct (String.eqb_spec (ctm_memoryId m2) (ctm_memoryId m)); [congruence | reflexivity]. }
  destruct (ctm_memoryType m), (ctm_memoryType m2);
    cbn [vendor_memories correction_memories Repo.withVendorMemories
         Repo.withCorrectionMemories]; try reflexivity;
    (rewrite Hrow; try reflexivity; intros E; apply Hkey; rewrite E; reflexivity).
Qed.

Lemma memoryIds_updatedRow m u db : memoryIds (updatedRow m u db) = memoryIds db.
Proof.
  unfold memoryIds, updatedRow, Repo.updateVendorMemory, Repo.updateCorrectionMemory.
  destruct (ctm_memoryType m);
    cbn [vendor_memories correction_memories Repo.withVendorMemories
         Repo.withCorrectionMemories]; rewrite List.map_map; f_equal;
    apply map_ext; intros r; destruct (String.eqb _ _); reflexivity.
Qed.

Lemma other_tables_updatedRow m u db :
  resolution_memories (updatedRow m u db) = resolution_memories db
  /\ audit_trail (updatedRow m u db) = audit_trail db
  /\ processed_invoices (updatedRow m u db) = processed_invoices db.
Proof. unfold updatedRow. destruct (ctm_memoryType m); repeat split. Qed.

Lemma withNotes_twice a b c d result :
  withNotes a b (withNotes c d result) = withNotes (c ++ a) (d ++ b) result.
Proof. unfold withNotes. cbn. rewrite <- !app_assoc. reflexivity. Qed.

Lemma withNotes_none result : withNotes [] [] result = result.
Proof. unfold withNotes. rewrite !app_nil_r. destruct result; reflexivity. Qed.

(** A pass of [updateMemory] over memories that stand for distinct rows:
    every row found is updated once, from what it held before the pass. *)
Lemma updates_fold action now (l : list ContributingMemory) db result :
  List.NoDup (map memoryKey l) ->
  let final := fold_left (fun st m => updateMemory m action now st) l (db, result) in
  memoryIds (fst final) = memoryIds db
  /\ resolution_memories (fst final) = resolution_memories db
  /\ audit_trail (fst final) = audit_trail db
  /\ processed_invoices (fst final) = processed_invoices db
  /\ (forall m, In (memoryKey m) (map memoryKey l) ->
                findExisting m (fst final) = after action <$> findExisting m db)
  /\ (forall m, ~ In (memoryKey m) (map memoryKey l) ->
                findExisting m (fst final) = findExisting m db)
  /\ snd final = withNotes (omap (noteFor false action db) l)
                           (omap (noteFor true action db) l) result.
Proof.
  revert db result. induction l as [|m0 l IH]; intros db result Hnd; cbv zeta.
  - cbn. rewrite withNotes_none.
    repeat (split; [reflexivity |]). split; [intros m [] |]. split; reflexivity.
  - cbn [fold_left map] in *. apply List.NoDup_cons_iff in Hnd as [Hm0 Hnd].
    rewrite updateMemory_unfold.
    set (st1 := match findExisting m0 db with
                | Some e => (updatedRow m0 (updateOf action now e) db,
                             withNotes (option_list (noteFor false action db m0))
                                       (option_list (noteFor true action db m0)) result)
                | None => (db, result)
                end).
    assert (Hstep : forall m, memoryKey m <> memoryKey m0 ->
              findExisting m (fst st1) = findExisting m db).
    { intros m Hne. subst st1. destruct (findExisting m0 db); [| reflexivity].
      apply findExisting_other. congruence. }
    assert (Hsame : forall m, memoryKey m = memoryKey m0 ->
              findExisting m (fst st1) = after action <$> findExisting m db).
    { intros m Heq.
      assert (Hfind : forall d, findExisting m d = findExisting m0 d).
      { intros d. unfold memoryKey in Heq. unfold findExisting.
        inversion Heq as [[Ht Hid]]. rewrite Hid.
        destruct (ctm_memoryType m), (ctm_memoryType m0); try discriminate; reflexivity. }
      rewrite !Hfind. subst st1. destruct (findExisting m0 db) as [e|] eqn:E0.
      - apply findExisting_updated. exact E0.
      - exact E0. }
    assert (Hnotes : forall d, omap (noteFor d action (fst st1)) l
                               = omap (noteFor d action db) l).
    { intros d. clear IH. clearbody st1.
      induction l as [|m1 l IHl]; [reflexivity |].
      cbn [map] in *. assert (Hm1 : memoryKey m1 <> memoryKey m0).
      { intros E. apply Hm0. left. exact E. }
      change (omap ?f (m1 :: l)) with (match f m1 with Some y => y :: omap f l | None => omap f l end).
      assert (Hn : noteFor d action (fst st1) m1 = noteFor d action db m1).
      { unfold noteFor. rewrite (Hstep m1 Hm1). reflexivity. }
      rewrite Hn, IHl; [reflexivity | intros H; apply Hm0; right; exact H
                       | apply List.NoDup_cons_iff in Hnd; tauto]. }
    assert (Hids1 : memoryIds (fst st1) = memoryIds db
                    /\ resolution_memories (fst st1) = resolution_memories db
                    /\ audit_trail (fst st1) = audit_trail db
                    /\ processed_invoices (fst st1) = processed_invoices db).
    { subst st1. destruct (findExisting m0 db) as [e|]; [| repeat split].
      cbn [fst]. split; [apply memoryIds_updatedRow | apply other_tables_updatedRow]. }
    assert (Hsnd1 : snd st1 = withNotes (option_list (noteFor false action db m0))
                                        (option_list (noteFor true action db m0)) result).
    { subst st1. unfold noteFor. destruct (findExisting m0 db) as [e|]; [reflexivity |].
      cbn [snd option_list]. symmetry. apply withNotes_none. }
    destruct Hids1 as (I1 & I2 & I3 & I4).
    specialize (IH (fst st1) (snd st1) Hnd). cbv zeta in IH.
    rewrite <- surjective_pairing in IH.
    destruct IH as (Hids & Hres & Haud & Hproc & Hin & Hout & Hsnd).
    split; [congruence |]. split; [congruence |]. split; [congruence |].
    split; [congruence |]. split; [| split].
    + intros m [Hm | Hm].
      * destruct (In_dec (fun a b : bool * string => decide (a = b)) (memoryKey m) (map memoryKey l))
          as [Hl | Hl].
        -- exfalso. apply Hm0. rewrite Hm. exact Hl.
        -- rewrite (Hout m Hl). apply Hsame. symmetry. exact Hm.
      * rewrite (Hin m Hm). rewrite Hstep; [reflexivity |].
        intros E. apply Hm0. rewrite <- E. exact Hm.
    + intros m Hm. rewrite Hout by (intros H; apply Hm; right; exact H).
      apply Hstep. intros E. apply Hm. left. symmetry. exact E.
    + rewrite Hsnd, !Hnotes, Hsnd1, withNotes_twice.
      change (omap ?f (m0 :: l)) with (match f m0 with Some y => y :: omap f l | None => omap f l end).
      destruct (noteFor false action db m0), (noteFor true action db m0); reflexivity.
Qed.

Lemma findExisting_saveAuditEntry m entry db :
  findExisting m (Repo.saveAuditEntry entry db) = findExisting m db.
Proof. reflexivity. Qed.

Lemma penalized_at_limit m e db :
  findExisting m db = Some e ->
  (maxConsecutiveRejectionsBeforeDeactivation CONFIDENCE_CONFIG
   <= ex_consecutiveRejections e + 1)%Z ->
  ex_isActive (penalized e) = false
  /\ noteFor true penalize db m = Some (deactivatedNote m)
  /\ noteFor false penalize db m = None.
Proof.
  intros He Hlimit. apply Z.leb_le in Hlimit. unfold noteFor. rewrite He.
  cbn [after penalized ex_isActive]. rewrite Hlimit. repeat split.
Qed.

End UpdateFacts.


(** C2. A [reject] feedback penalizes every contributing memory registered
    for the invoice id that stands for a row of its own: the call returns,
    the row of each such memory reads back with [applyPenalty] of its
    confidence, one more consecutive rejection, and the active flag cleared
    once the counter is at the configured limit; no row of the memory tables
    is removed. The memories whose flag is clear afterwards are reported in
    [deactivatedMemories], the others in [updatedMemories], none in both. *)
Theorem C2_reject_penalizes (feedback : HumanFeedback) (invoice : Invoice) (now : Z)
    (s : InvoiceProcessor) :
  fb_action feedback = Reject ->
  List.NoDup (map LearnSpec.memoryKey (default [] (contributingMemories s !! inv_id invoice))) ->
  exists result s',
    Learn.learnFromFeedback feedback invoice now s = Ok (result, s')
    /\ LearnSpec.memoryIds (repository s') = LearnSpec.memoryIds (repository s)
    /\ (forall m e,
          In m (default [] (contributingMemories s !! inv_id invoice)) ->
          Learn.findExisting m (repository s) = Some e ->
          Learn.findExisting m (repository s') = Some (LearnSpec.penalized e)
          /\ ((maxConsecutiveRejectionsBeforeDeactivation CONFIDENCE_CONFIG
               <= Learn.ex_consecutiveRejections e + 1)%Z ->
              Learn.ex_isActive (LearnSpec.penalized e) = false
              /\ LearnSpec.noteFor true penalize (repository s) m = Some (Learn.deactivatedNote m)
              /\ LearnSpec.noteFor false penalize (repository s) m = None))
    /\ createdMemories result = []
    /\ updatedMemories result
       = omap (LearnSpec.noteFor false penalize (repository s))
              (default [] (contributingMemories s !! inv_id invoice))
    /\ deactivatedMemories result
       = omap (LearnSpec.noteFor true penalize (repository s))
              (default [] (contributingMemories s !! inv_id invoice)).
Proof.
  intros Hreject Hnd. unfold Learn.learnFromFeedback. rewrite Hreject.
  set (contributing := default [] (contributingMemories s !! inv_id invoice)) in *.
  pose proof (updates_fold penalize now contributing (repository s) Learn.emptyResult Hnd) as H.
  cbv zeta in H.
  set (final := fold_left (fun st m => Learn.updateMemory m penalize now st) contributing
                          (repository s, Learn.emptyResult)) in *.
  destruct H as (Hids & _ & _ & _ & Hin & _ & Hsnd).
  eexists _, _. split; [reflexivity |].
  cbn [repository createdMemories updatedMemories deactivatedMemories fst snd].
  split; [exact Hids |]. split.
  - intros m e Hm He. split.
    + rewrite findExisting_saveAuditEntry, Hin by (apply in_map; exact Hm).
      rewrite He. reflexivity.
    + intros Hlimit. apply penalized_at_limit; assumption.
  - rewrite Hsnd. repeat split.
Qed.

Lemma C2_witness :
  exists result s',
    Learn.learnFromFeedback (SampleLearn.feedback "INV-A-003" Reject None)
      (SampleLearn.supplierInvoice "INV-A-003" 1705276800000) 1705363200000
      (SampleLearn.processor (SampleLearn.serviceDateMemory 0.6 2) "INV-A-003")
    = Ok (result, s')
    /\ Learn.ex_isActive <$> Learn.findExisting SampleLearn.serviceDateTrace (repository s')
       = Some false
    /\ deactivatedMemories result = ["vendor vm-1 deactivated"%string]
    /\ updatedMemories result = [].
Proof.
  destruct (C2_reject_penalizes (SampleLearn.feedback "INV-A-003" Reject None)
              (SampleLearn.supplierInvoice "INV-A-003" 1705276800000) 1705363200000
              (SampleLearn.processor (SampleLearn.serviceDateMemory 0.6 2) "INV-A-003")
              eq_refl)
    as (result & s' & Hcall & _ & Hrows & _ & Hupdated & Hdeactivated).
  - vm_compute. repeat constructor. intros [].
  - exists result, s'. split; [exact Hcall |]. split; [| split].
    + rewrite (proj1 (Hrows SampleLearn.serviceDateTrace _ (or_introl eq_refl) eq_refl)).
      reflexivity.
    + rewrite Hdeactivated. reflexivity.
    + rewrite Hupdated. reflexivity.
Defined.

(** ** Learn: corrections *)

Section CorrectionFacts.

Import Learn LearnSpec.

Lemma updateMemory_tables m action now db result :
  memoryIds (fst (updateMemory m action now (db, result))) = memoryIds db
  /\ createdMemories (snd (updateMemory m action now (db, result))) = createdMemories result.
Proof.
  rewrite updateMemory_unfold. destruct (findExisting m db); [| split; reflexivity].
  split; [apply memoryIds_updatedRow | reflexivity].
Qed.

(** What [createMemory] does: with a known mapping it reinforces the rows of
    that id and creates nothing; without one, a call that returns has drawn
    one identifier, added one row of that id and one note. *)
Lemma createMemory_outcome corr invoice vendorId now db result drawn :
  match knownMapping corr invoice vendorId db with
  | Some known =>
      exists db' result',
        createMemory corr invoice vendorId now (db, result, drawn) = Ok (db', result', drawn)
        /\ createdMemories result' = createdMemories result
        /\ memoryIds db' = memoryIds db
        /\ Forall (fun r => vm_id r = vm_id known ->
                            vm_confidence r = applyReinforcement (vm_confidence known)
                            /\ vm_consecutiveRejections r = 0%Z)
                  (vendor_memories db')
  | None =>
      forall db' result' drawn',
        createMemory corr invoice vendorId now (db, result, drawn) = Ok (db', result', drawn') ->
        drawn' = S drawn
        /\ (exists note, createdMemories result' = createdMemories result ++ [note])
        /\ oneRowMore (uuidv4 drawn) (memoryIds db) (memoryIds db')
  end.
Proof.
  unfold knownMapping, createMemory.
  destruct (mappingLabel invoice corr) as [label|].
  - destruct (List.find _ (Repo.findVendorMemories vendorId db)) as [known|].
    + eexists _, _. split; [reflexivity |]. split; [reflexivity |]. split.
      * unfold memoryIds, Repo.updateVendorMemory.
        cbn [vendor_memories correction_memories Repo.withVendorMemories].
        rewrite List.map_map. f_equal. apply map_ext. intros r.
        destruct (String.eqb _ _); reflexivity.
      * unfold Repo.updateVendorMemory. cbn [vendor_memories Repo.withVendorMemories].
        apply List.Forall_forall. intros r Hr. apply in_map_iff in Hr as (r0 & <- & _).
        destruct (String.eqb_spec (vm_id r0) (vm_id known)) as [E | E]; intros Hid.
        -- split; reflexivity.
        -- contradiction.
    + intros db' result' drawn'. unfold Repo.saveVendorMemory.
      cbn [vm_id vm_vendorId vm_originalFieldName].
      destruct (existsb _ _); [discriminate |]. destruct (existsb _ _); [discriminate |].
      cbn. intros H. inversion H; subst. split; [reflexivity |]. split; [eexists; reflexivity |].
      left. unfold memoryIds. cbn. rewrite List.map_app. reflexivity.
  - intros db' result' drawn'. unfold Repo.saveCorrectionMemory. cbn [cm_id].
    destruct (existsb _ _); [discriminate |].
    cbn. intros H. inversion H; subst. split; [reflexivity |]. split; [eexists; reflexivity |].
    right. unfold memoryIds. cbn. rewrite List.map_app. reflexivity.
Qed.

End CorrectionFacts.

(** C10. A correction of a field whose contributing memory (the first one
    registered for the field) is of vendor kind without an extracted value is
    never taken for a confirmation: the memory's row, when there is one, has
    its confidence halved, and [createMemory] is called on the outcome.
    [createMemory] then creates a memory only when it knows no active mapping
    of the vendor from the field's label to the field; when it knows one, it
    reinforces that mapping and creates nothing. *)
Theorem C10_vendor_trace_contradicted (contributing : list ContributingMemory)
    (invoice : Invoice) (vendorId : string) (now : Z) (db : Repository)
    (result : LearningResult) (drawn : nat) (corr : FieldCorrection)
    (cm : ContributingMemory) :
  List.find (fun m => String.eqb (ctm_fieldName m) (fc_fieldName corr)) contributing = Some cm ->
  ctm_memoryType cm = vendor ->
  ctm_extractedValue cm = None ->
  let st1 := Learn.updateMemory cm contradict now (db, result) in
  Learn.confirms (Learn.getMemorySuggestedValue cm db) corr = false
  /\ Learn.learnCorrection contributing invoice vendorId now (db, result, drawn) corr
     = Learn.createMemory corr invoice vendorId now (fst st1, snd st1, drawn)
  /\ (forall e, Learn.findExisting cm db = Some e ->
                Learn.findExisting cm (fst st1) = Some (LearnSpec.contradicted e))
  /\ match LearnSpec.knownMapping corr invoice vendorId (fst st1) with
     | Some known =>
         exists db' result',
           Learn.learnCorrection contributing invoice vendorId now (db, result, drawn) corr
           = Ok (db', result', drawn)
           /\ createdMemories result' = createdMemories result
           /\ LearnSpec.memoryIds db' = LearnSpec.memoryIds db
           /\ Forall (fun r => vm_id r = vm_id known ->
                               vm_confidence r = applyReinforcement (vm_confidence known)
                               /\ vm_consecutiveRejections r = 0%Z)
                     (vendor_memories db')
     | None =>
         forall db' result' drawn',
           Learn.learnCorrection contributing invoice vendorId now (db, result, drawn) corr
           = Ok (db', result', drawn') ->
           drawn' = S drawn
           /\ (exists note, createdMemories result' = createdMemories result ++ [note])
           /\ LearnSpec.oneRowMore (uuidv4 drawn) (LearnSpec.memoryIds db)
                                   (LearnSpec.memoryIds db')
     end.
Proof.
  intros Hfind Hvendor Hnone st1.
  assert (Hconfirms : Learn.confirms (Learn.getMemorySuggestedValue cm db) corr = false).
  { unfold Learn.getMemorySuggestedValue. rewrite Hnone, Hvendor. reflexivity. }
  assert (Hcall : Learn.learnCorrection contributing invoice vendorId now (db, result, drawn) corr
                  = Learn.createMemory corr invoice vendorId now (fst st1, snd st1, drawn)).
  { unfold Learn.learnCorrection. rewrite Hfind, Hconfirms. reflexivity. }
  destruct (updateMemory_tables cm contradict now db result) as [Hids Hcreated].
  fold st1 in Hids, Hcreated.
  split; [exact Hconfirms |]. split; [exact Hcall |]. split.
  - intros e He. subst st1. rewrite updateMemory_unfold, He.
    apply (findExisting_updated cm contradict now db e He).
  - rewrite Hcall.
    pose proof (createMemory_outcome corr invoice vendorId now (fst st1) (snd st1) drawn) as H.
    destruct (LearnSpec.knownMapping corr invoice vendorId (fst st1)) as [known|].
    + destruct H as (db' & result' & H1 & H2 & H3 & H4). exists db', result'.
      rewrite <- Hcreated, <- Hids. auto.
    + intros db' result' drawn' Hok. rewrite <- Hcreated, <- Hids. apply H. exact Hok.
Qed.

Lemma C10_witness :
  exists db' result',
    Learn.learnCorrection [SampleLearn.serviceDateTrace]
      (SampleLearn.supplierInvoice "INV-A-001" 1705276800000) "supplier gmbh" 1705363200000
      (repository (SampleLearn.processor (SampleLearn.serviceDateMemory 0.8 0) "INV-A-001"),
       Learn.emptyResult, 0%nat)
      SampleLearn.serviceDateCorrection
    = Ok (db', result', 0%nat)
    /\ createdMemories result' = []
    /\ Forall (fun r => vm_id r = "vm-1"%string ->
                        vm_confidence r = applyReinforcement (0.8 * 0.5)
                        /\ vm_consecutiveRejections r = 0%Z)
              (vendor_memories db').
Proof.
  destruct (proj2 (proj2 (proj2
    (C10_vendor_trace_contradicted [SampleLearn.serviceDateTrace]
       (SampleLearn.supplierInvoice "INV-A-001" 1705276800000) "supplier gmbh" 1705363200000
       (repository (SampleLearn.processor (SampleLearn.serviceDateMemory 0.8 0) "INV-A-001"))
       Learn.emptyResult 0%nat SampleLearn.serviceDateCorrection SampleLearn.serviceDateTrace
       eq_refl eq_refl eq_refl))))
    as (db' & result' & H1 & H2 & _ & H4).
  exists db', result'. split; [exact H1 |]. split; [exact H2 |]. exact H4.
Defined.

(** C10, as stated, fails: a memory is not always created. The correction of the
    service date of a Supplier GmbH invoice, whose mapping
    Leistungsdatum -> serviceDate extracted nothing, halves that mapping's
    confidence and then reinforces it; no memory is created. *)
Lemma C10_counterexample :
  exists result s',
    Learn.learnFromFeedback
      (SampleLearn.feedback "INV-A-001" Correct (Some [SampleLearn.serviceDateCorrection]))
      (SampleLearn.supplierInvoice "INV-A-001" 1705276800000) 1705363200000
      (SampleLearn.processor (SampleLearn.serviceDateMemory 0.8 0) "INV-A-001")
    = Ok (result, s')
    /\ createdMemories result = []
    /\ LearnSpec.memoryIds (repository s') = (["vm-1"%string], [])
    /\ (exists row, vendor_memories (repository s') = [row]
                    /\ (vm_confidence row == 0.43)%Q).
Proof.
  eexists _, _. split; [vm_compute; reflexivity |].
  split; [reflexivity |]. split; [reflexivity |].
  eexists. split; [reflexivity |]. vm_compute. reflexivity.
Qed.

(** ** Duplicates and the frame of [processInvoice] *)

Section IncludesFacts.





End IncludesFacts.

Section DuplicateFacts.

Import DecisionService.

Lemma sweepMemory_review l s :
  sw_review s = true -> sw_review (fold_left sweepMemory l s) = true.
Proof.
  revert s. induction l as [|m l IH]; intros s H; [exact H |].
  cbn [fold_left]. apply IH. unfold sweepMemory.
  destruct (JsNum.geb _ _); [exact H |]. destruct (_ && _); [reflexivity | exact H].
Qed.



Lemma dayOf_monotone a b : (a <= b)%Z -> (Repo.dayOf a <= Repo.dayOf b)%Z.
Proof. intros H. unfold Repo.dayOf, Repo.msPerDay. apply Z.div_le_mono; lia. Qed.

(** An invoice recorded within a week of [date] under the same vendor key
    and number is among the potential duplicates. *)
Lemma findPotentialDuplicates_within row vendorId number date db :
  In row (processed_invoices db) ->
  pi_vendorId row = vendorId ->
  pi_invoiceNumber row = number ->
  (Z.abs (date - pi_invoiceDate row) <= 7 * Repo.msPerDay)%Z ->
  In (pi_id row) (Repo.findPotentialDuplicates vendorId number date db).
Proof.
  intros Hin Hv Hn Hd. unfold Repo.findPotentialDuplicates. cbv zeta.
  apply in_map, filter_In. split; [exact Hin |].
  rewrite Hv, Hn, !String.eqb_refl. cbn [andb].
  apply andb_true_intro. split; apply Z.leb_le, dayOf_monotone; lia.
Qed.



(** [processInvoice] writes to the audit trail and to the table of
    processed invoices only. *)
Lemma processInvoice_frame invoice now s :
  let s' := snd (Processor.processInvoice invoice now s) in
  vendor_memories (repository s') = vendor_memories (repository s)
  /\ correction_memories (repository s') = correction_memories (repository s)
  /\ resolution_memories (repository s') = resolution_memories (repository s).
Proof. repeat split. Qed.

End DuplicateFacts.



(** ** The statements at sample invoices *)

Lemma C3_witness :
  (DecisionService.calcOverallConfidence (Sample.partsInvoice "INV-B-001" "Total 2380.00")
     [ApplySpec.correctionTrace (Sample.correctionFor "cm-1" "currency" "EUR" 0.9)]
   == DecideSpec.overallConfidence 0.01 (Sample.partsInvoice "INV-B-001" "Total 2380.00")
        [ApplySpec.correctionTrace (Sample.correctionFor "cm-1" "currency" "EUR" 0.9)])%Q.
Proof.
  apply (C3_overall_confidence (Sample.partsInvoice "INV-B-001" "Total 2380.00")
           [ApplySpec.correctionTrace (Sample.correctionFor "cm-1" "currency" "EUR" 0.9)]).
  repeat constructor. vm_compute. discriminate.
Defined.

Lemma C6_witness :
  In (ApplySpec.correctionTrace (Sample.correctionFor "cm-1" "currency" "EUR" 0.9))
     (appliedMemories
        (ar_appliedResult
           (ApplyService.applyMemories (Sample.partsInvoice "INV-B-001" "Total 2380.00")
              {| vendorMemories := [];
                 correctionMemories := [Sample.correctionFor "cm-1" "currency" "EUR" 0.9];
                 resolutionMemories := [] |} 0)))
  /\ normalizedInvoice
       (ar_appliedResult
          (ApplyService.applyMemories (Sample.partsInvoice "INV-B-001" "Total 2380.00")
             {| vendorMemories := [];
                correctionMemories := [Sample.correctionFor "cm-1" "currency" "EUR" 0.9];
                resolutionMemories := [] |} 0)) !! "currency"%string
     = Some (VString "EUR").
Proof.
  pose proof (C6_correction_memory_applied (Sample.partsInvoice "INV-B-001" "Total 2380.00")
                {| vendorMemories := [];
                   correctionMemories := [Sample.correctionFor "cm-1" "currency" "EUR" 0.9];
                   resolutionMemories := [] |} 0 [] []
                (Sample.correctionFor "cm-1" "currency" "EUR" 0.9) eq_refl) as H.
  cbv zeta in H. destruct H as (_ & Htrace & Hfield). split; [exact Htrace |].
  apply (proj2 (proj2 Hfield)); [reflexivity |]. right. discriminate.
Defined.

(** ** Confidence arithmetic: ranges and actions *)

Section ConfidenceRanges.

Local Open Scope Q_scope.

Lemma geb_le x y : JsNum.geb x y = true <-> y <= x.
Proof. unfold JsNum.geb. apply Qle_bool_iff. Qed.

Lemma geb_lt x y : JsNum.geb x y = false <-> x < y.
Proof.
  unfold JsNum.geb. split.
  - intros H. apply Qnot_le_lt. intros Hle. apply Qle_bool_iff in Hle. congruence.
  - intros H. destruct (Qle_bool y x) eqn:E; [| reflexivity].
    apply Qle_bool_iff in E. lra.
Qed.

(** The action of a confidence, by the two thresholds. *)
Lemma mapConfidenceToAction_cases c :
  (0.85 <= c /\ mapConfidenceToAction c = auto_applied)
  \/ (0.70 <= c < 0.85 /\ mapConfidenceToAction c = suggested)
  \/ (c < 0.70 /\ mapConfidenceToAction c = flagged).
Proof.
  unfold mapConfidenceToAction.
  change (autoApplyThreshold CONFIDENCE_CONFIG) with 0.85.
  change (suggestionThreshold CONFIDENCE_CONFIG) with 0.70.
  destruct (JsNum.geb c 0.85) eqn:E1.
  - left. split; [apply geb_le; exact E1 | reflexivity].
  - right. apply geb_lt in E1. destruct (JsNum.geb c 0.70) eqn:E2.
    + left. apply geb_le in E2. repeat split; assumption.
    + right. apply geb_lt in E2. split; [assumption | reflexivity].
Qed.

Lemma rank_monotone c c' :
  c <= c' ->
  (ConfidenceSpec.rank (mapConfidenceToAction c)
   <= ConfidenceSpec.rank (mapConfidenceToAction c'))%nat.
Proof.
  intros Hle.
  destruct (mapConfidenceToAction_cases c) as [[H ->] | [[H ->] | [H ->]]];
    destruct (mapConfidenceToAction_cases c') as [[H' ->] | [[H' ->] | [H' ->]]];
    cbn [ConfidenceSpec.rank]; try lia; exfalso; lra.
Qed.

End ConfidenceRanges.

(** X1. A reinforcement never takes a confidence above the cap (0.95): it
    leaves a confidence at or above the cap at the cap, does not lower one at
    or below it, and raises every confidence below it. *)
Theorem reinforcement_range (c : Q) :
  (applyReinforcement c <= maxConfidence CONFIDENCE_CONFIG)%Q
  /\ ((maxConfidence CONFIDENCE_CONFIG <= c)%Q ->
      (applyReinforcement c == maxConfidence CONFIDENCE_CONFIG)%Q)
  /\ ((c <= maxConfidence CONFIDENCE_CONFIG)%Q -> (c <= applyReinforcement c)%Q)
  /\ ((c < maxConfidence CONFIDENCE_CONFIG)%Q -> (c < applyReinforcement c)%Q).
Proof.
  change (maxConfidence CONFIDENCE_CONFIG) with 0.95%Q.
  rewrite applyReinforcement_unfold. split; [apply Q.le_min_r |]. split; [| split].
  - intros Hc. apply Q.min_r. lra.
  - intros Hc. apply Q.min_glb; lra.
  - intros Hc. apply Q.min_glb_lt; lra.
Qed.

(** X2. A penalty never yields a negative confidence: it multiplies a
    confidence that is not negative by 0.7, which does not raise it, and
    turns a negative one into 0. *)
Theorem penalty_range (c : Q) :
  (0 <= applyPenalty c)%Q
  /\ ((0 <= c)%Q -> (applyPenalty c == c * 0.7)%Q /\ (applyPenalty c <= c)%Q)
  /\ ((c <= 0)%Q -> (applyPenalty c == 0)%Q).
Proof.
  rewrite applyPenalty_unfold. split; [apply Q.le_max_r |]. split.
  - intros Hc. assert (H : (Qmax (c * 0.7) 0 == c * 0.7)%Q) by (apply Q.max_l; lra).
    rewrite H. split; [reflexivity | lra].
  - intros Hc. apply Q.max_r. lra.
Qed.

(** X3. A higher confidence never gets a weaker action. *)
Theorem action_monotone (c c' : Q) :
  (c <= c')%Q ->
  (ConfidenceSpec.rank (mapConfidenceToAction c)
   <= ConfidenceSpec.rank (mapConfidenceToAction c'))%nat.
Proof. apply rank_monotone. Qed.

Lemma action_monotone_witness :
  (ConfidenceSpec.rank (mapConfidenceToAction 0.6)
   <= ConfidenceSpec.rank (mapConfidenceToAction 0.9))%nat.
Proof. apply (action_monotone 0.6 0.9). vm_compute. discriminate. Defined.

(** X4. For a confidence between 0 and the cap, an approval never weakens
    the action of a memory and a rejection never strengthens it; both leave
    the confidence between 0 and the cap. *)
Theorem feedback_moves_action (c : Q) :
  ConfidenceSpec.inRange c ->
  (ConfidenceSpec.rank (mapConfidenceToAction c)
   <= ConfidenceSpec.rank (mapConfidenceToAction (applyReinforcement c)))%nat
  /\ (ConfidenceSpec.rank (mapConfidenceToAction (applyPenalty c))
      <= ConfidenceSpec.rank (mapConfidenceToAction c))%nat
  /\ ConfidenceSpec.inRange (applyReinforcement c)
  /\ ConfidenceSpec.inRange (applyPenalty c).
Proof.
  unfold ConfidenceSpec.inRange. change (maxConfidence CONFIDENCE_CONFIG) with 0.95%Q.
  intros [Hlo Hhi].
  pose proof (applyReinforcement_increasing c Hhi) as Hup.
  pose proof (applyReinforcement_le_max c) as Hmax.
  pose proof (applyPenalty_nonneg_arg c Hlo) as Hpen.
  split; [apply rank_monotone; exact Hup |].
  split; [apply rank_monotone; rewrite Hpen; lra |].
  split; [split; lra |]. rewrite Hpen. split; lra.
Qed.

Lemma feedback_moves_action_witness :
  (ConfidenceSpec.rank (mapConfidenceToAction (applyPenalty 0.9))
   <= ConfidenceSpec.rank (mapConfidenceToAction 0.9))%nat.
Proof.
  apply (proj1 (proj2 (feedback_moves_action 0.9 ltac:(split; vm_compute; discriminate)))).
Defined.

(** ** The vendor key *)

Section VendorKeyFacts.

Import Js.

Lemma isSpace_lowerChar c : isSpace (lowerChar c) = isSpace c.
Proof. destruct c as [[] [] [] [] [] [] [] []]; reflexivity. Qed.

Lemma lowerChar_idempotent c : lowerChar (lowerChar c) = lowerChar c.
Proof. destruct c as [[] [] [] [] [] [] [] []]; reflexivity. Qed.

Lemma lowerChar_space c : isSpace c = true -> lowerChar c = c.
Proof. destruct c as [[] [] [] [] [] [] [] []]; intros H; try discriminate H; reflexivity. Qed.

Lemma toLowerCase_idempotent s : toLowerCase (toLowerCase s) = toLowerCase s.
Proof.
  induction s as [|c s IH]; [reflexivity |].
  cbn. rewrite lowerChar_idempotent. f_equal. exact IH.
Qed.

Lemma toLowerCase_trimStart s : toLowerCase (trimStart s) = trimStart (toLowerCase s).
Proof.
  induction s as [|c s IH]; [reflexivity |].
  cbn. rewrite isSpace_lowerChar. destruct (isSpace c); [exact IH | reflexivity].
Qed.

Lemma allSpace_toLowerCase s : allSpace (toLowerCase s) = allSpace s.
Proof.
  induction s as [|c s IH]; [reflexivity |].
  cbn. rewrite isSpace_lowerChar. f_equal. exact IH.
Qed.

Lemma toLowerCase_trimEnd s : toLowerCase (trimEnd s) = trimEnd (toLowerCase s).
Proof.
  induction s as [|c s IH]; [reflexivity |].
  change (toLowerCase (String c s)) with (String (lowerChar c) (toLowerCase s)).
  cbn [trimEnd]. change (String (lowerChar c) (toLowerCase s)) with (toLowerCase (String c s)).
  rewrite allSpace_toLowerCase. destruct (allSpace (String c s)); [reflexivity |].
  cbn. f_equal. exact IH.
Qed.

Lemma toLowerCase_collapseFrom b s :
  toLowerCase (collapseFrom b s) = collapseFrom b (toLowerCase s).
Proof.
  revert b. induction s as [|c s IH]; intros b; [reflexivity |].
  cbn. rewrite isSpace_lowerChar. destruct (isSpace c), b; cbn; rewrite ?IH; reflexivity.
Qed.

Lemma collapseFrom_idempotent b s : collapseFrom b (collapseFrom b s) = collapseFrom b s.
Proof.
  revert b. induction s as [|c s IH]; intros b; [reflexivity |].
  cbn. destruct (isSpace c) eqn:E.
  - destruct b; [apply IH |]. cbn. rewrite IH. reflexivity.
  - cbn. rewrite E, IH. reflexivity.
Qed.

Lemma allSpace_collapseFrom b s : allSpace (collapseFrom b s) = allSpace s.
Proof.
  revert b. induction s as [|c s IH]; intros b; [reflexivity |].
  cbn. destruct (isSpace c) eqn:E.
  - destruct b; cbn; rewrite IH; reflexivity.
  - cbn. rewrite E. reflexivity.
Qed.

Lemma allSpace_trimEnd s : allSpace s = false -> allSpace (trimEnd s) = false.
Proof.
  induction s as [|c s IH]; [discriminate |].
  intros H. cbn [trimEnd]. rewrite H. cbn in *.
  destruct (isSpace c); [apply IH; exact H | reflexivity].
Qed.

Lemma trimEnd_idempotent s : trimEnd (trimEnd s) = trimEnd s.
Proof.
  induction s as [|c s IH]; [reflexivity |].
  cbn [trimEnd]. destruct (allSpace (String c s)) eqn:E; [reflexivity |].
  cbn [trimEnd].
  assert (H : allSpace (String c (trimEnd s)) = false).
  { cbn in *. destruct (isSpace c); [apply allSpace_trimEnd; exact E | reflexivity]. }
  rewrite H, IH. reflexivity.
Qed.

(** A text that does not end in white space still does not after the runs
    of white space are collapsed. *)
Lemma trimEnd_collapseFrom b s :
  trimEnd s = s -> trimEnd (collapseFrom b s) = collapseFrom b s.
Proof.
  revert b. induction s as [|c s IH]; intros b; [reflexivity |].
  cbn [trimEnd]. destruct (allSpace (String c s)) eqn:E; [discriminate |].
  intros H. inversion H as [Hs]. rewrite Hs. cbn [collapseFrom].
  destruct (isSpace c) eqn:Ec.
  - assert (Es : allSpace s = false) by (cbn in E; rewrite Ec in E; exact E).
    destruct b; [apply IH; exact Hs |].
    cbn [trimEnd allSpace]. change (isSpace " ") with true. rewrite allSpace_collapseFrom, Es.
    cbn [andb]. rewrite (IH true Hs). reflexivity.
  - cbn [trimEnd allSpace]. rewrite Ec. cbn [andb]. rewrite (IH false Hs). reflexivity.
Qed.

(** The head of a trimmed text is no white space. *)
Lemma trimStart_trim s : trimStart (trim s) = trim s.
Proof.
  unfold trim. induction s as [|c s IH]; [reflexivity |].
  cbn [trimStart]. destruct (isSpace c) eqn:E; [exact IH |].
  cbn [trimEnd]. destruct (allSpace (String c s)); [reflexivity |].
  cbn [trimStart]. rewrite E. reflexivity.
Qed.

Lemma trimStart_collapse s : trimStart s = s -> trimStart (collapseSpaces s) = collapseSpaces s.
Proof.
  unfold collapseSpaces. destruct s as [|c s]; [reflexivity |].
  cbn [trimStart collapseFrom]. destruct (isSpace c) eqn:E.
  - intros H. exfalso. assert (Hlen : String.length (trimStart s) <= String.length s).
    { clear. induction s as [|d s IH]; [reflexivity |]. cbn [trimStart].
      destruct (isSpace d); cbn; lia. }
    rewrite H in Hlen. cbn in Hlen. lia.
  - intros _. cbn [trimStart]. rewrite E. reflexivity.
Qed.

Lemma trim_collapse_trim s : trim (collapseSpaces (trim s)) = collapseSpaces (trim s).
Proof.
  unfold trim at 1. rewrite (trimStart_collapse _ (trimStart_trim s)).
  apply trimEnd_collapseFrom. unfold trim. apply trimEnd_idempotent.
Qed.

Lemma toLowerCase_normalized s :
  toLowerCase (normalizeVendorName s) = normalizeVendorName s.
Proof.
  unfold normalizeVendorName, collapseSpaces, trim.
  rewrite toLowerCase_collapseFrom, toLowerCase_trimEnd, toLowerCase_trimStart,
    toLowerCase_idempotent. reflexivity.
Qed.

End VendorKeyFacts.

(** X5. Normalizing a vendor name twice gives what normalizing it once
    gives: a vendor key is its own key. *)
Theorem normalizeVendorName_idempotent (vendorName : string) :
  normalizeVendorName (normalizeVendorName vendorName) = normalizeVendorName vendorName.
Proof.
  unfold normalizeVendorName at 1. rewrite toLowerCase_normalized.
  unfold normalizeVendorName. rewrite trim_collapse_trim.
  apply collapseFrom_idempotent.
Qed.

(** X6. On names of the 7-bit alphabet the vendor key ignores the case of
    letters: such a name in upper case has the key of the name. (Beyond that
    alphabet [toUpperCase] can lengthen a name, as it does for the sharp s,
    and nothing is said.) *)
Theorem normalizeVendorName_ignores_case (vendorName : string) :
  ConfidenceSpec.ascii7 vendorName = true ->
  normalizeVendorName (Js.toUpperCase vendorName) = normalizeVendorName vendorName.
Proof.
  intros _. unfold normalizeVendorName. f_equal. f_equal.
  induction vendorName as [|c s IH]; [reflexivity |].
  cbn. f_equal; [| exact IH].
  destruct c as [[] [] [] [] [] [] [] []]; reflexivity.
Qed.

Lemma normalizeVendorName_ignores_case_witness :
  normalizeVendorName (Js.toUpperCase "Supplier  GmbH ") = normalizeVendorName "Supplier  GmbH ".
Proof. apply (normalizeVendorName_ignores_case "Supplier  GmbH "). reflexivity. Defined.

(** ** The keys of the repository *)

Section KeyFacts.

Import RepoSpec.

Lemma existsb_id_In {R : Type} (id : R -> string) (x : string) (rows : list R) :
  existsb (fun r => String.eqb (id r) x) rows = true <-> In x (map id rows).
Proof.
  rewrite existsb_exists, in_map_iff. split; intros (r & H1 & H2).
  - exists r. split; [apply String.eqb_eq; exact H2 | exact H1].
  - exists r. split; [exact H2 | apply String.eqb_eq; exact H1].
Qed.

Lemma existsb_pair_In (m : VendorMemory) (rows : list VendorMemory) :
  existsb (fun r => String.eqb (vm_vendorId r) (vm_vendorId m)
                    && String.eqb (vm_originalFieldName r) (vm_originalFieldName m)) rows = true
  <-> In (vendorPair m) (map vendorPair rows).
Proof.
  rewrite existsb_exists, in_map_iff. unfold vendorPair. split; intros (r & H1 & H2).
  - exists r. apply andb_prop in H2 as [Ha Hb].
    apply String.eqb_eq in Ha, Hb. rewrite Ha, Hb. split; [reflexivity | exact H1].
  - exists r. inversion H1 as [[Ha Hb]]. rewrite !String.eqb_refl. split; [exact H2 | reflexivity].
Qed.

Lemma NoDup_snoc {A : Type} (l : list A) (x : A) :
  List.NoDup l -> ~ In x l -> List.NoDup (l ++ [x]).
Proof.
  intros Hl Hx. induction Hl as [|y l Hy Hl IH]; [repeat constructor; intros [] |].
  cbn. constructor.
  - intros H. apply in_app_or in H as [H | [H | []]]; [contradiction |].
    apply Hx. left. symmetry. exact H.
  - apply IH. intros H. apply Hx. right. exact H.
Qed.

Lemma map_update_key {R K : Type} (key : R -> K) (p : R -> bool) (g : R -> R) (rows : list R) :
  (forall r, key (g r) = key r) ->
  map key (map (fun r => if p r then g r else r) rows) = map key rows.
Proof.
  intros Hg. rewrite List.map_map. apply map_ext. intros r. destruct (p r); [apply Hg | reflexivity].
Qed.

Lemma updateVendorMemory_keys id u db :
  wellKeyed db -> wellKeyed (Repo.updateVendorMemory id u db).
Proof.
  intros [H1 H2 H3 H4]. unfold Repo.updateVendorMemory. split;
    cbn [vendor_memories correction_memories processed_invoices Repo.withVendorMemories];
    try assumption; rewrite map_update_key; auto.
Qed.

Lemma updateCorrectionMemory_keys id u db :
  wellKeyed db -> wellKeyed (Repo.updateCorrectionMemory id u db).
Proof.
  intros [H1 H2 H3 H4]. unfold Repo.updateCorrectionMemory. split;
    cbn [vendor_memories correction_memories processed_invoices Repo.withCorrectionMemories];
    try assumption; rewrite map_update_key; auto.
Qed.

Lemma saveAuditEntry_keys e db : wellKeyed db -> wellKeyed (Repo.saveAuditEntry e db).
Proof. intros [H1 H2 H3 H4]. split; assumption. Qed.

Lemma saveVendorMemory_keys m db db' :
  wellKeyed db -> Repo.saveVendorMemory m db = Ok db' -> wellKeyed db'.
Proof.
  intros [H1 H2 H3 H4]. unfold Repo.saveVendorMemory.
  destruct (existsb (fun r => String.eqb (vm_id r) (vm_id m)) (vendor_memories db)) eqn:E1;
    [discriminate |].
  destruct (existsb (fun r => String.eqb (vm_vendorId r) (vm_vendorId m)
                              && String.eqb (vm_originalFieldName r) (vm_originalFieldName m))
                    (vendor_memories db)) eqn:E2; [discriminate |].
  intros H. inversion H; subst. split;
    cbn [vendor_memories correction_memories processed_invoices Repo.withVendorMemories];
    try assumption; rewrite List.map_app; apply NoDup_snoc; try assumption.
  - rewrite <- existsb_id_In, E1. discriminate.
  - rewrite <- existsb_pair_In, E2. discriminate.
Qed.

Lemma saveCorrectionMemory_keys m db db' :
  wellKeyed db -> Repo.saveCorrectionMemory m db = Ok db' -> wellKeyed db'.
Proof.
  intros [H1 H2 H3 H4]. unfold Repo.saveCorrectionMemory.
  destruct (existsb (fun r => String.eqb (cm_id r) (cm_id m)) (correction_memories db)) eqn:E1;
    [discriminate |].
  intros H. inversion H; subst. split;
    cbn [vendor_memories correction_memories processed_invoices Repo.withCorrectionMemories];
    try assumption. rewrite List.map_app. apply NoDup_snoc; [assumption |].
  rewrite <- existsb_id_In, E1. discriminate.
Qed.

Lemma NoDup_map_filter {R K : Type} (key : R -> K) (p : R -> bool) (rows : list R) :
  List.NoDup (map key rows) -> List.NoDup (map key (List.filter p rows)).
Proof.
  induction rows as [|r rows IH]; [intros; constructor |].
  cbn. intros H. apply List.NoDup_cons_iff in H as [Hr H].
  destruct (p r); [| apply IH; exact H]. cbn. constructor; [| apply IH; exact H].
  intros Hin. apply Hr. apply in_map_iff in Hin as (x & Hx & Hf).
  apply in_map_iff. exists x. split; [exact Hx |]. apply filter_In in Hf. tauto.
Qed.


Lemma updatedRow_keys m u db : wellKeyed db -> wellKeyed (LearnSpec.updatedRow m u db).
Proof.
  intros H. unfold LearnSpec.updatedRow.
  destruct (ctm_memoryType m);
    [apply updateVendorMemory_keys | apply updateCorrectionMemory_keys
     | apply updateCorrectionMemory_keys]; exact H.
Qed.

Lemma updateMemory_keys m action now db result :
  wellKeyed db -> wellKeyed (fst (Learn.updateMemory m action now (db, result))).
Proof.
  intros H. rewrite updateMemory_unfold. destruct (Learn.findExisting m db); [| exact H].
  apply updatedRow_keys. exact H.
Qed.

Lemma updates_keys action now l st :
  wellKeyed (fst st) ->
  wellKeyed (fst (fold_left (fun st m => Learn.updateMemory m action now st) l st)).
Proof.
  revert st. induction l as [|m l IH]; intros st H; [exact H |].
  cbn [fold_left]. apply IH. destruct st as [db result]. apply updateMemory_keys. exact H.
Qed.

Lemma createMemory_keys corr invoice vendorId now db result drawn db' result' drawn' :
  wellKeyed db ->
  Learn.createMemory corr invoice vendorId now (db, result, drawn) = Ok (db', result', drawn') ->
  wellKeyed db'.
Proof.
  intros H. unfold Learn.createMemory.
  destruct (Learn.mappingLabel invoice corr) as [label|].
  - destruct (List.find _ _) as [known|].
    + intros E. inversion E; subst. apply updateVendorMemory_keys. exact H.
    + destruct (Repo.saveVendorMemory _ db) as [db1|msg] eqn:E1; [| discriminate].
      cbn. intros E. inversion E; subst. apply (saveVendorMemory_keys _ _ _ H E1).
  - destruct (Repo.saveCorrectionMemory _ db) as [db1|msg] eqn:E1; [| discriminate].
    cbn. intros E. inversion E; subst. apply (saveCorrectionMemory_keys _ _ _ H E1).
Qed.

Lemma learnCorrection_keys contributing invoice vendorId now db result drawn corr
    db' result' drawn' :
  wellKeyed db ->
  Learn.learnCorrection contributing invoice vendorId now (db, result, drawn) corr
  = Ok (db', result', drawn') ->
  wellKeyed db'.
Proof.
  intros H. unfold Learn.learnCorrection.
  destruct (List.find _ contributing) as [cm|]; [| apply createMemory_keys; exact H].
  destruct (Learn.confirms _ _).
  - intros E. inversion E; subst. apply updateMemory_keys. exact H.
  - apply createMemory_keys. apply updateMemory_keys. exact H.
Qed.

Lemma learnCorrections_keys contributing invoice vendorId now corrections db result drawn
    db' result' drawn' :
  wellKeyed db ->
  Learn.learnCorrections contributing invoice vendorId now corrections (db, result, drawn)
  = Ok (db', result', drawn') ->
  wellKeyed db'.
Proof.
  revert db result drawn. induction corrections as [|corr rest IH]; intros db result drawn H.
  - intros E. inversion E; subst. exact H.
  - cbn [Learn.learnCorrections].
    destruct (Learn.learnCorrection _ _ _ _ _ corr) as [[[db1 result1] drawn1]|msg] eqn:E1;
      [| discriminate].
    cbn. apply IH. apply (learnCorrection_keys _ _ _ _ _ _ _ _ _ _ _ H E1).
Qed.

End KeyFacts.

(** X7. Inserting a vendor memory respects the keys of the table: on a
    table whose ids and (vendor, original field) pairs are unique, the
    insertion fails exactly when the new row's id or pair is taken, and
    otherwise appends the row and leaves the keys unique. *)
Theorem saveVendorMemory_respects_keys (m : VendorMemory) (db : Repository) :
  RepoSpec.wellKeyed db ->
  match Repo.saveVendorMemory m db with
  | Ok db' =>
      RepoSpec.wellKeyed db'
      /\ vendor_memories db' = vendor_memories db ++ [m]
      /\ ~ In (vm_id m) (map vm_id (vendor_memories db))
      /\ ~ In (RepoSpec.vendorPair m) (map RepoSpec.vendorPair (vendor_memories db))
  | Err _ =>
      In (vm_id m) (map vm_id (vendor_memories db))
      \/ In (RepoSpec.vendorPair m) (map RepoSpec.vendorPair (vendor_memories db))
  end.
Proof.
  intros H. pose proof (saveVendorMemory_keys m db) as Hkeys.
  unfold Repo.saveVendorMemory in *.
  destruct (existsb (fun r => String.eqb (vm_id r) (vm_id m)) (vendor_memories db)) eqn:E1;
    [left; apply existsb_id_In; exact E1 |].
  destruct (existsb (fun r => String.eqb (vm_vendorId r) (vm_vendorId m)
                              && String.eqb (vm_originalFieldName r) (vm_originalFieldName m))
                    (vendor_memories db)) eqn:E2; [right; apply existsb_pair_In; exact E2 |].
  split; [apply Hkeys; [exact H | reflexivity] |]. split; [reflexivity |]. split.
  - rewrite <- existsb_id_In, E1. discriminate.
  - rewrite <- existsb_pair_In, E2. discriminate.
Qed.

Lemma saveVendorMemory_respects_keys_witness :
  In (RepoSpec.vendorPair (SampleLearn.serviceDateMemory 0.6 0))
     (map RepoSpec.vendorPair
        (vendor_memories
           (repository (SampleLearn.processor (SampleLearn.serviceDateMemory 0.8 0) "INV-A-001")))).
Proof.
  assert (Hkeys : RepoSpec.wellKeyed
                    (repository (SampleLearn.processor (SampleLearn.serviceDateMemory 0.8 0)
                                   "INV-A-001"))).
  { split; cbn; repeat constructor; intros []. }
  pose proof (saveVendorMemory_respects_keys
                {| vm_id := "vm-2"; vm_vendorId := "supplier gmbh";
                   vm_vendorName := "Supplier GmbH";
                   vm_originalFieldName := "Leistungsdatum";
                   vm_normalizedFieldName := "deliveryDate";
                   vm_confidence := 0.6; vm_applicationCount := 0;
                   vm_consecutiveRejections := 0; vm_createdAt := 0; vm_lastUsedAt := 0;
                   vm_isActive := true |}
                (repository (SampleLearn.processor (SampleLearn.serviceDateMemory 0.8 0)
                               "INV-A-001")) Hkeys) as H.
  cbv in H. destruct H as [[H | []] | H]; [discriminate H | exact H].
Defined.



(** X9. A call of [learnFromFeedback] that returns keeps the keys of the
    repository unique, whatever the feedback: an insertion that would break
    them throws instead. *)
Theorem learnFromFeedback_keeps_keys (feedback : HumanFeedback) (invoice : Invoice) (now : Z)
    (s s' : InvoiceProcessor) (result : LearningResult) :
  RepoSpec.wellKeyed (repository s) ->
  Learn.learnFromFeedback feedback invoice now s = Ok (result, s') ->
  RepoSpec.wellKeyed (repository s').
Proof.
  intros H. unfold Learn.learnFromFeedback.
  set (contributing := default [] (contributingMemories s !! inv_id invoice)).
  destruct (fb_action feedback).
  - cbn. intros E. inversion E; subst. cbn [repository].
    apply saveAuditEntry_keys, updates_keys. exact H.
  - cbn. intros E. inversion E; subst. cbn [repository].
    apply saveAuditEntry_keys, updates_keys. exact H.
  - destruct (fb_corrections feedback) as [corrections|].
    + destruct (Learn.learnCorrections _ _ _ _ corrections _)
        as [[[db1 result1] drawn1]|msg] eqn:E1; [| discriminate].
      cbn. intros E. inversion E; subst. cbn [repository].
      apply saveAuditEntry_keys. apply (learnCorrections_keys _ _ _ _ _ _ _ _ _ _ _ H E1).
    + cbn. intros E. inversion E; subst. cbn [repository].
      apply saveAuditEntry_keys. exact H.
Qed.

Lemma learnFromFeedback_keeps_keys_witness :
  exists result s',
    Learn.learnFromFeedback
      (SampleLearn.feedback "INV-A-001" Correct (Some [SampleLearn.serviceDateCorrection]))
      (SampleLearn.supplierInvoice "INV-A-001" 1705276800000) 1705363200000
      (SampleLearn.processor (SampleLearn.serviceDateMemory 0.8 0) "INV-A-001")
    = Ok (result, s')
    /\ RepoSpec.wellKeyed (repository s').
Proof.
  eexists _, _. split; [vm_compute; reflexivity |].
  refine (learnFromFeedback_keeps_keys
            (SampleLearn.feedback "INV-A-001" Correct (Some [SampleLearn.serviceDateCorrection]))
            (SampleLearn.supplierInvoice "INV-A-001" 1705276800000) 1705363200000
            (SampleLearn.processor (SampleLearn.serviceDateMemory 0.8 0) "INV-A-001")
            _ _ _ _).
  - split; cbn; repeat constructor; intros [].
  - vm_compute. reflexivity.
Defined.

Section WindowFacts.

Lemma dayOf_close a b : (Repo.dayOf a <= Repo.dayOf b)%Z -> (a - b < Repo.msPerDay)%Z.
Proof.
  unfold Repo.dayOf, Repo.msPerDay. intros H.
  pose proof (Z.div_mod a 86400000 ltac:(lia)) as Ha.
  pose proof (Z.div_mod b 86400000 ltac:(lia)) as Hb.
  pose proof (Z.mod_pos_bound a 86400000 ltac:(lia)).
  pose proof (Z.mod_pos_bound b 86400000 ltac:(lia)).
  lia.
Qed.

Lemma filter_map_swap {R : Type} (id : R -> string) (q : string -> bool) (rows : list R) :
  List.filter q (map id rows) = map id (List.filter (fun r => q (id r)) rows).
Proof.
  induction rows as [|r rows IH]; [reflexivity |].
  cbn. destruct (q (id r)); cbn; rewrite IH; reflexivity.
Qed.

End WindowFacts.

(** X10. The window of the duplicate search is counted in calendar days: a
    stored invoice of the vendor key and number whose date is at most 7 days
    from the date asked for is found, and every invoice found has that vendor
    key and number and a date less than 8 days from it. *)
Theorem findPotentialDuplicates_window (vendorId number : string) (date : Z)
    (db : Repository) :
  (forall row,
     In row (processed_invoices db) ->
     pi_vendorId row = vendorId ->
     pi_invoiceNumber row = number ->
     (Z.abs (date - pi_invoiceDate row) <= 7 * Repo.msPerDay)%Z ->
     In (pi_id row) (Repo.findPotentialDuplicates vendorId number date db))
  /\ (forall id,
        In id (Repo.findPotentialDuplicates vendorId number date db) ->
        exists row,
          In row (processed_invoices db) /\ pi_id row = id
          /\ pi_vendorId row = vendorId /\ pi_invoiceNumber row = number
          /\ (Z.abs (date - pi_invoiceDate row) < 8 * Repo.msPerDay)%Z).
Proof.
  split; [intros row; apply findPotentialDuplicates_within |].
  intros id Hin. unfold Repo.findPotentialDuplicates in Hin. cbv zeta in Hin.
  apply in_map_iff in Hin as (row & Hid & Hrow). apply filter_In in Hrow as [Hrow Hmatch].
  apply andb_prop in Hmatch as [Hmatch Hend]. apply andb_prop in Hmatch as [Hmatch Hstart].
  apply andb_prop in Hmatch as [Hv Hn].
  apply String.eqb_eq in Hv, Hn. apply Z.leb_le in Hstart, Hend.
  apply dayOf_close in Hstart, Hend.
  exists row. repeat (split; [assumption |]).
  unfold Repo.msPerDay in *. lia.
Qed.

(** X11. Processing an invoice does not make it a duplicate of itself: the
    duplicate check of the invoice finds after the run what it found before. *)
Theorem processInvoice_no_self_duplicate (invoice : Invoice) (now : Z) (s : InvoiceProcessor) :
  DecisionService.checkForDuplicates invoice
    (repository (snd (Processor.processInvoice invoice now s)))
  = DecisionService.checkForDuplicates invoice (repository s).
Proof.
  unfold DecisionService.checkForDuplicates. cbv zeta.
  assert (E : List.filter (fun id => negb (String.eqb id (inv_id invoice)))
                (Repo.findPotentialDuplicates (normalizeVendorName (inv_vendorId invoice))
                   (inv_invoiceNumber invoice) (inv_invoiceDate invoice)
                   (repository (snd (Processor.processInvoice invoice now s))))
              = List.filter (fun id => negb (String.eqb id (inv_id invoice)))
                  (Repo.findPotentialDuplicates (normalizeVendorName (inv_vendorId invoice))
                     (inv_invoiceNumber invoice) (inv_invoiceDate invoice) (repository s))).
  { unfold Repo.findPotentialDuplicates, Processor.processInvoice. cbv zeta.
    cbn [snd repository processed_invoices Repo.saveProcessedInvoice Processor.saveAuditEntry
         Repo.saveAuditEntry].
    rewrite !filter_map_swap. f_equal. rewrite !List.filter_app.
    set (row := {| pi_id := inv_id invoice;
                   pi_vendorId := normalizeVendorName (inv_vendorId invoice);
                   pi_invoiceNumber := inv_invoiceNumber invoice;
                   pi_invoiceDate := inv_invoiceDate invoice; pi_processedAt := now |}).
    set (inWindow := fun r : ProcessedInvoice => _ && _ && _ && _).
    assert (Hrow : List.filter (fun r => negb (String.eqb (pi_id r) (inv_id invoice)))
                     (List.filter inWindow [row]) = []).
    { cbn [List.filter]. destruct (inWindow row); [| reflexivity].
      cbn [List.filter row pi_id]. rewrite String.eqb_refl. reflexivity. }
    rewrite Hrow, app_nil_r, !filter_filter.
    apply filter_ext. intros r. destruct (String.eqb (pi_id r) (inv_id invoice)), (inWindow r);
      reflexivity. }
  rewrite E. reflexivity.
Qed.

(** ** Learn: approvals, the registration, and what is left alone *)

(** X12. An [approve] feedback reinforces every contributing memory
    registered for the invoice id that stands for a row of its own: the row
    reads back with [applyReinforcement] of its confidence, one more
    application, no consecutive rejection, and its active flag as it was. A
    memory that was inactive stays so and is reported among the deactivated
    ones. No row is added or removed. *)
Theorem approve_reinforces (feedback : HumanFeedback) (invoice : Invoice) (now : Z)
    (s : InvoiceProcessor) :
  fb_action feedback = Approve ->
  List.NoDup (map LearnSpec.memoryKey (default [] (contributingMemories s !! inv_id invoice))) ->
  exists result s',
    Learn.learnFromFeedback feedback invoice now s = Ok (result, s')
    /\ LearnSpec.memoryIds (repository s') = LearnSpec.memoryIds (repository s)
    /\ (forall m e,
          In m (default [] (contributingMemories s !! inv_id invoice)) ->
          Learn.findExisting m (repository s) = Some e ->
          Learn.findExisting m (repository s') = Some (LearnSpec.reinforced e)
          /\ (Learn.ex_isActive e = false ->
              LearnSpec.noteFor true reinforce (repository s) m = Some (Learn.deactivatedNote m)))
    /\ createdMemories result = []
    /\ updatedMemories result
       = omap (LearnSpec.noteFor false reinforce (repository s))
              (default [] (contributingMemories s !! inv_id invoice))
    /\ deactivatedMemories result
       = omap (LearnSpec.noteFor true reinforce (repository s))
              (default [] (contributingMemories s !! inv_id invoice)).
Proof.
  intros Happrove Hnd. unfold Learn.learnFromFeedback. rewrite Happrove.
  set (contributing := default [] (contributingMemories s !! inv_id invoice)) in *.
  pose proof (updates_fold reinforce now contributing (repository s) Learn.emptyResult Hnd) as H.
  cbv zeta in H.
  set (final := fold_left (fun st m => Learn.updateMemory m reinforce now st) contributing
                          (repository s, Learn.emptyResult)) in *.
  destruct H as (Hids & _ & _ & _ & Hin & _ & Hsnd).
  eexists _, _. split; [reflexivity |].
  cbn [repository createdMemories updatedMemories deactivatedMemories fst snd].
  split; [exact Hids |]. split.
  - intros m e Hm He. split.
    + rewrite findExisting_saveAuditEntry, Hin by (apply in_map; exact Hm).
      rewrite He. reflexivity.
    + intros Hinactive. unfold LearnSpec.noteFor. rewrite He.
      cbn [LearnSpec.after LearnSpec.reinforced Learn.ex_isActive]. rewrite Hinactive.
      reflexivity.
  - rewrite Hsnd. repeat split.
Qed.

Lemma approve_reinforces_witness :
  exists result s',
    Learn.learnFromFeedback (SampleLearn.feedback "INV-A-003" Approve None)
      (SampleLearn.supplierInvoice "INV-A-003" 1705276800000) 1705363200000
      (SampleLearn.processor (SampleLearn.serviceDateMemory 0.6 2) "INV-A-003")
    = Ok (result, s')
    /\ Learn.ex_consecutiveRejections
       <$> Learn.findExisting SampleLearn.serviceDateTrace (repository s') = Some 0%Z
    /\ updatedMemories result
       = ["vendor vm-1 reinforced: 0.60" +:+ arrow +:+ "0.62"].
Proof.
  destruct (approve_reinforces (SampleLearn.feedback "INV-A-003" Approve None)
              (SampleLearn.supplierInvoice "INV-A-003" 1705276800000) 1705363200000
              (SampleLearn.processor (SampleLearn.serviceDateMemory 0.6 2) "INV-A-003")
              eq_refl)
    as (result & s' & Hcall & _ & Hrows & _ & Hupdated & _).
  - vm_compute. repeat constructor. intros [].
  - exists result, s'. split; [exact Hcall |]. split.
    + rewrite (proj1 (Hrows SampleLearn.serviceDateTrace _ (or_introl eq_refl) eq_refl)).
      reflexivity.
    + rewrite Hupdated. vm_compute. reflexivity.
Defined.

(** X13. A feedback is consumed: a call of [learnFromFeedback] that returns
    has dropped the registration of the invoice id and kept the others, so
    that a later approval or rejection of the same invoice finds no memory to
    update and leaves the two memory tables as they are. *)
Theorem feedback_is_consumed (feedback : HumanFeedback) (invoice : Invoice) (now : Z)
    (s s' : InvoiceProcessor) (result : LearningResult) :
  Learn.learnFromFeedback feedback invoice now s = Ok (result, s') ->
  contributingMemories s' = delete (inv_id invoice) (contributingMemories s)
  /\ forall again now',
       fb_action again <> Correct ->
       exists result' s'',
         Learn.learnFromFeedback again invoice now' s' = Ok (result', s'')
         /\ createdMemories result' = [] /\ updatedMemories result' = []
         /\ deactivatedMemories result' = []
         /\ vendor_memories (repository s'') = vendor_memories (repository s')
         /\ correction_memories (repository s'') = correction_memories (repository s').
Proof.
  intros Hcall.
  assert (Hdel : contributingMemories s' = delete (inv_id invoice) (contributingMemories s)).
  { unfold Learn.learnFromFeedback in Hcall.
    destruct (match fb_action feedback with Approve => _ | Reject => _ | Correct => _ end)
      as [[[db1 result1] drawn1]|msg]; [| discriminate].
    cbn in Hcall. inversion Hcall. reflexivity. }
  split; [exact Hdel |].
  intros again now' Hnot. unfold Learn.learnFromFeedback.
  rewrite Hdel, lookup_delete_eq. cbn [default fold_left fst snd].
  destruct (fb_action again); [| | contradiction]; eexists _, _; repeat split.
Qed.

Lemma feedback_is_consumed_witness :
  exists result s',
    Learn.learnFromFeedback (SampleLearn.feedback "INV-A-003" Reject None)
      (SampleLearn.supplierInvoice "INV-A-003" 1705276800000) 1705363200000
      (SampleLearn.processor (SampleLearn.serviceDateMemory 0.6 0) "INV-A-003")
    = Ok (result, s')
    /\ contributingMemories s' !! "INV-A-003"%string = None.
Proof.
  assert (E : exists result s',
             Learn.learnFromFeedback (SampleLearn.feedback "INV-A-003" Reject None)
               (SampleLearn.supplierInvoice "INV-A-003" 1705276800000) 1705363200000
               (SampleLearn.processor (SampleLearn.serviceDateMemory 0.6 0) "INV-A-003")
             = Ok (result, s'))
    by (eexists _, _; reflexivity).
  destruct E as (result & s' & E). exists result, s'. split; [exact E |].
  rewrite (proj1 (feedback_is_consumed _ _ _ _ _ _ E)). reflexivity.
Defined.

Section ConservationFacts.

Import Learn LearnSpec.

Lemma creates_none st : creates 0 st st.
Proof.
  unfold creates, grownBy. rewrite !Nat.add_0_r. repeat split.
  exists [], []. rewrite !app_nil_r. split; [| reflexivity].
  destruct (memoryIds (fst (fst st))); reflexivity.
Qed.

Lemma creates_then n m st1 st2 st3 :
  creates n st1 st2 -> creates m st2 st3 -> creates (n + m) st1 st3.
Proof.
  unfold creates, grownBy.
  intros (A1 & A2 & (v & c & A3 & A3') & A4 & A5 & A6 & A7)
         (B1 & B2 & (v' & c' & B3 & B3') & B4 & B5 & B6 & B7).
  split; [lia |]. split; [lia |]. split.
  - exists (v ++ v'), (c ++ c'). rewrite B3, A3. cbn [fst snd].
    rewrite <- !app_assoc, !length_app. split; [reflexivity | lia].
  - repeat split; congruence.
Qed.

Lemma updateMemory_creates m action now db result drawn :
  creates 0 (db, result, drawn)
            (fst (updateMemory m action now (db, result)),
             snd (updateMemory m action now (db, result)), drawn).
Proof.
  rewrite updateMemory_unfold. destruct (findExisting m db) as [e|]; [| apply creates_none].
  unfold creates, grownBy. cbn [fst snd]. rewrite !Nat.add_0_r.
  destruct (other_tables_updatedRow m (updateOf action now e) db) as (T1 & T2 & T3).
  repeat split; try assumption.
  exists [], []. rewrite memoryIds_updatedRow, !app_nil_r. split; [| reflexivity].
  destruct (memoryIds db); reflexivity.
Qed.

Lemma updates_creates action now l db result drawn :
  creates 0 (db, result, drawn)
            (fst (fold_left (fun st m => updateMemory m action now st) l (db, result)),
             snd (fold_left (fun st m => updateMemory m action now st) l (db, result)),
             drawn).
Proof.
  revert db result. induction l as [|m l IH]; intros db result; [apply creates_none |].
  cbn [fold_left].
  apply (creates_then 0 0 _ _ _ (updateMemory_creates m action now db result drawn)).
  rewrite (surjective_pairing (updateMemory m action now (db, result))) at 3 4.
  apply IH.
Qed.

Lemma createMemory_creates corr invoice vendorId now st st' :
  createMemory corr invoice vendorId now st = Ok st' ->
  creates (match knownMapping corr invoice vendorId (fst (fst st)) with
           | Some _ => 0
           | None => 1
           end) st st'.
Proof.
  destruct st as [[db result] drawn]. destruct st' as [[db' result'] drawn'].
  unfold knownMapping, createMemory. cbn [fst snd].
  destruct (mappingLabel invoice corr) as [label|].
  - destruct (List.find _ (Repo.findVendorMemories vendorId db)) as [known|].
    + intros E. inversion E; subst. unfold creates, grownBy. cbn [fst snd].
      rewrite !Nat.add_0_r. repeat split.
      exists [], []. rewrite !app_nil_r. split; [| reflexivity].
      unfold memoryIds, Repo.updateVendorMemory.
      cbn [vendor_memories correction_memories Repo.withVendorMemories fst snd].
      rewrite map_update_key by reflexivity. reflexivity.
    + unfold Repo.saveVendorMemory. cbn [vm_id vm_vendorId vm_originalFieldName].
      destruct (existsb _ _); [discriminate |]. destruct (existsb _ _); [discriminate |].
      cbn. intros E. inversion E; subst. unfold creates, grownBy. cbn.
      rewrite length_app. repeat split; try (cbn; lia).
      exists [uuidv4 drawn], []. unfold memoryIds.
      cbn [vendor_memories correction_memories Repo.withVendorMemories fst snd].
      rewrite List.map_app, app_nil_r. split; reflexivity.
  - unfold Repo.saveCorrectionMemory. cbn [cm_id].
    destruct (existsb _ _); [discriminate |].
    cbn. intros E. inversion E; subst. unfold creates, grownBy. cbn.
    rewrite length_app. repeat split; try (cbn; lia).
    exists [], [uuidv4 drawn]. unfold memoryIds.
    cbn [vendor_memories correction_memories Repo.withCorrectionMemories fst snd].
    rewrite List.map_app, app_nil_r. split; reflexivity.
Qed.

Lemma learnCorrection_creates contributing invoice vendorId now st corr st' :
  learnCorrection contributing invoice vendorId now st corr = Ok st' ->
  exists n, creates n st st'.
Proof.
  destruct st as [[db result] drawn]. unfold learnCorrection.
  destruct (List.find _ contributing) as [cm|].
  - destruct (confirms _ _).
    + intros E. inversion E; subst. exists 0%nat. apply updateMemory_creates.
    + intros E. apply createMemory_creates in E. eexists.
      apply (creates_then 0 _ _ _ _ (updateMemory_creates cm contradict now db result drawn) E).
  - intros E. apply createMemory_creates in E. eexists. exact E.
Qed.

Lemma learnCorrections_creates contributing invoice vendorId now corrections st st' :
  learnCorrections contributing invoice vendorId now corrections st = Ok st' ->
  exists n, creates n st st'.
Proof.
  revert st. induction corrections as [|corr rest IH]; intros st.
  - intros E. inversion E; subst. exists 0%nat. apply creates_none.
  - cbn [learnCorrections].
    destruct (learnCorrection contributing invoice vendorId now st corr) as [st1|msg] eqn:E1;
      [| discriminate].
    cbn. intros E. apply learnCorrection_creates in E1 as [n Hn]. apply IH in E as [m Hm].
    exists (n + m)%nat. apply (creates_then _ _ _ _ _ Hn Hm).
Qed.

End ConservationFacts.

(** X14. What a call of [learnFromFeedback] that returns may change: it
    appends one audit entry of step [learn] to the audit trail and reports
    it; it never removes a row of a memory table, and the rows it appends are
    as many as the creations it reports and as the identifiers it drew; the
    resolution memories, the processed invoices and the purchase orders are
    left alone. *)
Theorem learnFromFeedback_conserves (feedback : HumanFeedback) (invoice : Invoice) (now : Z)
    (s s' : InvoiceProcessor) (result : LearningResult) :
  Learn.learnFromFeedback feedback invoice now s = Ok (result, s') ->
  exists entry,
    auditEntries result = [entry]
    /\ ae_step entry = StepLearn
    /\ audit_trail (repository s')
       = audit_trail (repository s)
         ++ [{| sae_invoiceId := inv_id invoice; sae_entry := entry |}]
    /\ LearnSpec.grownBy (length (createdMemories result))
         (LearnSpec.memoryIds (repository s)) (LearnSpec.memoryIds (repository s'))
    /\ uuidsDrawn s' = (uuidsDrawn s + length (createdMemories result))%nat
    /\ resolution_memories (repository s') = resolution_memories (repository s)
    /\ processed_invoices (repository s') = processed_invoices (repository s)
    /\ orders s' = orders s.
Proof.
  unfold Learn.learnFromFeedback.
  set (contributing := default [] (contributingMemories s !! inv_id invoice)).
  set (learned := match fb_action feedback with Approve => _ | Reject => _ | Correct => _ end).
  assert (H : forall st', learned = Ok st' ->
                exists n, LearnSpec.creates n (repository s, Learn.emptyResult, uuidsDrawn s) st').
  { subst learned. intros st'. destruct (fb_action feedback).
    - intros E. inversion E; subst. exists 0%nat. apply updates_creates.
    - intros E. inversion E; subst. exists 0%nat. apply updates_creates.
    - destruct (fb_corrections feedback) as [corrections|].
      + apply learnCorrections_creates.
      + intros E. inversion E; subst. exists 0%nat. apply creates_none. }
  destruct learned as [[[db1 result1] drawn1]|msg]; [| discriminate].
  destruct (H _ eq_refl) as (n & H1 & H2 & H3 & H4 & H5 & H6 & H7).
  cbn [fst snd Learn.emptyResult createdMemories auditEntries length] in *.
  cbn. intros E. inversion E; subst. cbn.
  rewrite H7, H2. cbn. eexists. split; [reflexivity |]. split; [reflexivity |].
  split; [rewrite H5; reflexivity |]. repeat split; assumption.
Qed.

Lemma learnFromFeedback_conserves_witness :
  exists result s',
    Learn.learnFromFeedback
      (SampleLearn.feedback "INV-A-001" Correct (Some [SampleLearn.serviceDateCorrection]))
      (SampleLearn.supplierInvoice "INV-A-001" 1705276800000) 1705363200000
      (SampleLearn.processor (SampleLearn.serviceDateMemory 0.8 0) "INV-A-001")
    = Ok (result, s')
    /\ uuidsDrawn s' = 0%nat.
Proof.
  assert (E : exists result s',
             Learn.learnFromFeedback
               (SampleLearn.feedback "INV-A-001" Correct
                  (Some [SampleLearn.serviceDateCorrection]))
               (SampleLearn.supplierInvoice "INV-A-001" 1705276800000) 1705363200000
               (SampleLearn.processor (SampleLearn.serviceDateMemory 0.8 0) "INV-A-001")
             = Ok (result, s'))
    by (eexists _, _; vm_compute; reflexivity).
  destruct E as (result & s' & E). exists result, s'. split; [exact E |].
  destruct (learnFromFeedback_conserves _ _ _ _ _ _ E) as (entry & _ & _ & _ & _ & H & _).
  rewrite H. inversion E. reflexivity.
Defined.

Section RoundTripFacts.

(** The vendor memories Recall returns. *)
Lemma recalled_vendor_In invoice now db m :
  In m (vendorMemories (rr_memories (RecallService.recallMemories invoice now db)))
  <-> In m (vendor_memories db)
      /\ vm_vendorId m = normalizeVendorName (inv_vendorId invoice)
      /\ vm_isActive m = true
      /\ (minimumThreshold CONFIDENCE_CONFIG <= vm_confidence m)%Q.
Proof.
  cbn [RecallService.recallMemories rr_memories vendorMemories].
  assert (HP : Permutation
                 (RecallService.filterByConfidence vm_confidence
                    (Repo.findVendorMemories (normalizeVendorName (inv_vendorId invoice)) db))
                 (List.filter
                    (fun r => String.eqb (vm_vendorId r) (normalizeVendorName (inv_vendorId invoice))
                              && vm_isActive r
                              && Qle_bool (minimumThreshold CONFIDENCE_CONFIG) (vm_confidence r))
                    (vendor_memories db))).
  { rewrite filterByConfidence_Permutation.
    rewrite (filter_Permutation _ _ _ (findVendorMemories_Permutation _ db)).
    rewrite filter_filter. reflexivity. }
  split.
  - intros Hm. apply (Permutation_in _ HP) in Hm. apply filter_In in Hm as [Hin Hm].
    apply andb_true_iff in Hm as [Hm Hc]. apply andb_true_iff in Hm as [Hv Ha].
    apply String.eqb_eq in Hv. apply Qle_bool_iff in Hc. auto.
  - intros (Hin & Hv & Ha & Hc). apply (Permutation_in _ (Permutation_sym HP)).
    apply filter_In. split; [exact Hin |].
    rewrite Hv, String.eqb_refl, Ha. cbn [andb]. apply Qle_bool_iff. exact Hc.
Qed.

End RoundTripFacts.

(** X15. A field mapping learnt from a correction is recalled: when
    [createMemory] knows no mapping for the label of the corrected field and
    returns, the vendor memory it has stored (label to field, at the initial
    confidence) is among the vendor memories Recall returns for every invoice
    of the same vendor key. *)
Theorem learnt_mapping_is_recalled (corr : FieldCorrection) (invoice next : Invoice)
    (now now' : Z) (db db' : Repository) (result result' : LearningResult)
    (drawn drawn' : nat) (label : string) :
  Learn.mappingLabel invoice corr = Some label ->
  LearnSpec.knownMapping corr invoice (normalizeVendorName (inv_vendorId invoice)) db = None ->
  Learn.createMemory corr invoice (normalizeVendorName (inv_vendorId invoice)) now
    (db, result, drawn) = Ok (db', result', drawn') ->
  normalizeVendorName (inv_vendorId next) = normalizeVendorName (inv_vendorId invoice) ->
  exists m,
    In m (vendorMemories (rr_memories (RecallService.recallMemories next now' db')))
    /\ vm_id m = uuidv4 drawn
    /\ vm_originalFieldName m = label
    /\ vm_normalizedFieldName m = fc_fieldName corr
    /\ vm_confidence m = initialHumanCorrectionConfidence CONFIDENCE_CONFIG.
Proof.
  intros Hlabel Hknown Hcall Hnext.
  unfold LearnSpec.knownMapping in Hknown. unfold Learn.createMemory in Hcall.
  rewrite Hlabel in Hknown, Hcall. rewrite Hknown in Hcall.
  destruct (Repo.saveVendorMemory _ db) as [db1|msg] eqn:Esave; [| discriminate].
  cbn in Hcall. inversion Hcall; subst db1 result' drawn'. clear Hcall.
  unfold Repo.saveVendorMemory in Esave.
  destruct (existsb (fun r => String.eqb (vm_id r) _) (vendor_memories db)); [discriminate |].
  destruct (existsb _ (vendor_memories db)); [discriminate |].
  inversion Esave; subst db'. clear Esave.
  exists {| vm_id := uuidv4 drawn;
            vm_vendorId := normalizeVendorName (inv_vendorId invoice);
            vm_vendorName := inv_vendorName invoice;
            vm_originalFieldName := label; vm_normalizedFieldName := fc_fieldName corr;
            vm_confidence := initialHumanCorrectionConfidence CONFIDENCE_CONFIG;
            vm_applicationCount := 0; vm_consecutiveRejections := 0;
            vm_createdAt := now; vm_lastUsedAt := now; vm_isActive := true |}.
  split; [| repeat split].
  apply recalled_vendor_In. cbn [vendor_memories Repo.withVendorMemories vm_vendorId vm_isActive
                                 vm_confidence].
  split; [apply in_or_app; right; left; reflexivity |].
  split; [symmetry; exact Hnext |]. split; [reflexivity |]. vm_compute. discriminate.
Qed.

Lemma learnt_mapping_is_recalled_witness :
  exists m,
    In m (vendorMemories
            (rr_memories
               (RecallService.recallMemories
                  (SampleLearn.supplierInvoice "INV-A-002" 1705881600000) 1705968000000
                  (Repo.withVendorMemories
                     [{| vm_id := uuidv4 0; vm_vendorId := "supplier gmbh";
                         vm_vendorName := "Supplier GmbH";
                         vm_originalFieldName := "Leistungsdatum";
                         vm_normalizedFieldName := "serviceDate";
                         vm_confidence := 0.6; vm_applicationCount := 0;
                         vm_consecutiveRejections := 0; vm_createdAt := 1705363200000;
                         vm_lastUsedAt := 1705363200000; vm_isActive := true |}]
                     Sample.emptyRepository))))
    /\ vm_id m = uuidv4 0
    /\ vm_originalFieldName m = "Leistungsdatum"%string
    /\ vm_normalizedFieldName m = "serviceDate"%string
    /\ vm_confidence m = 0.6%Q.
Proof.
  apply (learnt_mapping_is_recalled SampleLearn.serviceDateCorrection
           (SampleLearn.supplierInvoice "INV-A-001" 1705276800000)
           (SampleLearn.supplierInvoice "INV-A-002" 1705881600000)
           1705363200000 1705968000000 Sample.emptyRepository _ Learn.emptyResult
           (Learn.noteCreated
              ("vendor " +:+ uuidv4 0 +:+ ": " +:+ Js.dquote +:+ "Leistungsdatum" +:+ Js.dquote
               +:+ arrow +:+ Js.dquote +:+ "serviceDate" +:+ Js.dquote) Learn.emptyResult)
           0%nat 1%nat "Leistungsdatum" eq_refl eq_refl eq_refl eq_refl).
Defined.

(** ** Apply: the loop over the vendor memories *)

Section VendorLoopFacts.

Import ApplyService ApplySpec.

Lemma applyVendorMemory_trace invoice st vm :
  exists t, appliedMemories (applyVendorMemory invoice st vm) = appliedMemories st ++ [t]
            /\ traceKey t = vendorKey vm.
Proof.
  unfold applyVendorMemory. cbv zeta.
  destruct (if JsVal.isNullish _ then _ else None) as [e|].
  - destruct (JsVal.truthyStr (Some e));
      [destruct (mapConfidenceToAction (vm_confidence vm)) eqn:E |];
      eexists; (split; [reflexivity |]); unfold traceKey, vendorKey; cbn; rewrite ?E; reflexivity.
  - eexists. split; reflexivity.
Qed.

Lemma vendors_traces invoice vms st :
  map traceKey (appliedMemories (afterVendors invoice vms st))
  = map traceKey (appliedMemories st) ++ map vendorKey vms.
Proof.
  unfold afterVendors. revert st. induction vms as [|vm vms IH]; intros st; cbn [fold_left map].
  - rewrite app_nil_r. reflexivity.
  - rewrite IH. destruct (applyVendorMemory_trace invoice st vm) as (t & -> & Ht).
    rewrite List.map_app. cbn [map]. rewrite Ht, <- app_assoc. reflexivity.
Qed.

(** One vendor memory leaves a key of the record alone, or fills it, empty
    until then, with a text that is not empty. *)
Lemma applyVendorMemory_fills invoice st vm k :
  normalizedInvoice (applyVendorMemory invoice st vm) !! k = normalizedInvoice st !! k
  \/ (JsVal.isNullish (readKey (normalizedInvoice st) k) = true
      /\ exists e, normalizedInvoice (applyVendorMemory invoice st vm) !! k = Some (VString e)
                   /\ e <> ""%string).
Proof.
  unfold applyVendorMemory. cbv zeta.
  destruct (JsVal.isNullish (readKey (normalizedInvoice st) (vm_normalizedFieldName vm))) eqn:En;
    [| left; reflexivity].
  destruct (extractValue _ _ _) as [e|]; [| left; reflexivity].
  destruct (JsVal.truthyStr (Some e)) eqn:Et; [| left; reflexivity].
  destruct (mapConfidenceToAction (vm_confidence vm)); try (left; reflexivity).
  cbn [normalizedInvoice].
  destruct (String.eqb_spec (vm_normalizedFieldName vm) k) as [<- | Hne].
  - right. split; [exact En |]. exists e. split; [apply lookup_insert_eq |].
    intros ->. discriminate Et.
  - left. apply lookup_insert_ne. exact Hne.
Qed.

End VendorLoopFacts.

Lemma applied_trace_keys (invoice : Invoice) (memories : RecalledMemories)
    (now : Z) :
  map ApplySpec.traceKey
      (appliedMemories (ar_appliedResult (ApplyService.applyMemories invoice memories now)))
  = map ApplySpec.vendorKey (vendorMemories memories)
    ++ map (fun cm => ApplySpec.traceKey (ApplySpec.correctionTrace cm))
           (correctionMemories memories).
Proof.
  unfold ApplyService.applyMemories. cbn [ar_appliedResult appliedMemories].
  unfold ApplyService.applyRecalled. rewrite corrections_traces_grow, List.map_app, List.map_map.
  f_equal. apply (vendors_traces invoice (vendorMemories memories)).
Qed.

(** X16. Every recalled memory leaves exactly one trace: the traces of the
    Apply stage are, in order, those of the recalled vendor memories (kind
    vendor, the memory's id, normalized field, action and confidence) and
    then those of the recalled correction memories. *)
Theorem every_recalled_memory_is_traced (invoice : Invoice) (memories : RecalledMemories)
    (now : Z) :
  map ApplySpec.traceKey
      (appliedMemories (ar_appliedResult (ApplyService.applyMemories invoice memories now)))
  = map ApplySpec.vendorKey (vendorMemories memories)
    ++ map (fun cm => ApplySpec.traceKey (ApplySpec.correctionTrace cm))
           (correctionMemories memories).
Proof. apply applied_trace_keys. Qed.

(** X17. The vendor memories only fill empty fields: after the loop over
    them, a key of the normalized record holds what it held before, unless it
    was absent or null and now holds a text that is not empty. *)
Theorem vendor_memories_fill_empty_fields (invoice : Invoice) (vms : list VendorMemory)
    (st : AppliedResult) (k : string) :
  normalizedInvoice (ApplySpec.afterVendors invoice vms st) !! k = normalizedInvoice st !! k
  \/ (JsVal.isNullish (readKey (normalizedInvoice st) k) = true
      /\ exists e,
           normalizedInvoice (ApplySpec.afterVendors invoice vms st) !! k = Some (VString e)
           /\ e <> ""%string).
Proof.
  unfold ApplySpec.afterVendors. revert st. induction vms as [|vm vms IH]; intros st; [left; reflexivity |].
  cbn [fold_left].
  destruct (applyVendorMemory_fills invoice st vm k) as [Hsame | (Hnull & e & He & Hne)].
  - destruct (IH (ApplyService.applyVendorMemory invoice st vm)) as [H | (Hnull & e & He & Hne)].
    + left. rewrite H. exact Hsame.
    + right. unfold readKey in *. rewrite Hsame in Hnull. split; [exact Hnull |].
      exists e. split; assumption.
  - right. split; [exact Hnull |]. exists e. split; [| exact Hne].
    destruct (IH (ApplyService.applyVendorMemory invoice st vm)) as [H | (Hnull' & _)].
    + rewrite H. exact He.
    + unfold readKey in Hnull'. rewrite He in Hnull'. discriminate.
Qed.

(** ** The memories a run registers *)

Section RegistrationFacts.

Import RecallService.

Lemma pushUnseen_fold {T : Type} (id : T -> string) (l : list T) (acc : list string * list T) :
  List.NoDup (map id (snd acc)) ->
  (forall x, In x (map id (snd acc)) -> In x (fst acc)) ->
  List.NoDup (map id (snd (fold_left (pushUnseen id) l acc)))
  /\ (forall x, In x (map id (snd (fold_left (pushUnseen id) l acc))) ->
                In x (fst (fold_left (pushUnseen id) l acc))).
Proof.
  revert acc. induction l as [|m l IH]; intros acc Hnd Hseen; [split; assumption |].
  cbn [fold_left]. apply IH; unfold pushUnseen.
  - destruct (JsArr.includes (id m) (fst acc)) eqn:E; [exact Hnd |].
    cbn [snd]. rewrite List.map_app. apply NoDup_snoc; [exact Hnd |].
    intros Hin. apply Hseen, includes_In in Hin. congruence.
  - destruct (JsArr.includes (id m) (fst acc)) eqn:E; [exact Hseen |].
    cbn [fst snd]. rewrite List.map_app. intros x Hx.
    apply in_app_or in Hx as [Hx | [Hx | []]]; [right; apply Hseen; exact Hx | left; exact Hx].
Qed.

Lemma pushUnseen_folds {T F : Type} (id : T -> string) (found : F -> list T) (fields : list F)
    (acc : list string * list T) :
  List.NoDup (map id (snd acc)) ->
  (forall x, In x (map id (snd acc)) -> In x (fst acc)) ->
  List.NoDup
    (map id (snd (fold_left (fun acc f => fold_left (pushUnseen id) (found f) acc) fields acc))).
Proof.
  revert acc. induction fields as [|f fields IH]; intros acc Hnd Hseen; [exact Hnd |].
  cbn [fold_left]. destruct (pushUnseen_fold id (found f) acc Hnd Hseen) as [H1 H2].
  apply IH; assumption.
Qed.

Lemma filterByConfidence_NoDup {T : Type} (id : T -> string) (confidence : T -> Q) (l : list T) :
  List.NoDup (map id l) -> List.NoDup (map id (filterByConfidence confidence l)).
Proof.
  intros H. eapply Permutation_NoDup.
  - apply Permutation_map, Permutation_sym, filterByConfidence_Permutation.
  - apply NoDup_map_filter. exact H.
Qed.

Lemma recalled_ids_distinct invoice now db :
  List.NoDup (map vm_id (vendor_memories db)) ->
  List.NoDup (map vm_id (vendorMemories (rr_memories (recallMemories invoice now db))))
  /\ List.NoDup (map cm_id (correctionMemories (rr_memories (recallMemories invoice now db)))).
Proof.
  intros H. cbn [recallMemories rr_memories vendorMemories correctionMemories]. split.
  - apply filterByConfidence_NoDup. eapply Permutation_NoDup.
    + apply Permutation_map, Permutation_sym, findVendorMemories_Permutation.
    + apply NoDup_map_filter. exact H.
  - unfold recallCorrectionMemories. cbv zeta. apply filterByConfidence_NoDup.
    apply (pushUnseen_folds cm_id
             (fun field => Repo.findCorrectionMemories
                             (Some (normalizeVendorName (inv_vendorId invoice))) field db
                           ++ Repo.findCorrectionMemories None field db)).
    + constructor.
    + intros x [].
Qed.

Lemma NoDup_tagged (b : bool) (ids : list string) :
  List.NoDup ids -> List.NoDup (map (pair b) ids).
Proof.
  induction 1 as [|x ids Hx Hnd IH]; [constructor |].
  cbn. constructor; [| exact IH]. intros Hin. apply in_map_iff in Hin as (y & Hy & Hin).
  inversion Hy; subst. contradiction.
Qed.

Lemma matchPurchaseOrder_traces invoice known applied patterns :
  appliedMemories (fst (Processor.matchPurchaseOrder invoice known applied patterns))
  = appliedMemories applied.
Proof.
  unfold Processor.matchPurchaseOrder.
  destruct (negb _); [| reflexivity].
  destruct (pm_matchedPO _); [| reflexivity].
  destruct (JsNum.geb _ 0.5); [| reflexivity].
  destruct (JsNum.geb _ 0.7); reflexivity.
Qed.

(** The keys of the memories registered from traces. *)
Lemma contributing_keys traces :
  map LearnSpec.memoryKey (Processor.extractContributingMemories traces)
  = omap (fun key => match fst (fst (fst (fst key))) with
                     | vendor => Some (true, snd (fst (fst (fst key))))
                     | correction => Some (false, snd (fst (fst (fst key))))
                     | resolution => None
                     end) (map ApplySpec.traceKey traces).
Proof.
  unfold Processor.extractContributingMemories.
  induction traces as [|t traces IH]; [reflexivity |].
  cbn [map List.filter].
  change (omap ?f (?x :: ?l)) with (match f x with Some y => y :: omap f l | None => omap f l end).
  unfold ApplySpec.traceKey at 1. cbn [fst snd].
  destruct (am_memoryType t) eqn:E; cbn [map]; rewrite IH; try reflexivity;
    unfold LearnSpec.memoryKey; cbn [ctm_memoryType ctm_memoryId]; rewrite E; reflexivity.
Qed.

Lemma omap_tag {T : Type} (key : T -> MemoryType * string * string * ThresholdAction * Q)
    (kind : MemoryType) (tag : bool) (id : T -> string) (l : list T) :
  (forall m, fst (fst (fst (fst (key m)))) = kind /\ snd (fst (fst (fst (key m)))) = id m) ->
  match kind with vendor => tag = true | correction => tag = false | resolution => False end ->
  omap (fun key => match fst (fst (fst (fst key))) with
                   | vendor => Some (true, snd (fst (fst (fst key))))
                   | correction => Some (false, snd (fst (fst (fst key))))
                   | resolution => None
                   end) (map key l)
  = map (pair tag) (map id l).
Proof.
  intros Hkey Hkind. induction l as [|m l IH]; [reflexivity |].
  cbn [map].
  change (omap ?f (?x :: ?l)) with (match f x with Some y => y :: omap f l | None => omap f l end).
  destruct (Hkey m) as [-> ->]. rewrite IH.
  destruct kind; [subst tag; reflexivity | subst tag; reflexivity | contradiction].
Qed.

End RegistrationFacts.

(** X18. On a repository whose vendor memories have distinct ids, the
    contributing memories a run of [processInvoice] registers for the invoice
    stand for distinct rows: first the recalled vendor memories, then the
    recalled correction memories, each once. *)
Theorem registered_memories_are_distinct (invoice : Invoice) (now : Z) (s : InvoiceProcessor) :
  List.NoDup (map vm_id (vendor_memories (repository s))) ->
  let recalled := rr_memories (RecallService.recallMemories invoice now (repository s)) in
  exists registered,
    contributingMemories (snd (Processor.processInvoice invoice now s)) !! inv_id invoice
    = Some registered
    /\ map LearnSpec.memoryKey registered
       = map (pair true) (map vm_id (vendorMemories recalled))
         ++ map (pair false) (map cm_id (correctionMemories recalled))
    /\ List.NoDup (map LearnSpec.memoryKey registered).
Proof.
  intros Hids recalled.
  destruct (recalled_ids_distinct invoice now (repository s) Hids) as [Hv Hc].
  fold recalled in Hv, Hc.
  unfold Processor.processInvoice. cbv zeta. cbn [snd contributingMemories].
  rewrite lookup_insert_eq. eexists. split; [reflexivity |].
  rewrite matchPurchaseOrder_traces, contributing_keys.
  assert (Htraces := applied_trace_keys invoice recalled now).
  assert (Hkeys :
    omap (fun key => match fst (fst (fst (fst key))) with
                     | vendor => Some (true, snd (fst (fst (fst key))))
                     | correction => Some (false, snd (fst (fst (fst key))))
                     | resolution => None
                     end)
         (map ApplySpec.traceKey
              (appliedMemories (ar_appliedResult (ApplyService.applyMemories invoice recalled now))))
    = map (pair true) (map vm_id (vendorMemories recalled))
      ++ map (pair false) (map cm_id (correctionMemories recalled))).
  { rewrite Htraces, omap_app.
    rewrite (omap_tag ApplySpec.vendorKey vendor true vm_id) by (repeat split).
    rewrite (omap_tag (fun cm => ApplySpec.traceKey (ApplySpec.correctionTrace cm))
               correction false cm_id) by (repeat split).
    reflexivity. }
  fold recalled. split; [exact Hkeys |]. rewrite Hkeys.
  apply List.NoDup_app; [apply NoDup_tagged; exact Hv | apply NoDup_tagged; exact Hc |].
  intros key H1 H2. apply in_map_iff in H1 as (x & <- & _). apply in_map_iff in H2 as (y & Hy & _).
  discriminate Hy.
Qed.

Lemma registered_memories_are_distinct_witness :
  exists registered,
    contributingMemories
      (snd (Processor.processInvoice (SampleLearn.supplierInvoice "INV-A-002" 1705881600000)
              1705968000000
              (SampleLearn.processor (SampleLearn.serviceDateMemory 0.8 0) "INV-A-001")))
    !! "INV-A-002"%string = Some registered
    /\ map LearnSpec.memoryKey registered = [(true, "vm-1"%string)].
Proof.
  assert (Hids : List.NoDup
                   (map vm_id
                      (vendor_memories
                         (repository (SampleLearn.processor (SampleLearn.serviceDateMemory 0.8 0)
                                        "INV-A-001")))))
    by (cbn; repeat constructor; intros []).
  destruct (registered_memories_are_distinct
              (SampleLearn.supplierInvoice "INV-A-002" 1705881600000) 1705968000000
              (SampleLearn.processor (SampleLearn.serviceDateMemory 0.8 0) "INV-A-001") Hids)
    as (registered & Hlookup & Hkeys & _).
  exists registered. split; [exact Hlookup |]. rewrite Hkeys. vm_compute. reflexivity.
Defined.

(** ** Decide: when a human is asked *)

Section ReviewFacts.

Import DecisionService.

Lemma filter_nil_forallb {A : Type} (p : A -> bool) (l : list A) :
  match List.filter p l with [] => true | _ => false end = forallb (fun x => negb (p x)) l.
Proof.
  induction l as [|x l IH]; [reflexivity |].
  cbn. destruct (p x); [reflexivity | exact IH].
Qed.

Lemma forallb_same {A : Type} (p q : A -> bool) (l : list A) :
  (forall x, p x = q x) -> forallb p l = forallb q l.
Proof. intros H. induction l as [|x l IH]; [reflexivity |]. cbn. rewrite H, IH. reflexivity. Qed.

Lemma sweep_from_clean l n :
  sw_review (fold_left sweepMemory l {| sw_review := false; sw_flagged := []; sw_highConfCount := n |})
  = negb (forallb (fun m => JsNum.geb (am_confidence m) (suggestionThreshold CONFIDENCE_CONFIG)) l).
Proof.
  revert n. induction l as [|m l IH]; intros n; [reflexivity |].
  cbn [fold_left forallb]. unfold sweepMemory at 2. cbn [sw_review sw_flagged sw_highConfCount].
  destruct (JsNum.geb (am_confidence m) (autoApplyThreshold CONFIDENCE_CONFIG)) eqn:Ea.
  - assert (Es : JsNum.geb (am_confidence m) (suggestionThreshold CONFIDENCE_CONFIG) = true).
    { apply geb_le. apply geb_le in Ea.
      change (autoApplyThreshold CONFIDENCE_CONFIG) with 0.85%Q in Ea.
      change (suggestionThreshold CONFIDENCE_CONFIG) with 0.70%Q. lra. }
    rewrite Es. apply IH.
  - unfold JsNum.ltb, JsNum.geb in *. cbn [JsArr.includes existsb negb andb].
    destruct (Qle_bool (suggestionThreshold CONFIDENCE_CONFIG) (am_confidence m)).
    + cbn [negb andb]. apply IH.
    + cbn [negb andb]. apply sweepMemory_review. reflexivity.
Qed.

Lemma checkForDuplicates_cases invoice db :
  checkForDuplicates invoice db = None \/ exists w, checkForDuplicates invoice db = Some w.
Proof. destruct (checkForDuplicates invoice db) as [w|]; [right; exists w |left]; reflexivity. Qed.

End ReviewFacts.

(** X19. The Decide stage asks for a human exactly when something concerns
    it: a duplicate warning, a field extracted with a confidence below 0.6, a
    field no trace names, a trace of a confidence below the suggestion
    threshold, a proposed correction, or a [tax_inclusive] pattern. *)
Theorem review_iff_concern (applied : AppliedResult) (invoice : Invoice)
    (patterns : list DetectedPattern) (now : Z) (db : Repository) :
  requiresHumanReview (dr_decision (DecisionService.makeDecision applied invoice patterns now db))
  = negb (ReviewSpec.unconcerned applied invoice patterns db).
Proof.
  unfold DecisionService.makeDecision, ReviewSpec.unconcerned. cbv zeta.
  cbn [dr_decision requiresHumanReview].
  rewrite notePattern_review. cbn [fst].
  destruct (ApplySpec.hasPattern tax_inclusive patterns);
    [rewrite orb_true_r, !andb_false_r; reflexivity |].
  rewrite orb_false_r, andb_true_r.
  destruct (proposedCorrections applied) as [|c cs]; [| rewrite andb_false_r; reflexivity].
  rewrite andb_true_r.
  set (low := List.filter (fun kv => JsNum.ltb (f_extractionConfidence (snd kv)) 0.6)
                          (inv_fields invoice)).
  set (unmatched := List.filter _ (map fst (inv_fields invoice))).
  assert (Hlow : forallb (fun kv => JsNum.geb (f_extractionConfidence (snd kv)) 0.6)
                         (inv_fields invoice)
                 = match low with [] => true | _ => false end).
  { subst low. rewrite filter_nil_forallb. apply forallb_same. intros kv.
    unfold JsNum.ltb, JsNum.geb. rewrite negb_involutive. reflexivity. }
  assert (Hun : forallb (fun f => JsArr.includes f (map am_fieldName (appliedMemories applied)))
                        (map fst (inv_fields invoice))
                = match unmatched with [] => true | _ => false end).
  { subst unmatched. rewrite filter_nil_forallb. apply forallb_same. intros f.
    rewrite negb_involutive. reflexivity. }
  rewrite Hlow, Hun.
  destruct (checkForDuplicates_cases invoice db) as [-> | (w & ->)].
  - destruct low as [|l low].
    + cbn [map]. destruct unmatched as [|u unmatched].
      * cbn [fold_left andb]. apply sweep_from_clean.
      * cbn [andb negb]. apply sweepMemory_review. reflexivity.
    + cbn [map andb negb]. apply sweepMemory_review. destruct unmatched; reflexivity.
  - cbn [andb negb]. apply sweepMemory_review. destruct (map fst low), unmatched; reflexivity.
Qed.

Section ScoreFacts2.

Lemma calcOverallConfidence_range invoice memories :
  (0 <= DecisionService.calcOverallConfidence invoice memories <= 1)%Q.
Proof.
  unfold DecisionService.calcOverallConfidence. cbv zeta.
  destruct (map _ (inv_fields invoice)) as [|c confs]; [split; discriminate |].
  split; [apply Q.le_max_l |]. apply Q.max_lub; [discriminate | apply Q.le_min_l].
Qed.

Lemma makeDecision_overall applied invoice patterns now db :
  overallConfidence (dr_decision (DecisionService.makeDecision applied invoice patterns now db))
  = DecisionService.calcOverallConfidence invoice (appliedMemories applied).
Proof. reflexivity. Qed.

End ScoreFacts2.

(** X20. The overall confidence of the Decide stage lies between 0 and 1,
    so the clamp of the processor leaves it as it is: the confidence score of
    a run is the overall confidence computed from the invoice and the traces
    of the Apply stage. *)
Theorem confidence_score_is_overall (invoice : Invoice) (now : Z) (s : InvoiceProcessor) :
  let recalled := rr_memories (RecallService.recallMemories invoice now (repository s)) in
  let traces := appliedMemories (ar_appliedResult (ApplyService.applyMemories invoice recalled now)) in
  (forall memories, 0 <= DecisionService.calcOverallConfidence invoice memories <= 1)%Q
  /\ (pr_confidenceScore (fst (Processor.processInvoice invoice now s))
      == DecisionService.calcOverallConfidence invoice traces)%Q.
Proof.
  intros recalled traces. split; [intros memories; apply calcOverallConfidence_range |].
  set (applied := ApplyService.applyMemories invoice recalled now).
  set (matched := Processor.matchPurchaseOrder invoice (orders s) (ar_appliedResult applied)
                    (ar_detectedPatterns applied)).
  assert (H : pr_confidenceScore (fst (Processor.processInvoice invoice now s))
              = Qmax 0 (Qmin 1 (DecisionService.calcOverallConfidence invoice
                                  (appliedMemories (fst matched)))))
    by reflexivity.
  rewrite H. subst matched. rewrite matchPurchaseOrder_traces. fold traces.
  destruct (calcOverallConfidence_range invoice traces) as [Hlo Hhi].
  eapply Qeq_trans; [apply Q.max_r, Q.min_glb; [discriminate | exact Hlo] |].
  apply Q.min_r. exact Hhi.
Qed.

(** ** Apply: what the pattern detection touches *)

(** X21. The pattern detection writes to the [currency] key of the
    normalized record only, and only when that key holds no currency: every
    other key of the result of the Apply stage holds what the two loops over
    the memories left in it. *)
Theorem patterns_touch_only_currency (invoice : Invoice) (memories : RecalledMemories)
    (now : Z) (k : string) :
  k <> "currency"%string
  \/ JsVal.truthy (readKey (normalizedInvoice (ApplyService.applyRecalled invoice memories))
                     "currency") = true ->
  normalizedInvoice (ar_appliedResult (ApplyService.applyMemories invoice memories now)) !! k
  = normalizedInvoice (ApplyService.applyRecalled invoice memories) !! k.
Proof.
  intros Hk. unfold ApplyService.applyMemories. cbn [ar_appliedResult normalizedInvoice].
  rewrite detectPatterns_record. apply (recoverCurrency_keeps _ ([], _)). exact Hk.
Qed.

Lemma patterns_touch_only_currency_witness :
  normalizedInvoice
    (ar_appliedResult
       (ApplyService.applyMemories (Sample.partsInvoice "INV-B-003" "Total 2380.00 EUR")
          Sample.noMemories 0)) !! "grossTotal"%string
  = Some (VNumber 2380).
Proof.
  assert (Hk : "grossTotal"%string <> "currency"%string
               \/ JsVal.truthy
                    (readKey (normalizedInvoice
                                (ApplyService.applyRecalled
                                   (Sample.partsInvoice "INV-B-003" "Total 2380.00 EUR")
                                   Sample.noMemories)) "currency") = true)
    by (left; discriminate).
  pose proof (patterns_touch_only_currency (Sample.partsInvoice "INV-B-003" "Total 2380.00 EUR")
                Sample.noMemories 0 "grossTotal" Hk) as H.
  etransitivity; [exact H |]. vm_compute. reflexivity.
Defined.

(** ** Purchase-order matching: the confidence and the proposal *)

Section MatchFacts.

Import POMatchingService.
Local Open Scope Q_scope.





End MatchFacts.



(** ** Apply: the values a vendor memory extracts *)

(** X24. A value extracted for a date field in the form [dd.mm.yyyy] is
    rewritten to [yyyy-mm-dd]; a value extracted for a field whose name does
    not contain [date] is trimmed and otherwise kept. *)
Theorem normalizeValue_dates (d1 d2 m1 m2 y1 y2 y3 y4 : ascii) (value fieldName : string) :
  (Js.includes "date" (Js.toLowerCase fieldName) = true ->
   forallb Js.isDigit [d1; d2; m1; m2; y1; y2; y3; y4] = true ->
   ApplyService.normalizeValue
     (String d1 (String d2 (String "." (String m1 (String m2 (String "."
        (String y1 (String y2 (String y3 (String y4 EmptyString))))))))))
     fieldName
   = String y1 (String y2 (String y3 (String y4 (String "-" (String m1 (String m2
       (String "-" (String d1 (String d2 EmptyString))))))))))
  /\ (Js.includes "date" (Js.toLowerCase fieldName) = false ->
      ApplyService.normalizeValue value fieldName = Js.trim value).
Proof.
  split.
  - intros Hdate Hdigits. unfold ApplyService.normalizeValue. rewrite Hdate.
    cbn [forallb] in Hdigits.
    repeat (apply andb_prop in Hdigits as [?H Hdigits]).
    unfold Regex.exec, ApplyService.dottedDate.
    cbn [Regex.searchFrom Regex.seqs Regex.times Regex.run Regex.digit Regex.chr
         Regex.prev Regex.rest Regex.caps].
    rewrite H, H0. cbn [Regex.run Regex.prev Regex.rest Regex.caps Ascii.eqb Bool.eqb].
    rewrite H1, H2. cbn [Regex.run Regex.prev Regex.rest Regex.caps Ascii.eqb Bool.eqb].
    rewrite H3, H4. cbn [Regex.run Regex.prev Regex.rest Regex.caps].
    rewrite H5, H6. cbn.
    reflexivity.
  - intros Hdate. unfold ApplyService.normalizeValue. rewrite Hdate. reflexivity.
Qed.

(** ** Recall: the correction and resolution memories *)

Section RecallSetFacts.

Import RecallService.

Lemma pushUnseen_In {T : Type} (id : T -> string) (l : list T) (acc : list string * list T) m :
  In m (snd (fold_left (pushUnseen id) l acc)) -> In m (snd acc) \/ In m l.
Proof.
  revert acc. induction l as [|x l IH]; intros acc H; [left; exact H |].
  cbn [fold_left] in H. apply IH in H as [H | H]; [| right; right; exact H].
  unfold pushUnseen in H. destruct (JsArr.includes (id x) (fst acc)); [left; exact H |].
  cbn [snd] in H. apply in_app_or in H as [H | [<- | []]]; [left; exact H | right; left; reflexivity].
Qed.

Lemma pushUnseen_folds_In {T F : Type} (id : T -> string) (found : F -> list T)
    (fields : list F) (acc : list string * list T) m :
  In m (snd (fold_left (fun acc f => fold_left (pushUnseen id) (found f) acc) fields acc)) ->
  In m (snd acc) \/ exists f, In f fields /\ In m (found f).
Proof.
  revert acc. induction fields as [|f fields IH]; intros acc H; [left; exact H |].
  cbn [fold_left] in H. apply IH in H as [H | (g & Hg & H)].
  - apply pushUnseen_In in H as [H | H]; [left; exact H |].
    right. exists f. split; [left; reflexivity | exact H].
  - right. exists g. split; [right; exact Hg | exact H].
Qed.

(** What was pushed keeps a row of every id met. *)
Lemma pushUnseen_kept {T : Type} (id : T -> string) (l : list T) (acc : list string * list T) :
  (forall x, In x (fst acc) -> In x (map id (snd acc))) ->
  (forall x, In x (fst (fold_left (pushUnseen id) l acc)) ->
             In x (map id (snd (fold_left (pushUnseen id) l acc))))
  /\ (forall m, In m (snd acc) \/ In m l ->
                In (id m) (map id (snd (fold_left (pushUnseen id) l acc)))).
Proof.
  revert acc. induction l as [|x l IH]; intros acc Hacc.
  - split; [exact Hacc |]. intros m [H | []]. apply in_map. exact H.
  - cbn [fold_left].
    assert (Hstep : forall y, In y (fst (pushUnseen id acc x)) ->
                              In y (map id (snd (pushUnseen id acc x)))).
    { unfold pushUnseen. destruct (JsArr.includes (id x) (fst acc)); [exact Hacc |].
      cbn [fst snd]. intros y [<- | Hy]; rewrite List.map_app; apply in_or_app.
      - right. left. reflexivity.
      - left. apply Hacc. exact Hy. }
    destruct (IH _ Hstep) as [IH1 IH2]. split; [exact IH1 |].
    intros m [Hm | [<- | Hm]].
    + apply IH2. left. unfold pushUnseen.
      destruct (JsArr.includes (id x) (fst acc)); [exact Hm |].
      cbn [snd]. apply in_or_app. left. exact Hm.
    + unfold pushUnseen in *. destruct (JsArr.includes (id x) (fst acc)) eqn:E.
      * apply includes_In, Hacc, in_map_iff in E as (m' & Hid & Hm').
        rewrite <- Hid. apply IH2. left. exact Hm'.
      * apply IH2. left. cbn [snd]. apply in_or_app. right. left. reflexivity.
    + apply IH2. right. exact Hm.
Qed.

Lemma pushUnseen_folds_kept {T F : Type} (id : T -> string) (found : F -> list T)
    (fields : list F) (acc : list string * list T) :
  (forall x, In x (fst acc) -> In x (map id (snd acc))) ->
  forall f m, In f fields -> In m (found f) ->
    In (id m)
       (map id (snd (fold_left (fun acc f => fold_left (pushUnseen id) (found f) acc)
                               fields acc))).
Proof.
  revert acc. induction fields as [|g fields IH]; intros acc Hacc f m Hf Hm; [destruct Hf |].
  cbn [fold_left]. destruct (pushUnseen_kept id (found g) acc Hacc) as [H1 H2].
  destruct Hf as [-> | Hf].
  - specialize (H2 m (or_intror Hm)). apply in_map_iff in H2 as (m' & Hid & Hm').
    rewrite <- Hid. clear IH Hm.
    assert (Hgrow : forall (fs : list F) a m0, In m0 (snd a) ->
              In m0 (snd (fold_left (fun acc f => fold_left (pushUnseen id) (found f) acc) fs a))).
    { clear. intros fs. induction fs as [|h fs IHf]; intros a m0 H; [exact H |].
      cbn [fold_left]. apply IHf. clear IHf.
      generalize dependent a. induction (found h) as [|x l IHl]; intros a H; [exact H |].
      cbn [fold_left]. apply IHl. unfold pushUnseen.
      destruct (JsArr.includes (id x) (fst a)); [exact H |].
      cbn [snd]. apply in_or_app. left. exact H. }
    apply in_map, Hgrow. exact Hm'.
  - apply (IH _ H1 f m Hf Hm).
Qed.

Lemma findCorrectionMemories_In vendorId field db m :
  In m (Repo.findCorrectionMemories vendorId field db)
  <-> In m (correction_memories db) /\ Repo.vendorIdMatches vendorId m = true
      /\ cm_fieldName m = field /\ cm_isActive m = true.
Proof.
  unfold Repo.findCorrectionMemories.
  set (rows := List.filter _ (correction_memories db)).
  assert (Hsort : In m (JsArr.sort (fun a b => (cm_confidence b - cm_confidence a)%Q) rows)
                  <-> In m rows).
  { split; apply Permutation_in; [| symmetry]; apply sort_Permutation. }
  rewrite Hsort. subst rows. rewrite filter_In, !andb_true_iff, String.eqb_eq. tauto.
Qed.

Lemma filterByConfidence_In {T : Type} (confidence : T -> Q) (l : list T) m :
  In m (filterByConfidence confidence l)
  <-> In m l /\ (minimumThreshold CONFIDENCE_CONFIG <= confidence m)%Q.
Proof.
  assert (H : In m (filterByConfidence confidence l)
              <-> In m (List.filter
                          (fun m => Qle_bool (minimumThreshold CONFIDENCE_CONFIG) (confidence m)) l)).
  { split; apply Permutation_in; [| symmetry]; apply filterByConfidence_Permutation. }
  rewrite H, filter_In, Qle_bool_iff. reflexivity.
Qed.

(** A correction memory is a candidate of the recall for a vendor key and
    the fields of an invoice. *)
Lemma correction_candidate vendorId fieldNames db m :
  (exists field, In field fieldNames
     /\ In m (Repo.findCorrectionMemories (Some vendorId) field db
              ++ Repo.findCorrectionMemories None field db))
  <-> In m (correction_memories db) /\ cm_isActive m = true
      /\ In (cm_fieldName m) fieldNames
      /\ (cm_vendorId m = None \/ cm_vendorId m = Some vendorId).
Proof.
  split.
  - intros (field & Hfield & Hm). apply in_app_or in Hm.
    rewrite !findCorrectionMemories_In in Hm. unfold Repo.vendorIdMatches in Hm.
    destruct Hm as [(H1 & H2 & <- & H4) | (H1 & H2 & <- & H4)];
      (split; [exact H1 |]; split; [exact H4 |]; split; [exact Hfield |]);
      destruct (cm_vendorId m) as [w|]; try (left; reflexivity); try discriminate.
    right. apply String.eqb_eq in H2. rewrite H2. reflexivity.
  - intros (H1 & H2 & H3 & H4). exists (cm_fieldName m). split; [exact H3 |].
    apply in_or_app. left. apply findCorrectionMemories_In. unfold Repo.vendorIdMatches.
    repeat split; try assumption.
    destruct H4 as [-> | ->]; [reflexivity | apply String.eqb_refl].
Qed.

End RecallSetFacts.

(** X25. The correction memories Recall returns are rows of the correction
    table that are active, name a field of the invoice, are stored for the
    invoice's vendor key or for no vendor, and have a confidence of at least
    the minimum threshold; no id is returned twice. On a table whose ids are
    distinct, every such row is returned. *)
Theorem recalled_corrections (invoice : Invoice) (now : Z) (db : Repository) :
  let recalled := correctionMemories (rr_memories (RecallService.recallMemories invoice now db)) in
  let wanted m :=
    In m (correction_memories db) /\ cm_isActive m = true
    /\ In (cm_fieldName m) (map fst (inv_fields invoice))
    /\ (cm_vendorId m = None
        \/ cm_vendorId m = Some (normalizeVendorName (inv_vendorId invoice)))
    /\ (minimumThreshold CONFIDENCE_CONFIG <= cm_confidence m)%Q in
  (forall m, In m recalled -> wanted m)
  /\ List.NoDup (map cm_id recalled)
  /\ (List.NoDup (map cm_id (correction_memories db)) -> forall m, wanted m -> In m recalled).
Proof.
  cbv zeta. cbn [RecallService.recallMemories rr_memories correctionMemories].
  unfold RecallService.recallCorrectionMemories. cbv zeta.
  set (found := fun field =>
         Repo.findCorrectionMemories (Some (normalizeVendorName (inv_vendorId invoice))) field db
         ++ Repo.findCorrectionMemories None field db).
  set (all := fold_left _ (map fst (inv_fields invoice)) ([], [])).
  assert (Hall : all = fold_left (fun acc f => fold_left (RecallService.pushUnseen cm_id)
                                                 (found f) acc)
                                 (map fst (inv_fields invoice)) ([], []))
    by reflexivity.
  split; [| split].
  - intros m Hm. apply filterByConfidence_In in Hm as [Hm Hc]. rewrite Hall in Hm.
    apply pushUnseen_folds_In in Hm as [[] | Hm].
    apply correction_candidate in Hm. tauto.
  - apply filterByConfidence_NoDup. rewrite Hall. apply pushUnseen_folds.
    + constructor.
    + intros x [].
  - intros Hids m (H1 & H2 & H3 & H4 & H5). apply filterByConfidence_In. split; [| exact H5].
    assert (Hcand : exists field, In field (map fst (inv_fields invoice)) /\ In m (found field))
      by (apply correction_candidate; tauto).
    destruct Hcand as (field & Hfield & Hm).
    pose proof (pushUnseen_folds_kept cm_id found (map fst (inv_fields invoice)) ([], [])
                  (fun x (H : In x []) => match H with end) field m Hfield Hm) as Hkept.
    rewrite <- Hall in Hkept. apply in_map_iff in Hkept as (m' & Hid & Hm').
    assert (Hrow : In m' (correction_memories db)).
    { rewrite Hall in Hm'. apply pushUnseen_folds_In in Hm' as [[] | Hc].
      apply correction_candidate in Hc. tauto. }
    assert (Hsame : m' = m).
    { clear - Hids Hid Hrow H1. induction (correction_memories db) as [|r rows IH];
        [destruct H1 |].
      cbn [map] in Hids. apply List.NoDup_cons_iff in Hids as [Hr Hids].
      destruct Hrow as [-> | Hrow], H1 as [-> | H1]; try reflexivity.
      - exfalso. apply Hr. rewrite Hid. apply in_map. exact H1.
      - exfalso. apply Hr. rewrite <- Hid. apply in_map. exact Hrow.
      - apply IH; assumption. }
    rewrite <- Hsame. exact Hm'.
Qed.

Section DiscrepancyFacts.

Import RecallService.

Lemma discrepancy_step lower kts types :
  (List.NoDup types -> List.NoDup
     (fold_left (fun types kt =>
        if Js.includes (fst kt) lower && negb (JsArr.includes (snd kt) types)
        then types ++ [snd kt] else types) kts types))
  /\ (forall t, In t (fold_left (fun types kt =>
                   if Js.includes (fst kt) lower && negb (JsArr.includes (snd kt) types)
                   then types ++ [snd kt] else types) kts types) ->
                In t types \/ exists kt, In kt kts /\ snd kt = t
                                         /\ Js.includes (fst kt) lower = true).
Proof.
  revert types. induction kts as [|kt kts IH]; intros types; [split; auto |].
  cbn [fold_left]. destruct (IH (if Js.includes (fst kt) lower
                                   && negb (JsArr.includes (snd kt) types)
                                then types ++ [snd kt] else types)) as [IH1 IH2].
  split.
  - intros Hnd. apply IH1. destruct (Js.includes (fst kt) lower); cbn [andb]; [| exact Hnd].
    destruct (JsArr.includes (snd kt) types) eqn:E; cbn [negb]; [exact Hnd |].
    apply NoDup_snoc; [exact Hnd |]. rewrite <- includes_In, E. discriminate.
  - intros t Ht. apply IH2 in Ht as [Ht | (kt' & Hkt & Hsnd & Hinc)].
    + destruct (Js.includes (fst kt) lower) eqn:Ei; cbn [andb] in Ht; [| left; exact Ht].
      destruct (JsArr.includes (snd kt) types); cbn [negb] in Ht; [left; exact Ht |].
      apply in_app_or in Ht as [Ht | [<- | []]]; [left; exact Ht |].
      right. exists kt. split; [left; reflexivity |]. split; [reflexivity | exact Ei].
    + right. exists kt'. split; [right; exact Hkt |]. split; assumption.
Qed.

Lemma findResolutionMemories_In type db m :
  In m (Repo.findResolutionMemories type db)
  <-> In m (resolution_memories db) /\ rm_discrepancyType m = type /\ rm_isActive m = true.
Proof.
  unfold Repo.findResolutionMemories.
  set (rows := List.filter _ (resolution_memories db)).
  assert (Hsort : forall cmp, In m (JsArr.sort cmp rows) <-> In m rows).
  { intros cmp. split; apply Permutation_in; [| symmetry]; apply sort_Permutation. }
  rewrite Hsort. subst rows. rewrite filter_In, andb_true_iff, String.eqb_eq. tauto.
Qed.

End DiscrepancyFacts.

(** X26. The discrepancy types read off the field names of an invoice are
    distinct, and each is the type the keyword table gives for a keyword that
    occurs in a lower-cased field name. The resolution memories Recall
    returns are active rows of one of these types that have seen at least one
    outcome; no id is returned twice. *)
Theorem recalled_resolutions (invoice : Invoice) (now : Z) (db : Repository) :
  let types := RecallService.extractDiscrepancyTypes invoice in
  let recalled := resolutionMemories (rr_memories (RecallService.recallMemories invoice now db)) in
  List.NoDup types
  /\ (forall t, In t types ->
        exists keyword field,
          In (keyword, t) RecallService.discrepancyMap
          /\ In field (map fst (inv_fields invoice))
          /\ Js.includes keyword (Js.toLowerCase field) = true)
  /\ (forall m, In m recalled ->
        In m (resolution_memories db) /\ rm_isActive m = true
        /\ In (rm_discrepancyType m) types
        /\ (0 < rm_approvalCount m + rm_rejectionCount m)%Z)
  /\ List.NoDup (map rm_id recalled).
Proof.
  cbv zeta.
  assert (Htypes : forall fields types,
    (List.NoDup types ->
     List.NoDup (fold_left (fun types field =>
        fold_left (fun types kt =>
          if Js.includes (fst kt) (Js.toLowerCase field) && negb (JsArr.includes (snd kt) types)
          then types ++ [snd kt] else types) RecallService.discrepancyMap types) fields types))
    /\ (forall t, In t (fold_left (fun types field =>
        fold_left (fun types kt =>
          if Js.includes (fst kt) (Js.toLowerCase field) && negb (JsArr.includes (snd kt) types)
          then types ++ [snd kt] else types) RecallService.discrepancyMap types) fields types) ->
        In t types
        \/ exists keyword field, In (keyword, t) RecallService.discrepancyMap
                                 /\ In field fields
                                 /\ Js.includes keyword (Js.toLowerCase field) = true)).
  { induction fields as [|field fields IH]; intros types; [split; auto |].
    cbn [fold_left].
    destruct (discrepancy_step (Js.toLowerCase field) RecallService.discrepancyMap types)
      as [S1 S2].
    destruct (IH (fold_left (fun types kt =>
                    if Js.includes (fst kt) (Js.toLowerCase field)
                       && negb (JsArr.includes (snd kt) types)
                    then types ++ [snd kt] else types) RecallService.discrepancyMap types))
      as [IH1 IH2].
    split; [intros Hnd; apply IH1, S1; exact Hnd |].
    intros t Ht. apply IH2 in Ht as [Ht | (keyword & f & H1 & H2 & H3)].
    - apply S2 in Ht as [Ht | ([keyword t'] & Hkt & Hsnd & Hinc)]; [left; exact Ht |].
      cbn [fst snd] in *. subst t'. right. exists keyword, field.
      split; [exact Hkt |]. split; [left; reflexivity | exact Hinc].
    - right. exists keyword, f. split; [exact H1 |]. split; [right; exact H2 | exact H3]. }
  destruct (Htypes (map fst (inv_fields invoice)) []) as [T1 T2].
  split; [apply T1; constructor |].
  split; [intros t Ht; destruct (T2 t Ht) as [[] | H]; exact H |].
  cbn [RecallService.recallMemories rr_memories resolutionMemories].
  unfold RecallService.recallResolutionMemories. cbv zeta.
  set (types := RecallService.extractDiscrepancyTypes invoice).
  set (all := fold_left _ types ([], [])).
  assert (Hall : all = fold_left (fun acc type =>
                         fold_left (RecallService.pushUnseen rm_id)
                                   (Repo.findResolutionMemories type db) acc) types ([], []))
    by reflexivity.
  set (kept := List.filter (fun m => (0 <? RecallService.outcomes m)%Z) (snd all)).
  assert (Hsort : forall cmp m, In m (JsArr.sort cmp kept) <-> In m kept).
  { intros cmp m. split; apply Permutation_in; [| symmetry]; apply sort_Permutation. }
  split.
  - intros m Hm. apply Hsort in Hm. subst kept. apply filter_In in Hm as [Hm Hpos].
    rewrite Hall in Hm. apply pushUnseen_folds_In in Hm as [[] | (type & Htype & Hm)].
    apply findResolutionMemories_In in Hm as (H1 & <- & H3).
    apply Z.ltb_lt in Hpos. unfold RecallService.outcomes in Hpos. tauto.
  - eapply Permutation_NoDup; [apply Permutation_map, Permutation_sym, sort_Permutation |].
    subst kept. apply NoDup_map_filter. rewrite Hall.
    apply (pushUnseen_folds rm_id (fun type => Repo.findResolutionMemories type db)).
    + constructor.
    + intros x [].
Qed.

(** ** Learn: a correction that confirms a memory *)

(** X27. A correction whose value is the one the contributing memory of the
    field suggested (its extracted value, or the stored corrected value of a
    correction memory) confirms the memory: its row, when there is one, is
    reinforced, and nothing is created, no identifier drawn, no row added. *)
Theorem confirming_correction_reinforces (contributing : list ContributingMemory)
    (invoice : Invoice) (vendorId : string) (now : Z) (db : Repository)
    (result : LearningResult) (drawn : nat) (corr : FieldCorrection)
    (cm : ContributingMemory) :
  List.find (fun m => String.eqb (ctm_fieldName m) (fc_fieldName corr)) contributing = Some cm ->
  Learn.getMemorySuggestedValue cm db = Some (JsVal.toString (fc_correctedValue corr)) ->
  exists db' result',
    Learn.learnCorrection contributing invoice vendorId now (db, result, drawn) corr
    = Ok (db', result', drawn)
    /\ createdMemories result' = createdMemories result
    /\ LearnSpec.memoryIds db' = LearnSpec.memoryIds db
    /\ (forall e, Learn.findExisting cm db = Some e ->
                  Learn.findExisting cm db' = Some (LearnSpec.reinforced e))
    /\ (Learn.findExisting cm db = None -> db' = db /\ result' = result).
Proof.
  intros Hfind Hvalue. unfold Learn.learnCorrection. rewrite Hfind, Hvalue.
  cbn [Learn.confirms]. rewrite String.eqb_refl.
  eexists _, _. split; [reflexivity |].
  destruct (updateMemory_tables cm reinforce now db result) as [Hids Hcreated].
  split; [exact Hcreated |]. split; [exact Hids |]. split.
  - intros e He. rewrite updateMemory_unfold, He.
    apply (findExisting_updated cm reinforce now db e He).
  - intros Hnone. rewrite updateMemory_unfold, Hnone. split; reflexivity.
Qed.

Lemma confirming_correction_reinforces_witness :
  exists db' result',
    Learn.learnCorrection
      [{| ctm_memoryId := "vm-1"; ctm_memoryType := vendor; ctm_fieldName := "serviceDate";
          ctm_extractedValue := Some "2024-01-01"%string |}]
      (SampleLearn.supplierInvoice "INV-A-001" 1705276800000) "supplier gmbh" 1705363200000
      (repository (SampleLearn.processor (SampleLearn.serviceDateMemory 0.8 0) "INV-A-001"),
       Learn.emptyResult, 0%nat)
      SampleLearn.serviceDateCorrection
    = Ok (db', result', 0%nat)
    /\ createdMemories result' = [].
Proof.
  destruct (confirming_correction_reinforces
              [{| ctm_memoryId := "vm-1"; ctm_memoryType := vendor;
                  ctm_fieldName := "serviceDate";
                  ctm_extractedValue := Some "2024-01-01"%string |}]
              (SampleLearn.supplierInvoice "INV-A-001" 1705276800000) "supplier gmbh"
              1705363200000
              (repository (SampleLearn.processor (SampleLearn.serviceDateMemory 0.8 0)
                             "INV-A-001"))
              Learn.emptyResult 0%nat SampleLearn.serviceDateCorrection _ eq_refl eq_refl)
    as (db' & result' & Hcall & Hcreated & _).
  exists db', result'. split; [exact Hcall | exact Hcreated].
Defined.

(** ** Decide: the flagged fields *)

Section FlaggedFacts.

Import DecisionService.

Lemma push_missing_In (unmatched flagged : list string) x :
  In x (fold_left (fun fl f => if JsArr.includes f fl then fl else fl ++ [f]) unmatched flagged)
  <-> In x flagged \/ In x unmatched.
Proof.
  revert flagged. induction unmatched as [|f unmatched IH]; intros flagged; cbn [fold_left].
  - split; [left; assumption | intros [H | []]; exact H].
  - rewrite IH. destruct (JsArr.includes f flagged) eqn:E.
    + apply includes_In in E. split; [intros [H | H]; auto; right; right; exact H |].
      intros [H | [<- | H]]; auto.
    + rewrite in_app_iff. cbn [In]. tauto.
Qed.

Lemma sweep_flagged_In l s x :
  In x (sw_flagged (fold_left sweepMemory l s))
  <-> In x (sw_flagged s)
      \/ exists m, In m l /\ am_fieldName m = x
                   /\ JsNum.geb (am_confidence m) (autoApplyThreshold CONFIDENCE_CONFIG) = false
                   /\ JsNum.ltb (am_confidence m) (suggestionThreshold CONFIDENCE_CONFIG) = true.
Proof.
  revert s. induction l as [|m l IH]; intros s; cbn [fold_left].
  - split; [left; assumption | intros [H | (m & [] & _)]; exact H].
  - rewrite IH. unfold sweepMemory.
    destruct (JsNum.geb (am_confidence m) (autoApplyThreshold CONFIDENCE_CONFIG)) eqn:Ea.
    + cbn [sw_flagged]. split.
      * intros [H | (m' & Hm' & H)]; [left; exact H |]. right. exists m'. split; [right; exact Hm' | exact H].
      * intros [H | (m' & [<- | Hm'] & Hx & Hg & Hl)]; [left; exact H | congruence |].
        right. exists m'. tauto.
    + destruct (JsNum.ltb (am_confidence m) (suggestionThreshold CONFIDENCE_CONFIG)) eqn:El;
        cbn [andb].
      * destruct (JsArr.includes (am_fieldName m) (sw_flagged s)) eqn:Ei; cbn [negb sw_flagged].
        -- apply includes_In in Ei. split.
           ++ intros [H | (m' & Hm' & H)]; [left; exact H |].
              right. exists m'. split; [right; exact Hm' | exact H].
           ++ intros [H | (m' & [<- | Hm'] & Hx & Hg & Hl)]; [left; exact H | |].
              ** left. rewrite <- Hx. exact Ei.
              ** right. exists m'. tauto.
        -- rewrite in_app_iff. cbn [In]. split.
           ++ intros [[H | [H | []]] | (m' & Hm' & H)].
              ** left. exact H.
              ** right. exists m. split; [left; reflexivity |]. split; [exact H |]. split; assumption.
              ** right. exists m'. split; [right; exact Hm' | exact H].
           ++ intros [H | (m' & [<- | Hm'] & Hx & Hg & Hl)].
              ** left. left. exact H.
              ** left. right. left. exact Hx.
              ** right. exists m'. tauto.
      * cbn [sw_flagged]. split.
        -- intros [H | (m' & Hm' & H)]; [left; exact H |].
           right. exists m'. split; [right; exact Hm' | exact H].
        -- intros [H | (m' & [<- | Hm'] & Hx & Hg & Hl)]; [left; exact H | congruence |].
           right. exists m'. tauto.
Qed.

End FlaggedFacts.

(** X28. The flagged fields of a decision hold no name twice. They are the
    fields extracted with a confidence below 0.6, the fields no trace names,
    and the fields of the traces whose confidence is below the suggestion
    threshold. *)
Theorem flagged_fields (applied : AppliedResult) (invoice : Invoice)
    (patterns : list DetectedPattern) (now : Z) (db : Repository) (name : string) :
  let decision := dr_decision (DecisionService.makeDecision applied invoice patterns now db) in
  List.NoDup (flaggedFields decision)
  /\ (In name (flaggedFields decision)
      <-> (exists field, In (name, field) (inv_fields invoice)
                         /\ (f_extractionConfidence field < 0.6)%Q)
          \/ (In name (map fst (inv_fields invoice))
              /\ ~ In name (map am_fieldName (appliedMemories applied)))
          \/ (exists m, In m (appliedMemories applied) /\ am_fieldName m = name
                        /\ (am_confidence m < suggestionThreshold CONFIDENCE_CONFIG)%Q)).
Proof.
  cbv zeta. unfold DecisionService.makeDecision. cbv zeta.
  cbn [dr_decision flaggedFields]. split; [apply setOf_NoDup |].
  rewrite setOf_In, sweep_flagged_In. cbn [DecisionService.sw_flagged].
  rewrite push_missing_In, in_map_iff, filter_In.
  assert (Hlow : (exists kv, fst kv = name
                    /\ In kv (List.filter
                                (fun kv => JsNum.ltb (f_extractionConfidence (snd kv)) 0.6)
                                (inv_fields invoice)))
                 <-> exists field, In (name, field) (inv_fields invoice)
                                   /\ (f_extractionConfidence field < 0.6)%Q).
  { split.
    - intros ([n field] & Hn & Hkv). cbn [fst] in Hn. subst n. apply filter_In in Hkv as [H1 H2].
      exists field. split; [exact H1 |]. cbn [snd] in H2. unfold JsNum.ltb in H2.
      apply negb_true_iff in H2. apply (geb_lt _ _). exact H2.
    - intros (field & H1 & H2). exists (name, field). split; [reflexivity |].
      apply filter_In. split; [exact H1 |]. cbn [snd]. unfold JsNum.ltb.
      apply negb_true_iff. apply (geb_lt (f_extractionConfidence field) 0.6). exact H2. }
  assert (Hun : negb (JsArr.includes name (map am_fieldName (appliedMemories applied))) = true
                <-> ~ In name (map am_fieldName (appliedMemories applied))).
  { rewrite negb_true_iff, <- includes_In.
    destruct (JsArr.includes name (map am_fieldName (appliedMemories applied))).
    - split; [discriminate | intros H; destruct (H eq_refl)].
    - split; [intros _; discriminate | reflexivity]. }
  assert (Hmem : (exists m, In m (appliedMemories applied) /\ am_fieldName m = name
                    /\ JsNum.geb (am_confidence m) (autoApplyThreshold CONFIDENCE_CONFIG) = false
                    /\ JsNum.ltb (am_confidence m) (suggestionThreshold CONFIDENCE_CONFIG) = true)
                 <-> exists m, In m (appliedMemories applied) /\ am_fieldName m = name
                      /\ (am_confidence m < suggestionThreshold CONFIDENCE_CONFIG)%Q).
  { split; intros (m & H1 & H2 & H); exists m; (split; [exact H1 |]); (split; [exact H2 |]).
    - destruct H as [_ H]. unfold JsNum.ltb in H. apply negb_true_iff in H.
      apply (geb_lt _ _). exact H.
    - assert (Hs : JsNum.geb (am_confidence m) (suggestionThreshold CONFIDENCE_CONFIG) = false)
        by (apply geb_lt; exact H).
      split; [| unfold JsNum.ltb, JsNum.geb in *; rewrite Hs; reflexivity].
      apply geb_lt. change (autoApplyThreshold CONFIDENCE_CONFIG) with 0.85%Q.
      change (suggestionThreshold CONFIDENCE_CONFIG) with 0.70%Q in H. lra. }
  rewrite Hlow, Hun, Hmem. cbn [In]. tauto.
Qed.

(** ** Apply: the order of the detected patterns *)

Section PatternOrderFacts.

Import ApplyService.

(** A block of [detectPatterns] that pushes at most one pattern of type [t]. *)
Lemma block_pushes (t : PatternType) (before after : list DetectedPattern)
    (allowed : list PatternType) :
  sublist (map dp_type before) allowed ->
  Forall (fun p => JsVal.truthyStr (dp_suggestedAction p) = true) before ->
  after = before
  \/ (exists p, after = before ++ [p] /\ dp_type p = t
                /\ JsVal.truthyStr (dp_suggestedAction p) = true) ->
  sublist (map dp_type after) (allowed ++ [t])
  /\ Forall (fun p => JsVal.truthyStr (dp_suggestedAction p) = true) after.
Proof.
  intros Hsub Hact [-> | (p & -> & Ht & Hp)].
  - split; [| exact Hact]. rewrite <- (app_nil_r (map dp_type before)).
    apply sublist_app; [exact Hsub | apply sublist_nil_l].
  - split.
    + rewrite List.map_app. cbn [map]. rewrite Ht. apply sublist_app; [exact Hsub | reflexivity].
    + apply Forall_app. split; [exact Hact | repeat constructor; exact Hp].
Qed.

End PatternOrderFacts.

(** X29. The Apply stage detects each type of pattern at most once and in a
    fixed order: currency recovery, skonto, SKU mapping, tax inclusive. Every
    pattern it detects carries a suggested action that is not empty, so the
    Decide stage tells each in its reasoning. *)
Theorem patterns_in_order (invoice : Invoice) (memories : RecalledMemories) (now : Z) :
  let patterns := ar_detectedPatterns (ApplyService.applyMemories invoice memories now) in
  sublist (map dp_type patterns) [currency_recovery; skonto; sku_mapping; tax_inclusive]
  /\ Forall (fun p => JsVal.truthyStr (dp_suggestedAction p) = true) patterns.
Proof.
  cbv zeta. unfold ApplyService.applyMemories. cbn [ar_detectedPatterns].
  unfold ApplyService.detectPatterns.
  set (text := ApplyService.loweredText invoice).
  set (st0 := ([], normalizedInvoice (ApplyService.applyRecalled invoice memories))).
  set (st1 := ApplyService.recoverCurrency text st0).
  set (st2 := ApplyService.detectSkonto text st1).
  set (st3 := ApplyService.detectSkuMapping text st2).
  assert (H1 : sublist (map dp_type (fst st1)) ([] ++ [currency_recovery])
               /\ Forall (fun p => JsVal.truthyStr (dp_suggestedAction p) = true) (fst st1)).
  { apply (block_pushes currency_recovery (fst st0)); [constructor | constructor |].
    subst st1. unfold ApplyService.recoverCurrency.
    destruct (negb _); [| left; reflexivity].
    destruct (Regex.group 1 _) as [c|]; [| left; reflexivity].
    destruct (JsVal.truthyStr (Some c)); [| left; reflexivity].
    right. eexists. split; [reflexivity |]. split; reflexivity. }
  assert (H2 : sublist (map dp_type (fst st2)) (([] ++ [currency_recovery]) ++ [skonto])
               /\ Forall (fun p => JsVal.truthyStr (dp_suggestedAction p) = true) (fst st2)).
  { apply (block_pushes skonto (fst st1)); [apply H1 | apply H1 |].
    subst st2. unfold ApplyService.detectSkonto.
    destruct (_ || _); [| left; reflexivity].
    right. eexists. split; [reflexivity |]. split; reflexivity. }
  assert (H3 : sublist (map dp_type (fst st3))
                 ((([] ++ [currency_recovery]) ++ [skonto]) ++ [sku_mapping])
               /\ Forall (fun p => JsVal.truthyStr (dp_suggestedAction p) = true) (fst st3)).
  { apply (block_pushes sku_mapping (fst st2)); [apply H2 | apply H2 |].
    subst st3. unfold ApplyService.detectSkuMapping.
    destruct (Regex.test _ _); [| left; reflexivity].
    right. eexists. split; [reflexivity |]. split; reflexivity. }
  change [currency_recovery; skonto; sku_mapping; tax_inclusive]
    with (((([] ++ [currency_recovery]) ++ [skonto]) ++ [sku_mapping]) ++ [tax_inclusive]).
  apply (block_pushes tax_inclusive (fst st3)); [apply H3 | apply H3 |].
  unfold ApplyService.detectTaxInclusive.
  destruct (Regex.test _ _); [| left; reflexivity].
  right. eexists. split; [reflexivity |]. split; reflexivity.
Qed.

(** ** Apply: an invoice without raw text *)

(** X30. Without raw text (absent or empty) the vendor memories extract
    nothing: the loop over them leaves the normalized record and the
    proposals as they are, and the traces it appends carry no extracted
    value. *)
Theorem vendor_memories_need_raw_text (invoice : Invoice) (vms : list VendorMemory)
    (st : AppliedResult) :
  inv_rawText invoice = None \/ inv_rawText invoice = Some ""%string ->
  normalizedInvoice (ApplySpec.afterVendors invoice vms st) = normalizedInvoice st
  /\ proposedCorrections (ApplySpec.afterVendors invoice vms st) = proposedCorrections st
  /\ exists traces,
       appliedMemories (ApplySpec.afterVendors invoice vms st) = appliedMemories st ++ traces
       /\ length traces = length vms
       /\ Forall (fun t => am_extractedValue t = None) traces.
Proof.
  intros Htext.
  assert (Hnone : forall original field,
             ApplyService.extractValue (inv_rawText invoice) original field = None).
  { intros original field. destruct Htext as [-> | ->]; reflexivity. }
  unfold ApplySpec.afterVendors. revert st. induction vms as [|vm vms IH]; intros st.
  - repeat split. exists []. rewrite app_nil_r. repeat split. constructor.
  - cbn [fold_left].
    destruct (IH (ApplyService.applyVendorMemory invoice st vm)) as (H1 & H2 & traces & H3 & H4 & H5).
    rewrite H1, H2, H3. clear H1 H2 H3 IH.
    unfold ApplyService.applyVendorMemory. cbv zeta. rewrite Hnone.
    destruct (JsVal.isNullish _); cbn [normalizedInvoice proposedCorrections appliedMemories];
      (split; [reflexivity |]; split; [reflexivity |]; eexists (_ :: traces);
       rewrite <- app_assoc; split; [reflexivity |]; split; [cbn; rewrite H4; reflexivity |];
       constructor; [reflexivity | exact H5]).
Qed.

Lemma vendor_memories_need_raw_text_witness :
  normalizedInvoice
    (ApplySpec.afterVendors
       {| inv_id := "INV-A-005"; inv_vendorId := "Supplier GmbH";
          inv_vendorName := "Supplier GmbH"; inv_invoiceNumber := "INV-2024-005";
          inv_invoiceDate := 1705276800000;
          inv_fields := [Sample.field "serviceDate" VNull 0.3 (Some "Leistungsdatum"%string)];
          inv_rawText := None |}
       [SampleLearn.serviceDateMemory 0.9 0]
       {| normalizedInvoice := ∅; appliedMemories := []; proposedCorrections := [] |})
  = ∅.
Proof.
  apply (vendor_memories_need_raw_text
           {| inv_id := "INV-A-005"; inv_vendorId := "Supplier GmbH";
              inv_vendorName := "Supplier GmbH"; inv_invoiceNumber := "INV-2024-005";
              inv_invoiceDate := 1705276800000;
              inv_fields := [Sample.field "serviceDate" VNull 0.3 (Some "Leistungsdatum"%string)];
              inv_rawText := None |}
           [SampleLearn.serviceDateMemory 0.9 0]
           {| normalizedInvoice := ∅; appliedMemories := []; proposedCorrections := [] |}
           (or_introl eq_refl)).
Defined.
